(** * A versioned file store: model of [fileserver/app.py] and its properties

    The program is a small Flask service over a storage root [./decisions]
    holding one directory per revision and a [HEAD] file.  This development
    embeds the helpers and request handlers of [app.py] as Rocq functions over
    an explicit file-system state and proves (or refutes) the properties the
    specification states about them.

    Modelling conventions.
    - Python [str] values are [string]s; a character is read as the code
      point of the same number (U+0000 to U+00FF).  UTF-8 encoding and
      decoding are inverse to each other on such text, so a file holds the
      text that was written to it.
    - Python [int] is [Z].
    - Paths follow [posixpath]: the service is run on a POSIX system.
    - The file-system state is the directory tree below the working
      directory of the process; it has regular files, which hold text, and
      directories only (no symbolic links, no permission bits, no
      timestamps: those are asked from the operating system).  A path that
      is absolute or climbs above the working directory names an entry this
      tree does not hold; an operating-system call on such a path ends the
      run with [OutsideTree].
    - An uncaught exception ends a handler; Flask answers it with status 500.
      [abort(404)] is the exception [HTTP404].
    - Of the limits of the interpreter and of the operating system, the
      recursion limit is part of [shutil.copytree] and the size limit of a
      list part of [rev_list].  The bounds on names, on paths, on the digits
      of an integer and on the other recursions are stated as hypotheses
      where a statement depends on them. *)

From Stdlib Require Import Decimal DecimalString DecimalPos DecimalZ.
From Stdlib Require Import ZArith Lia Bool Arith String Ascii.
From Stdlib Require Import List Permutation Sorted.
Import ListNotations.

Local Open Scope string_scope.
Local Open Scope list_scope.

(** ** Strings *)

Module PyStr.

Definition slash : ascii := "/"%char.

Definition is_slash (c : ascii) : bool := Ascii.eqb c slash.

(** [s.startswith(t)] *)
Fixpoint startswith (t s : string) : bool :=
  match t, s with
  | EmptyString, _ => true
  | String a t', String b s' => Ascii.eqb a b && startswith t' s'
  | String _ _, EmptyString => false
  end.

(** [s.endswith("/")] *)
Fixpoint endswith_slash (s : string) : bool :=
  match s with
  | EmptyString => false
  | String c EmptyString => is_slash c
  | String _ s' => endswith_slash s'
  end.

(** ["/" in s] *)
Fixpoint has_slash (s : string) : bool :=
  match s with
  | EmptyString => false
  | String c s' => is_slash c || has_slash s'
  end.

(** [s.split("/")]: never empty, [""] for the empty string. *)
Fixpoint split_slash (s : string) : list string :=
  match s with
  | EmptyString => [EmptyString]
  | String c s' =>
      if is_slash c then EmptyString :: split_slash s'
      else match split_slash s' with
           | h :: t => String c h :: t
           | [] => [String c EmptyString]
           end
  end.

(** ["/".join(l)] *)
Fixpoint join_slash (l : list string) : string :=
  match l with
  | [] => EmptyString
  | [x] => x
  | x :: l' => (x ++ String slash (join_slash l'))%string
  end.

(** ["/" * n] *)
Fixpoint slashes (n : nat) : string :=
  match n with
  | O => EmptyString
  | S n' => String slash (slashes n')
  end.

(** [s == "/" * len(s)] *)
Fixpoint all_slashes (s : string) : bool :=
  match s with
  | EmptyString => true
  | String c s' => is_slash c && all_slashes s'
  end.

(** [s.rstrip("/")] *)
Fixpoint rstrip_slash (s : string) : string :=
  match s with
  | EmptyString => EmptyString
  | String c s' =>
      let r := rstrip_slash s' in
      if is_slash c && String.eqb r EmptyString then EmptyString
      else String c r
  end.

(** [s[: s.rfind("/") + 1]] *)
Fixpoint upto_last_slash (s : string) : string :=
  match s with
  | EmptyString => EmptyString
  | String c s' =>
      if has_slash s then String c (upto_last_slash s') else EmptyString
  end.

Definition CR : ascii := ascii_of_nat 13.

Definition LF : ascii := ascii_of_nat 10.

(** Line endings as text-mode reading returns them ([newline=None]):
    ["\r\n"] and a lone ["\r"] both become ["\n"]. *)
Fixpoint universal_newlines (s : string) : string :=
  match s with
  | EmptyString => EmptyString
  | String c r =>
      if Ascii.eqb c CR then
        match r with
        | String d r' =>
            if Ascii.eqb d LF then String LF (universal_newlines r')
            else String LF (universal_newlines r)
        | EmptyString => String LF EmptyString
        end
      else String c (universal_newlines r)
  end.

(** ["\r" in s] *)
Fixpoint has_cr (s : string) : bool :=
  match s with
  | EmptyString => false
  | String c r => Ascii.eqb c CR || has_cr r
  end.

(** ["\0" in s] *)
Fixpoint has_nul (s : string) : bool :=
  match s with
  | EmptyString => false
  | String c r => Ascii.eqb c Ascii.zero || has_nul r
  end.

(** [c.isspace()] on U+0000..U+00FF: TAB, LF, VT, FF, CR, FS, GS, RS, US,
    SPACE, NEL and NBSP. *)
Definition isspace (c : ascii) : bool :=
  let n := nat_of_ascii c in
  (((9 <=? n) && (n <=? 13)) || ((28 <=? n) && (n <=? 32))
   || (n =? 133) || (n =? 160))%nat.

Fixpoint lstrip (s : string) : string :=
  match s with
  | EmptyString => EmptyString
  | String c r => if isspace c then lstrip r else s
  end.

Fixpoint rstrip (s : string) : string :=
  match s with
  | EmptyString => EmptyString
  | String c r =>
      let t := rstrip r in
      if isspace c && String.eqb t EmptyString then EmptyString
      else String c t
  end.

(** [s[s.rfind("/") + 1 :]] *)
Fixpoint after_last_slash (s : string) : string :=
  match s with
  | EmptyString => EmptyString
  | String _ s' => if has_slash s then after_last_slash s' else s
  end.

(** [s.strip()] *)
Definition strip (s : string) : string := rstrip (lstrip s).

(** [c.lower()] on U+0000..U+00FF: [A-Z], and the Latin-1 capitals
    U+00C0..U+00DE except the multiplication sign U+00D7. *)
Definition lower_char (c : ascii) : ascii :=
  let n := nat_of_ascii c in
  if (((65 <=? n) && (n <=? 90))
      || ((192 <=? n) && (n <=? 222) && negb (n =? 215)))%nat
  then ascii_of_nat (n + 32) else c.

(** [s.lower()] *)
Fixpoint lower (s : string) : string :=
  match s with
  | EmptyString => EmptyString
  | String c r => String (lower_char c) (lower r)
  end.

(** [len(s.encode("utf-8"))] *)
Fixpoint utf8_len (s : string) : Z :=
  match s with
  | EmptyString => 0
  | String c r =>
      ((if (nat_of_ascii c <? 128)%nat then 1 else 2) + utf8_len r)%Z
  end.

(** [a < b] on strings: lexicographic by code point. *)
Fixpoint ltb (a b : string) : bool :=
  match a, b with
  | _, EmptyString => false
  | EmptyString, String _ _ => true
  | String x a', String y b' =>
      (nat_of_ascii x <? nat_of_ascii y)%nat
      || ((nat_of_ascii x =? nat_of_ascii y)%nat && ltb a' b')
  end.

End PyStr.

(** ** [posixpath] *)

Module PosixPath.
Import PyStr.

(** [os.path.join(a, b)] *)
Definition join (a b : string) : string :=
  if startswith "/" b then b
  else if String.eqb a EmptyString || endswith_slash a then (a ++ b)%string
  else (a ++ String slash b)%string.

(** One turn of the loop of [normpath] over the components. *)
Definition norm_step (initial_slashes : nat) (new_comps : list string)
    (comp : string) : list string :=
  if String.eqb comp "" || String.eqb comp "." then new_comps
  else if negb (String.eqb comp "..")
          || (Nat.eqb initial_slashes 0 && Nat.eqb (List.length new_comps) 0)
          || (negb (Nat.eqb (List.length new_comps) 0)
              && String.eqb (last new_comps "") "..")
  then new_comps ++ [comp]
  else removelast new_comps.

(** [os.path.normpath(path)] *)
Definition normpath (path : string) : string :=
  if String.eqb path "" then "."
  else
    let initial_slashes :=
      if startswith "/" path then
        if startswith "//" path && negb (startswith "///" path) then 2
        else 1
      else 0 in
    let comps := fold_left (norm_step initial_slashes) (split_slash path) [] in
    let path' := (slashes initial_slashes ++ join_slash comps)%string in
    if String.eqb path' "" then "." else path'.

(** [os.path.dirname(p)] *)
Definition dirname (p : string) : string :=
  let head := upto_last_slash p in
  if negb (String.eqb head "") && negb (all_slashes head)
  then rstrip_slash head else head.

(** [os.path.basename(p)] *)
Definition basename (p : string) : string := after_last_slash p.

End PosixPath.

(** ** The storage root and [safe_path] of [app.py] *)

Definition STORAGE_ROOT : string := "./decisions".

(** [head_path = os.path.join(STORAGE_ROOT, "HEAD")] *)
Definition head_path : string := PosixPath.join STORAGE_ROOT "HEAD".

(** [safe_path(sub)] *)
Definition safe_path (sub : string) : string :=
  PosixPath.normpath (PosixPath.join STORAGE_ROOT sub).

(** ** Python integers as text *)

Module PyInt.
Import PyStr.

Definition digit_of (c : ascii) : option Z :=
  let n := nat_of_ascii c in
  if ((48 <=? n) && (n <=? 57))%nat then Some (Z.of_nat (n - 48)) else None.

(** The digits of an integer literal: decimal digits, a single underscore
    allowed between two digits.  [after_digit] tells whether the character
    just read was a digit. *)
Fixpoint digits_value (s : string) (acc : Z) (after_digit : bool)
  : option Z :=
  match s with
  | EmptyString => if after_digit then Some acc else None
  | String c r =>
      match digit_of c with
      | Some d => digits_value r (10 * acc + d)%Z true
      | None =>
          if Ascii.eqb c "_" && after_digit then digits_value r acc false
          else None
      end
  end.

(** An optional sign and the digits. *)
Definition signed_value (t : string) : option Z :=
  match t with
  | String "-" r => option_map Z.opp (digits_value r 0 false)
  | String "+" r => digits_value r 0 false
  | t => digits_value t 0 false
  end.

(** [int(s)]: white space around the literal is skipped; [None] stands for
    [ValueError].  The interpreter also raises [ValueError] on a literal of
    more than [sys.int_max_str_digits] digits, 4300 unless configured
    otherwise; that cap is not part of this function: [head_fits] below
    states it where a statement depends on it. *)
Definition int_of_str (s : string) : option Z := signed_value (strip s).

(** [str(z)].  The interpreter raises [ValueError] on an integer of more
    than [sys.int_max_str_digits] digits; that cap is not part of this
    function: [int_fits] below states it where a statement depends on
    it. *)
Definition str (z : Z) : string := NilEmpty.string_of_int (Z.to_int z).

End PyInt.

(** ** The file-system state *)

#[local] Unset Elimination Schemes.

(** A regular file with its content, or a directory with its entries in the
    order in which the operating system enumerates them. *)
Inductive node : Type :=
| File (content : string)
| Dir (entries : list (string * node)).

#[local] Set Elimination Schemes.

(** Induction on a tree, with the hypothesis for every entry of a
    directory. *)
Fixpoint node_ind (P : node -> Prop)
    (HFile : forall c, P (File c))
    (HDir : forall es, Forall (fun e => P (snd e)) es -> P (Dir es))
    (n : node) {struct n} : P n :=
  match n with
  | File c => HFile c
  | Dir es =>
      HDir es
        ((fix entries_ind (l : list (string * node))
            : Forall (fun e => P (snd e)) l :=
            match l with
            | [] => Forall_nil _
            | e :: l' =>
                Forall_cons e
                  (match e as e0 return P (snd e0) with
                   | (_, m) => node_ind P HFile HDir m
                   end)
                  (entries_ind l')
            end) es)
  end.

(** The exceptions that can end a handler.  [OSError] stands for the
    operating-system errors that have no class of their own ([EINVAL],
    [EBUSY], [ENOTEMPTY]); [ShutilError] for [shutil.Error].
    [OutsideTree] is no exception of Python: it marks a call on a path that
    leaves the tree the state describes, an absolute path or one that
    climbs above the working directory.  The operating system resolves such
    a path and the handler goes on; what it does there is outside this
    model, and no statement below says what the code does on such a
    path. *)
Inductive exn : Type :=
| FileNotFoundError
| NotADirectoryError
| IsADirectoryError
| FileExistsError
| OSError
| ValueError
| ShutilError
| HTTP404
| OutsideTree
| RecursionError
| OverflowError.

Module FS.

Fixpoint assoc (k : string) (es : list (string * node)) : option node :=
  match es with
  | [] => None
  | (k', v) :: es' => if String.eqb k' k then Some v else assoc k es'
  end.

(** Replace the entry named [k] where it stands, or add it at the end. *)
Fixpoint set_entry (k : string) (v : node) (es : list (string * node))
  : list (string * node) :=
  match es with
  | [] => [(k, v)]
  | (k', v') :: es' =>
      if String.eqb k' k then (k, v) :: es'
      else (k', v') :: set_entry k v es'
  end.

Definition del_entry (k : string) (es : list (string * node))
  : list (string * node) :=
  filter (fun e => negb (String.eqb (fst e) k)) es.

Definition names (es : list (string * node)) : list string := map fst es.

(** Follow the components [p] down from [n], with the error the operating
    system reports where that fails. *)
Fixpoint walk (n : node) (p : list string) : exn + node :=
  match p with
  | [] => inr n
  | c :: p' =>
      match n with
      | File _ => inl NotADirectoryError
      | Dir es =>
          match assoc c es with
          | None => inl FileNotFoundError
          | Some m => walk m p'
          end
      end
  end.

Definition lookup (n : node) (p : list string) : option node :=
  match walk n p with
  | inr m => Some m
  | inl _ => None
  end.

Definition is_dir (o : option node) : bool :=
  match o with
  | Some (Dir _) => true
  | _ => false
  end.

(** Change the entry at the non-empty path [p]: [f] receives the entry now
    there, if any, and answers with the entry to leave there ([None] to
    remove it) or with an error.  The parent must be a directory. *)
Fixpoint update_at (n : node) (p : list string)
    (f : option node -> exn + option node) : exn + node :=
  match p with
  | [] => inl OSError
  | c :: rest =>
      match n with
      | File _ => inl NotADirectoryError
      | Dir es =>
          match rest with
          | [] =>
              match f (assoc c es) with
              | inl e => inl e
              | inr (Some v) => inr (Dir (set_entry c v es))
              | inr None => inr (Dir (del_entry c es))
              end
          | _ :: _ =>
              match assoc c es with
              | None => inl FileNotFoundError
              | Some m =>
                  match update_at m rest f with
                  | inl e => inl e
                  | inr m' => inr (Dir (set_entry c m' es))
                  end
              end
          end
      end
  end.

(** One component of a path, [acc] being the components so far, [None] once
    the path has left the tree. *)
Definition resolve_step (acc : option (list string)) (comp : string)
  : option (list string) :=
  match acc with
  | None => None
  | Some l =>
      if String.eqb comp "" || String.eqb comp "." then Some l
      else if String.eqb comp ".." then
             match l with
             | [] => None
             | _ :: _ => Some (removelast l)
             end
           else Some (l ++ [comp])
  end.

(** Turn a path string into the components below the working directory.
    The empty path names nothing ([ENOENT]); a path with a null character
    is refused by every call ([ValueError]).  [..] is resolved on the text:
    every path the program hands to the operating system is a normalised
    path or a normalised path extended by entry names, where [..] can only
    stand in front.  An absolute path and a path that climbs above the
    working directory name something the state does not hold; the answer
    is then [OutsideTree], and the statements on the handlers are about
    paths for which it is not. *)
Definition resolve (path : string) : exn + list string :=
  if String.eqb path "" then inl FileNotFoundError
  else if PyStr.has_nul path then inl ValueError
  else if PyStr.startswith "/" path then inl OutsideTree
  else match fold_left resolve_step (PyStr.split_slash path) (Some []) with
       | Some l => inr l
       | None => inl OutsideTree
       end.

(** *** Single system calls on resolved paths

    The operating system refuses a name of more than [NAME_MAX] bytes and
    a path of [PATH_MAX] bytes or more ([ENAMETOOLONG]); these calls take
    the components as they are, and [name_fits] and [text_fits] below
    state the bounds where a statement depends on them. *)

(** [mkdir] *)
Definition mkdir_at (n : node) (p : list string) : exn + node :=
  match p with
  | [] => inl FileExistsError
  | _ :: _ =>
      update_at n p (fun cur =>
        match cur with
        | Some _ => inl FileExistsError
        | None => inr (Some (Dir []))
        end)
  end.

(** [open(p, "w")], the write of the whole content, and [close]. *)
Definition write_at (n : node) (p : list string) (c : string) : exn + node :=
  match p with
  | [] => inl IsADirectoryError
  | _ :: _ =>
      update_at n p (fun cur =>
        match cur with
        | Some (Dir _) => inl IsADirectoryError
        | _ => inr (Some (File c))
        end)
  end.

(** [open(p, "rb").read()] *)
Definition read_at (n : node) (p : list string) : exn + string :=
  match walk n p with
  | inl e => inl e
  | inr (Dir _) => inl IsADirectoryError
  | inr (File c) => inr c
  end.

(** [os.remove] *)
Definition remove_at (n : node) (p : list string) : exn + node :=
  match p with
  | [] => inl IsADirectoryError
  | _ :: _ =>
      update_at n p (fun cur =>
        match cur with
        | None => inl FileNotFoundError
        | Some (Dir _) => inl IsADirectoryError
        | Some (File _) => inr None
        end)
  end.

(** [shutil.rmtree] of a directory other than the working directory: the
    entry goes with everything below it. *)
Definition rmtree_at (n : node) (p : list string) : exn + node :=
  update_at n p (fun cur =>
    match cur with
    | None => inl FileNotFoundError
    | Some (File _) => inl NotADirectoryError
    | Some (Dir _) => inr None
    end).

Fixpoint is_prefix (p q : list string) : bool :=
  match p, q with
  | [], _ => true
  | a :: p', b :: q' => String.eqb a b && is_prefix p' q'
  | _ :: _, [] => false
  end.

Definition same_path (p q : list string) : bool :=
  is_prefix p q && is_prefix q p.

(** [os.rename], as [rename(2)] orders its checks: both parents, the last
    components, the source, a target inside the source ([EINVAL]), a
    target that holds the source ([ENOTEMPTY]), then the kinds of source
    and target. *)
Definition rename_at (n : node) (src dst : list string) : exn + node :=
  match walk n (removelast src) with
  | inl e => inl e
  | inr (File _) => inl NotADirectoryError
  | inr (Dir _) =>
  match walk n (removelast dst) with
  | inl e => inl e
  | inr (File _) => inl NotADirectoryError
  | inr (Dir _) =>
  match src, dst with
  | [], _ | _, [] => inl OSError
  | _ :: _, _ :: _ =>
  match lookup n src with
  | None => inl FileNotFoundError
  | Some s =>
      if same_path src dst then inr n
      else if is_prefix src dst then inl OSError
      else if is_prefix dst src then inl OSError
      else
        match s, lookup n dst with
        | File _, Some (Dir _) => inl IsADirectoryError
        | Dir _, Some (File _) => inl NotADirectoryError
        | Dir _, Some (Dir (_ :: _)) => inl OSError
        | _, _ =>
            match update_at n src (fun _ => inr None) with
            | inl e => inl e
            | inr n1 => update_at n1 dst (fun _ => inr (Some s))
            end
        end
  end
  end
  end
  end.

End FS.

(** ** Handlers as state transformers that may raise *)

(** A computation takes the file-system state and gives the state it leaves
    with either a value or the exception it raised.  What was written before
    an exception stays written. *)
Definition M (A : Type) : Type := node -> node * (exn + A).

Definition ret {A} (a : A) : M A := fun fs => (fs, inr a).

Definition raise {A} (e : exn) : M A := fun fs => (fs, inl e).

Definition bind {A B} (m : M A) (k : A -> M B) : M B :=
  fun fs =>
    match m fs with
    | (fs', inr a) => k a fs'
    | (fs', inl e) => (fs', inl e)
    end.

Declare Scope py_scope.
Delimit Scope py_scope with py.
Notation "x <- m ;; k" := (bind m (fun x => k))
  (at level 61, m at next level, right associativity) : py_scope.
Notation "m ;; k" := (bind m (fun _ => k))
  (at level 61, right associativity) : py_scope.
Local Open Scope py_scope.

(** A system call that changes the state, or fails and leaves it. *)
Definition change (f : node -> exn + node) : M unit :=
  fun fs =>
    match f fs with
    | inr fs' => (fs', inr tt)
    | inl e => (fs, inl e)
    end.

(** A system call that only reads the state. *)
Definition query {A} (f : node -> exn + A) : M A := fun fs => (fs, f fs).

(** Run [k] on the components of [path]. *)
Definition with_path {A} (path : string) (k : list string -> M A) : M A :=
  match FS.resolve path with
  | inl e => raise e
  | inr p => k p
  end.

(** The classes [except OSError] catches. *)
Definition is_os_error (e : exn) : bool :=
  match e with
  | FileNotFoundError | NotADirectoryError | IsADirectoryError
  | FileExistsError | OSError => true
  | _ => false
  end.

Module Os.
Import FS.

(** A test on a path: [False] where the path names nothing or is refused
    ([os.path.exists] and [os.path.isdir] catch [OSError] and
    [ValueError]). *)
Definition path_test (t : option node -> bool) (path : string) : M bool :=
  match resolve path with
  | inl OutsideTree => raise OutsideTree
  | inl _ => ret false
  | inr p => fun fs => (fs, inr (t (lookup fs p)))
  end.

(** [os.path.exists] *)
Definition path_exists : string -> M bool :=
  path_test (fun o => match o with Some _ => true | None => false end).

(** [os.path.isdir] *)
Definition path_isdir : string -> M bool := path_test is_dir.

(** [os.makedirs] on the components, last one first as [os.path.split]
    takes them off:
<<
    head, tail = path.split(name)
    if head and tail and not path.exists(head):
        try: makedirs(head, exist_ok=exist_ok)
        except FileExistsError: pass
    try: mkdir(name, mode)
    except OSError:
        if not exist_ok or not path.isdir(name): raise
>>
    The interpreter ends a recursion of about a thousand calls with
    [RecursionError]; this function recurses as far as directories are
    missing, and [SAFE_DEPTH] below states the bound where a statement
    depends on it. *)
Fixpoint makedirs_rev (rname : list string) (exist_ok : bool) : M unit :=
  fun fs =>
    let name := rev rname in
    let after_head :=
      match rname with
      | [] => (fs, inr tt)
      | _ :: rhead =>
          match rhead, lookup fs (rev rhead) with
          | _ :: _, None =>
              match makedirs_rev rhead exist_ok fs with
              | (fs', inl FileExistsError) => (fs', inr tt)
              | r => r
              end
          | _, _ => (fs, inr tt)
          end
      end in
    match after_head with
    | (fs1, inl e) => (fs1, inl e)
    | (fs1, inr _) =>
        match mkdir_at fs1 name with
        | inr fs2 => (fs2, inr tt)
        | inl e =>
            if negb exist_ok || negb (is_dir (lookup fs1 name))
            then (fs1, inl e) else (fs1, inr tt)
        end
    end.

Definition makedirs (name : string) (exist_ok : bool) : M unit :=
  with_path name (fun p => makedirs_rev (rev p) exist_ok).

(** [with open(path, "w") as f: f.write(content)].  Text mode writes
    ["\n"] as [os.linesep], which is ["\n"] itself. *)
Definition write_text (path content : string) : M unit :=
  with_path path (fun p => change (fun fs => write_at fs p content)).

(** [with open(path) as f: f.read()].  Text mode turns line endings into
    ["\n"]. *)
Definition read_text (path : string) : M string :=
  with_path path (fun p =>
    query (fun fs =>
      match read_at fs p with
      | inl e => inl e
      | inr c => inr (PyStr.universal_newlines c)
      end)).

(** The bytes of a file, as [open(path, "rb")] gives them. *)
Definition read_bytes (path : string) : M string :=
  with_path path (fun p => query (fun fs => read_at fs p)).

Definition write_bytes (path content : string) : M unit :=
  with_path path (fun p => change (fun fs => write_at fs p content)).

(** [os.rename] *)
Definition rename (src dst : string) : M unit :=
  with_path src (fun s =>
    with_path dst (fun d => change (fun fs => rename_at fs s d))).

(** [os.remove] *)
Definition remove (path : string) : M unit :=
  with_path path (fun p => change (fun fs => remove_at fs p)).

(** [os.listdir] *)
Definition listdir (path : string) : M (list string) :=
  with_path path (fun p =>
    query (fun fs =>
      match walk fs p with
      | inl e => inl e
      | inr (File _) => inl NotADirectoryError
      | inr (Dir es) => inr (names es)
      end)).

End Os.

Module Shutil.
Import FS.

(** [shutil.rmtree].  On the working directory itself ([.]) everything
    below is removed and the closing [rmdir(".")] fails with [EINVAL].
    The tree goes at once, at whatever depth; the interpreter ends a
    recursion of about a thousand calls with [RecursionError], and
    [SAFE_DEPTH] below states the bound where a statement depends on
    it. *)
Definition rmtree (path : string) : M unit :=
  with_path path (fun p =>
    match p with
    | [] => fun fs =>
        match fs with
        | Dir _ => (Dir [], inl OSError)
        | File _ => (fs, inl NotADirectoryError)
        end
    | _ :: _ => change (fun fs => rmtree_at fs p)
    end).

(** [os.path.samefile], [False] where either path names nothing. *)
Definition samefile (a b : string) : M bool :=
  ea <- Os.path_exists a ;;
  eb <- Os.path_exists b ;;
  match resolve a, resolve b with
  | inr pa, inr pb => ret (ea && eb && same_path pa pb)
  | _, _ => ret false
  end.

(** [shutil.copy2]: the bytes of [src] go to [dst], or into [dst] under
    the name of [src] where [dst] is a directory. *)
Definition copy2 (src dst : string) : M unit :=
  d <- Os.path_isdir dst ;;
  let dst' := if d then PosixPath.join dst (PosixPath.basename src) else dst in
  same <- samefile src dst' ;;
  if same then raise ShutilError
  else
    c <- Os.read_bytes src ;;
    Os.write_bytes dst' c.

(** Run [m]; an operating-system error or a [shutil.Error] is noted and
    not raised. *)
Definition noting_errors (m : M unit) : M bool :=
  fun fs =>
    match m fs with
    | (fs', inr _) => (fs', inr false)
    | (fs', inl e) =>
        if is_os_error e || match e with ShutilError => true | _ => false end
        then (fs', inr true) else (fs', inl e)
    end.

(** The loop of [copytree] over the entries of the source, [copytree_rec]
    being [copytree] itself:
<<
    for srcentry in entries:
        try:
            if srcentry.is_dir(): copytree(srcobj, dstname)
            else: copy2(srcobj, dstname)
        except Error as err: errors.extend(err.args[0])
        except OSError as why: errors.append(...)
>>
    The answer tells whether [errors] has something in it. *)
Definition copy_entries (copytree_rec : node -> string -> string -> M unit)
    (src dst : string) : list (string * node) -> M bool :=
  fix each (l : list (string * node)) : M bool :=
    match l with
    | [] => ret false
    | (name, m) :: l' =>
        let srcname := PosixPath.join src name in
        let dstname := PosixPath.join dst name in
        e1 <- noting_errors
                match m with
                | Dir _ => copytree_rec m srcname dstname
                | File _ => copy2 srcname dstname
                end ;;
        e2 <- each l' ;;
        ret (e1 || e2)
    end.

(** [sys.getrecursionlimit()], which [app.py] leaves at its default. *)
Definition RECURSION_LIMIT : nat := 1000.

(** The number of directory levels [shutil.copytree] can go down at most.
    Each level takes two frames of the interpreter, one of [copytree] and
    one of [_copytree], so the 500th nested call cannot be made whatever
    else is on the stack.  The frames the server has in use when a handler
    runs lower the number further, by an amount the source does not fix:
    this is the most the code can do. *)
Definition COPYTREE_LEVELS : nat := RECURSION_LIMIT / 2 - 1.

(** [shutil.copytree] of the directory [n] found at [src], [room] being the
    number of levels the interpreter still allows:
<<
    os.makedirs(dst, exist_ok=False)
    for srcentry in entries: ...
    if errors: raise Error(errors)
>>
    The entries are those [os.scandir(src)] lists at the call; the
    destination of the one call in [app.py] is never inside its source.
    [RecursionError] is neither an [OSError] nor a [shutil.Error]: the loop
    of the caller does not note it, and it ends the whole copy. *)
Fixpoint copytree_node (room : nat) (n : node) (src dst : string) {struct n}
  : M unit :=
  match room with
  | O => raise RecursionError
  | S room' =>
      match n with
      | File _ => raise NotADirectoryError
      | Dir es =>
          Os.makedirs dst false ;;
          errors <- copy_entries (fun m s d => copytree_node room' m s d)
                      src dst es ;;
          if errors then raise ShutilError else ret tt
      end
  end.

Definition copytree (src dst : string) : M unit :=
  with_path src (fun p fs =>
    match walk fs p with
    | inl e => (fs, inl e)
    | inr n => copytree_node COPYTREE_LEVELS n src dst fs
    end).

End Shutil.

(** ** [app.py]: helpers *)

#[local] Unset Elimination Schemes.

(** What a JSON response carries. *)
Inductive json : Type :=
| JStr (s : string)
| JInt (z : Z)
| JList (l : list json)
| JObj (fields : list (string * json)).

#[local] Set Elimination Schemes.

(** Lines 13 to 18: the storage root, revision 0 and [HEAD] at start-up. *)
Definition startup : M unit :=
  Os.makedirs (STORAGE_ROOT ++ "/0")%string true ;;
  e <- Os.path_exists head_path ;;
  if negb e then Os.write_text head_path "0" else ret tt.

(** [int(s)] *)
Definition py_int (s : string) : M Z :=
  match PyInt.int_of_str s with
  | Some z => ret z
  | None => raise ValueError
  end.

Definition read_head : M Z :=
  c <- Os.read_text head_path ;;
  py_int (PyStr.strip c).

Definition write_head (n : Z) : M unit :=
  Os.write_text head_path (PyInt.str n).

Definition current_rev : M Z := read_head.

Definition bump_rev : M Z :=
  h <- current_rev ;;
  let n := (h + 1)%Z in
  Os.makedirs (PosixPath.join STORAGE_ROOT (PyInt.str n)) false ;;
  write_head n ;;
  ret n.

(** The integers of [range(n)]: none where [n] is not positive. *)
Definition py_range (n : Z) : list Z := map Z.of_nat (seq 0 (Z.to_nat n)).

(** [sys.maxsize], the largest length of a list. *)
Definition SSIZE_MAX : Z := 2 ^ 63 - 1.

(** [list(range(n))]: [OverflowError] where the range is longer than a
    list can be. *)
Definition py_list_range (n : Z) : M (list Z) :=
  if (SSIZE_MAX <? n)%Z then raise OverflowError else ret (py_range n).

(** ** [app.py]: the file service *)

(** A handler gives the body and the status, as in [return "", 201]. *)
Definition fs_save (path content : string) : M (string * Z) :=
  let target := safe_path path in
  Os.makedirs (PosixPath.dirname target) true ;;
  Os.write_text target content ;;
  ret ("", 201%Z).

Definition fs_read (path : string) : M (json * Z) :=
  let file_path := safe_path path in
  e <- Os.path_exists file_path ;;
  if negb e then raise HTTP404
  else
    content <- Os.read_text file_path ;;
    ret (JStr content, 200%Z).

Definition fs_write (path content : string) : M (string * Z) :=
  let target := safe_path path in
  Os.makedirs (PosixPath.dirname target) true ;;
  Os.write_text target content ;;
  ret ("", 201%Z).

Definition fs_rename (from to : string) : M (string * Z) :=
  let src := safe_path from in
  let dst := safe_path to in
  Os.makedirs (PosixPath.dirname dst) true ;;
  Os.rename src dst ;;
  ret ("", 204%Z).

Definition fs_delete (path : string) : M (string * Z) :=
  let target := safe_path path in
  d <- Os.path_isdir target ;;
  (if d then Shutil.rmtree target else Os.remove target) ;;
  ret ("", 204%Z).

(** The loop of [fs_snapshot] over the names of the source directory. *)
Fixpoint snapshot_items (src dst : string) (names : list string) : M unit :=
  match names with
  | [] => ret tt
  | name :: names' =>
      let src_item := PosixPath.join src name in
      let dst_item := PosixPath.join dst name in
      d <- Os.path_isdir src_item ;;
      (if d then Shutil.copytree src_item dst_item
       else Shutil.copy2 src_item dst_item) ;;
      snapshot_items src dst names'
  end.

Definition fs_snapshot : M json :=
  h <- current_rev ;;
  let src := safe_path (PyInt.str h) in
  new_rev <- bump_rev ;;
  let dst := safe_path (PyInt.str new_rev) in
  Os.makedirs dst true ;;
  names <- Os.listdir src ;;
  snapshot_items src dst names ;;
  ret (JObj [("id", JInt new_rev)]).

(** ** [app.py]: revision control *)

Definition rev_list : M json :=
  head <- current_rev ;;
  l <- py_list_range (head + 1) ;;
  ret (JObj [("latest", JInt head); ("list", JList (map JInt l))]).

(** [send_file] opens the file and answers with its bytes.  It looks for a
    relative path in the directory of [app.py], which is taken to be the
    working directory the other calls start from. *)
Definition rev_file (rev : Z) (path : string) : M string :=
  let file_path := safe_path (PyInt.str rev ++ "/" ++ path)%string in
  e <- Os.path_exists file_path ;;
  if negb e then raise HTTP404 else Os.read_bytes file_path.

(** ** [app.py]: directory listings *)

Section Listing.

(** Modification times come from the operating system: [st_mtime path] is
    what [stat(path).st_mtime] answers. *)
Variable Time : Type.
Variable st_mtime : string -> Time.

#[local] Unset Elimination Schemes.

(** The dictionary [build_tree] makes for one entry; [children] is there
    for directories only. *)
Inductive ApiNode : Type :=
  mkApiNode {
    name : string;
    path : string;
    isDirectory : bool;
    modified : Time;
    size : option Z;
    children : option (list ApiNode)
  }.

#[local] Set Elimination Schemes.

(** The sort key [(not n["isDirectory"], n["name"].lower())]. *)
Definition sort_key (n : ApiNode) : bool * string :=
  (negb (isDirectory n), PyStr.lower (name n)).

(** [a < b] on such tuples: [False < True], then the strings. *)
Definition key_ltb (a b : bool * string) : bool :=
  (negb (fst a) && fst b)
  || (Bool.eqb (fst a) (fst b) && PyStr.ltb (snd a) (snd b)).

(** [nodes.sort(key=...)]: the sort of Python is stable, an element goes
    in front of the first one whose key is not smaller. *)
Fixpoint insert_node (x : ApiNode) (l : list ApiNode) : list ApiNode :=
  match l with
  | [] => [x]
  | y :: l' =>
      if key_ltb (sort_key y) (sort_key x) then y :: insert_node x l'
      else x :: l
  end.

Definition sort_nodes (l : list ApiNode) : list ApiNode :=
  fold_right insert_node [] l.

(** The body of [build_tree] on the directory [os.scandir(root_path)]
    opens.  The recursive call scans [entry.path], which is the child.
    There are no permission bits in the state, so [PermissionError] is
    never raised. *)
Fixpoint build_dir (d : node) (root_path rel_path : string) {struct d}
  : list ApiNode :=
  match d with
  | File _ => []
  | Dir es =>
      sort_nodes
        ((fix each (l : list (string * node)) : list ApiNode :=
            match l with
            | [] => []
            | (entry_name, m) :: l' =>
                let node_path := PosixPath.join rel_path entry_name in
                let full_path := PosixPath.join root_path entry_name in
                mkApiNode entry_name node_path
                  (match m with Dir _ => true | File _ => false end)
                  (st_mtime full_path)
                  (match m with
                   | File c => Some (PyStr.utf8_len c)
                   | Dir _ => None
                   end)
                  (match m with
                   | Dir _ => Some (build_dir m full_path node_path)
                   | File _ => None
                   end)
                :: each l'
            end) es)
  end.

Definition build_nodes (es : list (string * node))
    (root_path rel_path : string) : list ApiNode :=
  build_dir (Dir es) root_path rel_path.

Definition build_tree (root_path rel_path : string) : M (list ApiNode) :=
  with_path root_path (fun p =>
    query (fun fs =>
      match FS.walk fs p with
      | inl e => inl e
      | inr (File _) => inl NotADirectoryError
      | inr (Dir es) => inr (build_nodes es root_path rel_path)
      end)).

(** [jsonify(tree)] is left as the list of nodes. *)
Definition fs_list (sub : string) : M (list ApiNode) :=
  let root := safe_path sub in
  e <- Os.path_exists root ;;
  if negb e then raise HTTP404 else build_tree root sub.

(** [a] may stand before [b] in a listing: a directory is never after a
    file, and of two entries of the same kind the later one is not smaller
    by its lower-case name. *)
Definition ordered_pair (a b : ApiNode) : Prop :=
  (isDirectory b = true -> isDirectory a = true)
  /\ (isDirectory a = isDirectory b ->
      PyStr.ltb (PyStr.lower (name b)) (PyStr.lower (name a)) = false).

(** The lists of siblings below a node, at every depth. *)
Fixpoint levels_of (n : ApiNode) : list (list ApiNode) :=
  match n with
  | mkApiNode _ _ _ _ _ (Some cs) =>
      cs :: (fix below (l : list ApiNode) : list (list ApiNode) :=
               match l with
               | [] => []
               | c :: l' => levels_of c ++ below l'
               end) cs
  | mkApiNode _ _ _ _ _ None => []
  end.

(** A listing and all the lists of children in it. *)
Definition all_levels (l : list ApiNode) : list (list ApiNode) :=
  l :: flat_map levels_of l.

(** The dictionary [build_tree] makes of the entry [nm] holding [m]. *)
Definition entry_node (root_path rel_path : string) (nm : string) (m : node)
  : ApiNode :=
  let node_path := PosixPath.join rel_path nm in
  let full_path := PosixPath.join root_path nm in
  mkApiNode nm node_path
    (match m with Dir _ => true | File _ => false end)
    (st_mtime full_path)
    (match m with File c => Some (PyStr.utf8_len c) | Dir _ => None end)
    (match m with
     | Dir _ => Some (build_dir m full_path node_path)
     | File _ => None
     end).

End Listing.

Arguments mkApiNode {Time}.
Arguments name {Time}.
Arguments path {Time}.
Arguments isDirectory {Time}.
Arguments modified {Time}.
Arguments size {Time}.
Arguments children {Time}.
Arguments sort_key {Time}.
Arguments insert_node {Time}.
Arguments sort_nodes {Time}.
Arguments build_dir {Time}.
Arguments build_nodes {Time}.
Arguments build_tree {Time}.
Arguments fs_list {Time}.
Arguments ordered_pair {Time}.
Arguments levels_of {Time}.
Arguments all_levels {Time}.
Arguments entry_node {Time}.

(** * Vocabulary of the properties *)

Section Vocabulary.
Import PyStr PyInt FS.

(** Every character of [s] passes the test [t]. *)
Fixpoint all_chars (t : ascii -> bool) (s : string) : bool :=
  match s with
  | EmptyString => true
  | String c r => t c && all_chars t r
  end.

(** A name an entry of a directory can bear: not empty, no [/], neither
    [.] nor [..], no null character. *)
Definition valid_name (s : string) : bool :=
  negb (String.eqb s "") && negb (PyStr.has_slash s)
  && negb (String.eqb s ".") && negb (String.eqb s "..")
  && negb (PyStr.has_nul s).

(** A decimal digit or the minus sign. *)
Definition numeric_char (c : ascii) : bool :=
  match digit_of c with
  | Some _ => true
  | None => Ascii.eqb c "-"
  end.

(** The value of the digits [d] read after the digits that gave [acc]. *)
Fixpoint uint_val (d : Decimal.uint) (acc : Z) : Z :=
  match d with
  | Decimal.Nil => acc
  | Decimal.D0 l => uint_val l (10 * acc + 0)
  | Decimal.D1 l => uint_val l (10 * acc + 1)
  | Decimal.D2 l => uint_val l (10 * acc + 2)
  | Decimal.D3 l => uint_val l (10 * acc + 3)
  | Decimal.D4 l => uint_val l (10 * acc + 4)
  | Decimal.D5 l => uint_val l (10 * acc + 5)
  | Decimal.D6 l => uint_val l (10 * acc + 6)
  | Decimal.D7 l => uint_val l (10 * acc + 7)
  | Decimal.D8 l => uint_val l (10 * acc + 8)
  | Decimal.D9 l => uint_val l (10 * acc + 9)
  end%Z.

(** The tree [n] with the subtree at [p] set to [v]: the entry is replaced
    where it stands or added at the end of its directory.  Nothing changes
    where the parent of [p] is not a directory. *)
Fixpoint put (n : node) (p : list string) (v : node) : node :=
  match p with
  | [] => v
  | c :: rest =>
      match n with
      | File _ => n
      | Dir es =>
          match rest with
          | [] => Dir (set_entry c v es)
          | _ :: _ =>
              match assoc c es with
              | Some m => Dir (set_entry c (put m rest v) es)
              | None => n
              end
          end
      end
  end.

(** The two paths part at some component. *)
Fixpoint diverge (p q : list string) : bool :=
  match p, q with
  | a :: p', b :: q' => if String.eqb a b then diverge p' q' else true
  | _, _ => false
  end.

(** The parent of [p] is a directory of [n]. *)
Definition parent_is_dir (n : node) (p : list string) : bool :=
  is_dir (lookup n (removelast p)).

(** The components of the storage root below the working directory. *)
Definition root_components : list string := ["decisions"].

(** [path], a relative path, names the storage root or something below
    it.  Whether an absolute path leads into the storage root depends on
    where the working directory is, which the state does not tell: the
    answer is [false] for it, and nothing is stated from that. *)
Definition within_root (path : string) : bool :=
  match FS.resolve path with
  | inr p => FS.is_prefix root_components p
  | inl _ => false
  end.

(** The store as [startup] leaves it in an empty working directory. *)
Definition fresh_store : node :=
  Dir [("decisions", Dir [("0", Dir []); ("HEAD", File "0")])].

(** The text ["x\r\ny"]. *)
Definition crlf_text : string :=
  String "x" (String PyStr.CR (String PyStr.LF "y")).

(** The components of [head_path] and of a revision directory. *)
Definition head_components : list string := ["decisions"; "HEAD"].

Definition rev_components (n : Z) : list string := ["decisions"; PyInt.str n].

(** The integer [read_head] makes of the text [c] of the [HEAD] file: the
    text is read in text mode, stripped and handed to [int]. *)
Definition parse_head (c : string) : option Z :=
  PyInt.int_of_str (PyStr.strip (PyStr.universal_newlines c)).

(** [b] is [a] with some white space replaced by other white space and some
    white space next to white space left out. *)
Inductive same_but_space : string -> string -> Prop :=
| sbs_nil : same_but_space "" ""
| sbs_same c a b :
    same_but_space a b -> same_but_space (String c a) (String c b)
| sbs_space w w' a b :
    isspace w = true -> isspace w' = true ->
    same_but_space a b -> same_but_space (String w a) (String w' b)
| sbs_drop w1 w2 w' a b :
    isspace w1 = true -> isspace w2 = true -> isspace w' = true ->
    same_but_space a b ->
    same_but_space (String w1 (String w2 a)) (String w' b).

(** The [HEAD] file is there and holds the integer [h]. *)
Definition head_is (fs : node) (h : Z) : Prop :=
  exists c, FS.lookup fs head_components = Some (File c)
            /\ parse_head c = Some h.

(** A well-formed store with head [h]: [HEAD] holds [h], which is not
    negative; the revisions [0] to [h] are directories of the storage root,
    and nothing there bears the number of a later revision. *)
Definition wf_store (fs : node) (h : Z) : Prop :=
  (0 <= h)%Z
  /\ head_is fs h
  /\ (forall n, (0 <= n <= h)%Z ->
                FS.is_dir (FS.lookup fs (rev_components n)) = true)
  /\ (forall n, (h < n)%Z -> FS.lookup fs (rev_components n) = None).

(** [k] calls of [bump_rev] in a row, with the numbers they return. *)
Fixpoint allocations (k : nat) : M (list Z) :=
  match k with
  | O => ret []
  | S k' =>
      n <- bump_rev ;;
      rest <- allocations k' ;;
      ret (n :: rest)
  end.

(** The state [bump_rev] leaves when it returns [n]. *)
Definition allocated (fs : node) (n : Z) : node :=
  put (put fs (rev_components n) (Dir [])) head_components
      (File (PyInt.str n)).

(** No string occurs twice in [l]. *)
Fixpoint nodupb (l : list string) : bool :=
  match l with
  | [] => true
  | x :: l' => negb (existsb (String.eqb x) l') && nodupb l'
  end.

(** A tree as a file system holds it: in every directory the names are valid
    and no two entries bear the same name. *)
Fixpoint wf_node (n : node) : bool :=
  match n with
  | File _ => true
  | Dir es =>
      nodupb (FS.names es)
      && (fix each (l : list (string * node)) : bool :=
            match l with
            | [] => true
            | (k, m) :: l' => valid_name k && wf_node m && each l'
            end) es
  end.

(** The setting of one step of a copy: the source directory at [sc] holds
    [m] under [k], the destination directory at [dc] holds [done], which
    has no [k]. *)
Record copy_step (st : node) (src dst : string) (sc dc : list string)
    (all done : list (string * node)) (k : string) (m : node) : Prop := {
  cs_src : resolve src = inr sc;
  cs_src_tidy : endswith_slash src = false;
  cs_dst : resolve dst = inr dc;
  cs_dst_tidy : endswith_slash dst = false;
  cs_apart : diverge sc dc = true;
  cs_source : lookup st sc = Some (Dir all);
  cs_entry : assoc k all = Some m;
  cs_name : valid_name k = true;
  cs_done : lookup st dc = Some (Dir done);
  cs_fresh : assoc k done = None
}.

(** What [copytree] is to do for the directory [n]. *)
Definition copies_tree (rec : node -> string -> string -> M unit)
    (n : node) : Prop :=
  forall st src dst sc dc,
    resolve src = inr sc -> endswith_slash src = false ->
    resolve dst = inr dc -> endswith_slash dst = false ->
    diverge sc dc = true ->
    is_dir (Some n) = true -> wf_node n = true ->
    lookup st sc = Some n ->
    lookup st dc = None -> dc <> [] -> parent_is_dir st dc = true ->
    rec n src dst st = (put st dc n, inr tt).

(** A store whose working revision holds a file and a directory. *)
Definition sample_store : node :=
  Dir [("decisions",
        Dir [("0", Dir [("notes.txt", File crlf_text);
                        ("a", Dir [("b.txt", File "hello")])]);
             ("HEAD", File "0")])].

(** A store whose working revision holds the regular file [f]. *)
Definition file_store : node :=
  Dir [("decisions", Dir [("0", Dir [("f", File "x")]); ("HEAD", File "0")])].

(** The sort key of the node [build_tree] makes of an entry. *)
Definition entry_key (e : string * node) : bool * string :=
  (match snd e with Dir _ => false | File _ => true end, PyStr.lower (fst e)).

(** [a == b] on sort keys. *)
Definition key_eqb (a b : bool * string) : bool :=
  Bool.eqb (fst a) (fst b) && String.eqb (snd a) (snd b).

(** No sort key occurs twice in [l]. *)
Fixpoint distinctb (l : list (bool * string)) : bool :=
  match l with
  | [] => true
  | x :: l' => negb (existsb (key_eqb x) l') && distinctb l'
  end.

(** In every directory of the tree no two entries have the same sort key:
    no two directories and no two files there have names that differ by
    case only. *)
Fixpoint distinct_keys (n : node) : bool :=
  match n with
  | File _ => true
  | Dir es =>
      distinctb (map entry_key es)
      && (fix each (l : list (string * node)) : bool :=
            match l with
            | [] => true
            | (_, m) :: l' => distinct_keys m && each l'
            end) es
  end.

(** Two trees that hold the same entries, directory by directory, the
    operating system enumerating them in whatever order. *)
Inductive same_entries : node -> node -> Prop :=
| same_file c : same_entries (File c) (File c)
| same_dir es1 es es2 :
    Permutation es1 es -> same_list es es2 ->
    same_entries (Dir es1) (Dir es2)
with same_list : list (string * node) -> list (string * node) -> Prop :=
| same_nil : same_list [] []
| same_cons k m1 m2 l1 l2 :
    same_entries m1 m2 -> same_list l1 l2 ->
    same_list ((k, m1) :: l1) ((k, m2) :: l2).

Scheme same_entries_mind := Minimality for same_entries Sort Prop
  with same_list_mind := Minimality for same_list Sort Prop.

(** The tree [n] with a directory at [p]: the directories along [p] that
    are missing are made, each added at the end of its parent; what is
    there stays. *)
Fixpoint ensure (n : node) (p : list string) : node :=
  match p with
  | [] => n
  | c :: rest =>
      match n with
      | File _ => n
      | Dir es =>
          match assoc c es with
          | Some m => Dir (set_entry c (ensure m rest) es)
          | None => Dir (set_entry c (ensure (Dir []) rest) es)
          end
      end
  end.

(** Whatever is there along [p], [n] and the end included, is a
    directory. *)
Fixpoint dirs_along (n : node) (p : list string) : bool :=
  match p with
  | [] => is_dir (Some n)
  | c :: rest =>
      match n with
      | File _ => false
      | Dir es =>
          match assoc c es with
          | Some m => dirs_along m rest
          | None => true
          end
      end
  end.

(** The components of [s] that name something: neither empty nor [.]. *)
Definition real_names (s : string) : list string :=
  filter (fun c => negb (String.eqb c "" || String.eqb c "."))
         (split_slash s).

(** [..] is no component of [s]. *)
Definition no_dotdot (s : string) : bool :=
  forallb (fun c => negb (String.eqb c "..")) (split_slash s).

(** [k] calls of [fs_snapshot] in a row, with what they answer. *)
Fixpoint snapshots (k : nat) : M (list json) :=
  match k with
  | O => ret []
  | S k' =>
      r <- fs_snapshot ;;
      rest <- snapshots k' ;;
      ret (r :: rest)
  end.

(** *** Limits of the operating system and of the interpreter

    The state transformers above have no bound on the length of a name or
    of a path, on the digits of an integer, or on the depth to which
    [os.makedirs] and [shutil.rmtree] recurse.  A statement that depends
    on such a bound states it as a hypothesis, in the terms below. *)

(** [NAME_MAX]: the bytes a name in a directory can have. *)
Definition NAME_MAX : Z := 255.

(** [PATH_MAX]: the bytes of a path handed to the operating system, the
    closing null included. *)
Definition PATH_MAX : Z := 4096.

(** A name the file system takes. *)
Definition name_fits (s : string) : bool := (utf8_len s <=? NAME_MAX)%Z.

(** A path text the operating system takes. *)
Definition text_fits (s : string) : bool := (utf8_len s <? PATH_MAX)%Z.

(** [sys.int_max_str_digits], 4300 by default: [str] and [int] refuse an
    integer with more decimal digits. *)
Definition INT_MAX_STR_DIGITS : Z := 4300.

Definition int_fits (n : Z) : bool :=
  (Z.of_nat (String.length (PyInt.str (Z.abs n))) <=? INT_MAX_STR_DIGITS)%Z.

(** The text of [HEAD], where there is one, is short enough for [int]. *)
Definition head_fits (fs : node) : bool :=
  match lookup fs head_components with
  | Some (File c) => (Z.of_nat (String.length c) <=? INT_MAX_STR_DIGITS)%Z
  | _ => true
  end.

(** A depth of nesting that leaves the recursion of [shutil.copytree],
    [shutil.rmtree] and [os.makedirs] two hundred frames of the
    interpreter's limit for the server and the handler. *)
Definition SAFE_DEPTH : nat := 400.

(** The number of directories nested in [n], [n] included. *)
Fixpoint node_depth (n : node) : nat :=
  match n with
  | File _ => 0
  | Dir es =>
      S ((fix deepest (l : list (string * node)) : nat :=
            match l with
            | [] => 0
            | (_, m) :: l' => Nat.max (node_depth m) (deepest l')
            end) es)
  end.

(** The bytes of the longest path that leads from [n] to something below
    it, with a slash after every directory on the way. *)
Fixpoint longest_path (n : node) : Z :=
  match n with
  | File _ => 0
  | Dir es =>
      (fix longest (l : list (string * node)) : Z :=
         match l with
         | [] => 0
         | (k, m) :: l' =>
             Z.max (utf8_len k
                    + match m with
                      | Dir _ => 1 + longest_path m
                      | File _ => 0
                      end)
                   (longest l')
         end) es
  end%Z.

(** Depth and longest path of what is at [p], [0] where nothing is. *)
Definition depth_at (fs : node) (p : list string) : nat :=
  match lookup fs p with
  | Some n => node_depth n
  | None => 0
  end.

Definition longest_at (fs : node) (p : list string) : Z :=
  match lookup fs p with
  | Some n => longest_path n
  | None => 0
  end.

(** [k] directories named [d], one in the other, around [leaf]. *)
Fixpoint chain (k : nat) (leaf : node) : node :=
  match k with
  | O => leaf
  | S k' => Dir [("d", chain k' leaf)]
  end.

(** A store whose working revision holds the file [f] below [k] nested
    directories, as one [fs_write] makes it. *)
Definition deep_store (k : nat) : node :=
  Dir [("decisions",
        Dir [("0", chain k (Dir [("f", File "x")])); ("HEAD", File "0")])].

(** The path of that file in the revision [n]. *)
Definition deep_file (k : nat) (n : Z) : list string :=
  rev_components n ++ repeat "d" k ++ ["f"].

(** Letters without regard to case, in the words of the specification:
    every capital letter of U+0000..U+00FF with its small letter. *)
Definition letter_pairs : list (ascii * ascii) :=
  combine (list_ascii_of_string "ABCDEFGHIJKLMNOPQRSTUVWXYZ")
          (list_ascii_of_string "abcdefghijklmnopqrstuvwxyz")
  ++ map (fun n => (ascii_of_nat n, ascii_of_nat (n + 32)))
         (seq 192 23 ++ seq 216 7).

Definition small_letter (c : ascii) : ascii :=
  match find (fun p => Ascii.eqb (fst p) c) letter_pairs with
  | Some p => snd p
  | None => c
  end.

Fixpoint small_letters (s : string) : string :=
  match s with
  | EmptyString => EmptyString
  | String c r => String (small_letter c) (small_letters r)
  end.

(** [a] comes before [b] in the alphabet, case set aside. *)
Definition caseless_ltb (a b : string) : bool :=
  PyStr.ltb (small_letters a) (small_letters b).

(** The order of the specification: directories before files and, among
    the directories and among the files, case-insensitive alphabetical by
    name.  [a] may stand before [b]. *)
Definition in_listing_order {Time : Type} (a b : ApiNode Time) : Prop :=
  (isDirectory b = true -> isDirectory a = true)
  /\ (isDirectory a = isDirectory b ->
      caseless_ltb (name b) (name a) = false).

(** Two storage roots that hold the same two files, enumerated one way and
    the other. *)
Definition capital_first_store : node :=
  Dir [("decisions", Dir [("A", File ""); ("a", File "")])].

Definition capital_last_store : node :=
  Dir [("decisions", Dir [("a", File ""); ("A", File "")])].

(** A directory where the order by lower-case name is not the order by
    name. *)
Definition mixed_case_store : node :=
  Dir [("decisions",
        Dir [("b.txt", File "x");
             ("Zed", Dir [("q", File "z"); ("P", File "")]);
             ("C.txt", File "yy"); ("a.txt", File "z");
             ("apple", Dir [])])].

End Vocabulary.

(** * Checks of the model on examples *)

Example safe_path_plain : safe_path "a/b.txt" = "decisions/a/b.txt".
Proof. reflexivity. Qed.
Example safe_path_empty : safe_path "" = "decisions".
Proof. reflexivity. Qed.
Example safe_path_up1 : safe_path "../x" = "x".
Proof. reflexivity. Qed.
Example safe_path_up2 : safe_path "../../etc/passwd" = "../etc/passwd".
Proof. reflexivity. Qed.
Example safe_path_abs : safe_path "/etc/passwd" = "/etc/passwd".
Proof. reflexivity. Qed.
Example safe_path_inner : safe_path "a/./b//../c/" = "decisions/a/c".
Proof. reflexivity. Qed.
Example dirname_ex1 : PosixPath.dirname "decisions/a/b.txt" = "decisions/a".
Proof. reflexivity. Qed.
Example dirname_ex2 : PosixPath.dirname "decisions" = "".
Proof. reflexivity. Qed.
Example dirname_ex3 : PosixPath.dirname "/x" = "/".
Proof. reflexivity. Qed.
Example dirname_ex4 : PosixPath.dirname "a//b" = "a".
Proof. reflexivity. Qed.
Example newlines_ex :
  PyStr.universal_newlines
    (String "a" (String PyStr.CR (String PyStr.LF (String "b" (String PyStr.CR "c")))))
  = String "a" (String PyStr.LF (String "b" (String PyStr.LF "c"))).
Proof. reflexivity. Qed.
Example int_of_str_ex1 : PyInt.int_of_str " 42 " = Some 42%Z.
Proof. reflexivity. Qed.
Example int_of_str_ex2 : PyInt.int_of_str "-007" = Some (-7)%Z.
Proof. reflexivity. Qed.
Example int_of_str_ex3 : PyInt.int_of_str "1_000" = Some 1000%Z.
Proof. reflexivity. Qed.
Example int_of_str_ex4 : PyInt.int_of_str "1__0" = None.
Proof. reflexivity. Qed.
Example int_of_str_ex5 : PyInt.int_of_str "" = None.
Proof. reflexivity. Qed.
Example int_of_str_ex6 : PyInt.int_of_str "+ 1" = None.
Proof. reflexivity. Qed.
Example str_ex1 : PyInt.str 0 = "0".
Proof. reflexivity. Qed.
Example str_ex2 : PyInt.str (-120) = "-120".
Proof. reflexivity. Qed.

(** * Properties *)

(** ** Text and paths *)

Module PyStrFacts.
Import PyStr.

Lemma all_chars_weaken (t u : ascii -> bool) s :
  (forall c, t c = true -> u c = true) ->
  all_chars t s = true -> all_chars u s = true.
Proof.
  intros Htu. induction s as [|c r IH]; simpl; auto.
  rewrite andb_true_iff. intros [Hc Hr]. now rewrite (Htu _ Hc), IH.
Qed.

Lemma all_chars_app t a b :
  all_chars t (a ++ b) = all_chars t a && all_chars t b.
Proof.
  induction a as [|c r IH]; simpl; auto. now rewrite IH, andb_assoc.
Qed.

Lemma has_slash_all_chars s :
  has_slash s = negb (all_chars (fun c => negb (is_slash c)) s).
Proof.
  induction s as [|c r IH]; simpl; auto.
  rewrite IH. now destruct (is_slash c), (all_chars _ r).
Qed.

Lemma split_slash_nonempty s : split_slash s <> [].
Proof.
  destruct s as [|c r]; simpl; [discriminate|].
  destruct (is_slash c); [discriminate|].
  destruct (split_slash r); discriminate.
Qed.

Lemma split_slash_no_slash s :
  has_slash s = false -> split_slash s = [s].
Proof.
  induction s as [|c r IH]; simpl; auto.
  destruct (is_slash c); simpl; [discriminate|].
  intros H. now rewrite (IH H).
Qed.

Lemma split_slash_app a b :
  split_slash (a ++ String slash b) = split_slash a ++ split_slash b.
Proof.
  induction a as [|c r IH]; simpl.
  - reflexivity.
  - destruct (is_slash c); simpl.
    + now rewrite IH.
    + rewrite IH. destruct (split_slash r) eqn:E; simpl.
      * now destruct (split_slash_nonempty r).
      * reflexivity.
Qed.

Lemma startswith_slash_app a b :
  a <> "" -> startswith "/" (a ++ b) = startswith "/" a.
Proof. destruct a; simpl; [congruence | reflexivity]. Qed.

Lemma endswith_slash_app_name a b :
  b <> "" -> has_slash b = false -> endswith_slash (a ++ b) = false.
Proof.
  intros Hb Hs. induction a as [|c r IH]; simpl.
  - clear Hb. induction b as [|d b' IHb]; simpl in *; auto.
    apply orb_false_iff in Hs as [Hd Hb'].
    destruct b'; auto.
  - destruct (r ++ b)%string eqn:E; auto.
    destruct r; simpl in E; [subst b; congruence | discriminate].
Qed.

Lemma has_nul_app a b : has_nul (a ++ b) = has_nul a || has_nul b.
Proof.
  induction a as [|c r IH]; cbn [append has_nul]; auto.
  now rewrite IH, orb_assoc.
Qed.

Lemma has_nul_all_chars s :
  has_nul s = negb (all_chars (fun c => negb (Ascii.eqb c Ascii.zero)) s).
Proof.
  induction s as [|c r IH]; cbn [has_nul all_chars]; auto.
  rewrite IH. now destruct (Ascii.eqb c Ascii.zero), (all_chars _ r).
Qed.

Lemma universal_newlines_no_cr s :
  has_cr s = false -> universal_newlines s = s.
Proof.
  induction s as [|c r IH]; simpl; auto.
  intros H. apply orb_false_iff in H as [Hc Hr].
  rewrite Hc. now rewrite (IH Hr).
Qed.

Lemma has_cr_all_chars s :
  has_cr s = negb (all_chars (fun c => negb (Ascii.eqb c CR)) s).
Proof.
  induction s as [|c r IH]; simpl; auto.
  rewrite IH. now destruct (Ascii.eqb c CR), (all_chars _ r).
Qed.

Lemma lstrip_no_space s :
  all_chars (fun c => negb (isspace c)) s = true -> lstrip s = s.
Proof.
  destruct s as [|c r]; simpl; auto.
  intros H. apply andb_true_iff in H as [Hc _].
  apply negb_true_iff in Hc. now rewrite Hc.
Qed.

Lemma rstrip_no_space s :
  all_chars (fun c => negb (isspace c)) s = true -> rstrip s = s.
Proof.
  induction s as [|c r IH]; simpl; auto.
  intros H. apply andb_true_iff in H as [Hc Hr].
  apply negb_true_iff in Hc. now rewrite Hc, (IH Hr).
Qed.

Lemma strip_no_space s :
  all_chars (fun c => negb (isspace c)) s = true -> strip s = s.
Proof.
  intros H. unfold strip. now rewrite (lstrip_no_space _ H), rstrip_no_space.
Qed.

End PyStrFacts.

Module PathFacts.
Import PyStr PyStrFacts PosixPath.

Lemma valid_name_inv s :
  valid_name s = true ->
  s <> "" /\ has_slash s = false /\ s <> "." /\ s <> "..".
Proof.
  unfold valid_name. rewrite !andb_true_iff, !negb_true_iff.
  intros [[[[H1 H2] H3] H4] _].
  repeat split; auto; intros ->; discriminate.
Qed.

Lemma valid_name_no_nul s : valid_name s = true -> has_nul s = false.
Proof.
  unfold valid_name. rewrite !andb_true_iff, !negb_true_iff. tauto.
Qed.

Lemma valid_name_not_abs s :
  valid_name s = true -> startswith "/" s = false.
Proof.
  intros H. apply valid_name_inv in H as (H1 & H2 & _).
  destruct s as [|c r]; [congruence|]. cbn [has_slash startswith] in *.
  apply orb_false_iff in H2 as [Hc _]. unfold is_slash, slash in Hc.
  rewrite Ascii.eqb_sym, Hc. reflexivity.
Qed.

(** Joining the storage root with a name. *)
Lemma join_root_name s :
  valid_name s = true ->
  join STORAGE_ROOT s = ("./decisions/" ++ s)%string.
Proof.
  intros H. unfold join. now rewrite (valid_name_not_abs _ H).
Qed.

Lemma norm_step_name i l s :
  s <> "" -> s <> "." -> s <> ".." -> norm_step i l s = l ++ [s].
Proof.
  intros H1 H2 H3. unfold norm_step.
  rewrite (proj2 (String.eqb_neq s "") H1).
  rewrite (proj2 (String.eqb_neq s ".") H2).
  rewrite (proj2 (String.eqb_neq s "..") H3).
  reflexivity.
Qed.

(** [safe_path] of a plain name is the entry of that name in the root. *)
Lemma safe_path_name s :
  valid_name s = true -> safe_path s = ("decisions/" ++ s)%string.
Proof.
  intros H. unfold safe_path. rewrite (join_root_name _ H).
  pose proof (valid_name_inv _ H) as (H1 & H2 & H3 & H4).
  unfold normpath.
  change ("./decisions/" ++ s)%string
    with ("./decisions" ++ String slash s)%string.
  rewrite split_slash_app, (split_slash_no_slash _ H2).
  change ("./decisions" ++ String slash s =? "")%string with false.
  change (startswith "/" ("./decisions" ++ String slash s)) with false.
  change (split_slash "./decisions") with ["."; "decisions"].
  cbv iota. cbn [app fold_left].
  change (norm_step 0 (norm_step 0 [] ".") "decisions") with ["decisions"].
  rewrite (norm_step_name _ _ s H1 H3 H4).
  reflexivity.
Qed.

End PathFacts.

Module ResolveFacts.
Import PyStr PyStrFacts PosixPath PathFacts FS.

Lemma resolve_step_name l s :
  valid_name s = true -> resolve_step (Some l) s = Some (l ++ [s]).
Proof.
  intros H. apply valid_name_inv in H as (H1 & _ & H3 & H4).
  unfold resolve_step.
  rewrite (proj2 (String.eqb_neq s "") H1).
  rewrite (proj2 (String.eqb_neq s ".") H3).
  rewrite (proj2 (String.eqb_neq s "..") H4).
  reflexivity.
Qed.

Lemma resolve_inv a p :
  resolve a = inr p ->
  a <> "" /\ startswith "/" a = false
  /\ fold_left resolve_step (split_slash a) (Some []) = Some p.
Proof.
  unfold resolve. destruct (String.eqb_spec a ""); [discriminate|].
  destruct (has_nul a); [discriminate|].
  destruct (startswith "/" a); [discriminate|].
  destruct (fold_left _ _ _); [|discriminate].
  intros [= ->]. auto.
Qed.

Lemma resolve_no_nul a p : resolve a = inr p -> has_nul a = false.
Proof.
  unfold resolve. destruct (String.eqb a ""); [discriminate|].
  now destruct (has_nul a).
Qed.

(** A path extended by a name resolves to one component more. *)
Lemma resolve_join a p nm :
  resolve a = inr p -> endswith_slash a = false -> valid_name nm = true ->
  resolve (join a nm) = inr (p ++ [nm])
  /\ endswith_slash (join a nm) = false.
Proof.
  intros Ha He Hn.
  pose proof (resolve_no_nul _ _ Ha) as Ha0.
  apply resolve_inv in Ha as (Ha1 & Ha2 & Ha3).
  pose proof (valid_name_inv _ Hn) as (Hn1 & Hn2 & _).
  unfold join. rewrite (valid_name_not_abs _ Hn), He.
  rewrite (proj2 (String.eqb_neq a "") Ha1). cbn [orb].
  split.
  - unfold resolve.
    assert (Hne : (a ++ String slash nm)%string <> "")
      by (destruct a; [congruence | discriminate]).
    rewrite (proj2 (String.eqb_neq _ "") Hne).
    change (a ++ String slash nm)%string
      with (a ++ (String slash "" ++ nm))%string at 1.
    rewrite !has_nul_app, Ha0, (valid_name_no_nul _ Hn). cbn [has_nul orb].
    change (Ascii.eqb slash Ascii.zero) with false. cbn [orb].
    rewrite (startswith_slash_app _ _ Ha1), Ha2.
    rewrite split_slash_app, (split_slash_no_slash _ Hn2).
    rewrite fold_left_app, Ha3. cbn [fold_left].
    now rewrite (resolve_step_name _ _ Hn).
  - change (a ++ String slash nm)%string
      with (a ++ (String slash "" ++ nm))%string.
    replace (a ++ (String slash "" ++ nm))%string
      with ((a ++ String slash "") ++ nm)%string.
    + now apply endswith_slash_app_name.
    + clear. induction a as [|c a IH]; cbn [append];
        [reflexivity | now rewrite IH].
Qed.

Lemma resolve_root_name s :
  valid_name s = true ->
  resolve ("./decisions/" ++ s) = inr ["decisions"; s].
Proof.
  intros H.
  rewrite <- (join_root_name _ H).
  now apply (resolve_join STORAGE_ROOT ["decisions"] s).
Qed.

Lemma resolve_safe_name s :
  valid_name s = true ->
  resolve (safe_path s) = inr ["decisions"; s]
  /\ endswith_slash (safe_path s) = false.
Proof.
  intros H. rewrite (safe_path_name _ H).
  assert (J : join "decisions" s = ("decisions/" ++ s)%string).
  { unfold join. now rewrite (valid_name_not_abs _ H). }
  rewrite <- J.
  now apply (resolve_join "decisions" ["decisions"] s).
Qed.

End ResolveFacts.

(** ** Integers as text *)

Module PyIntFacts.
Import PyStr PyStrFacts PyInt.

Lemma digits_value_uint d acc b :
  d <> Decimal.Nil \/ b = true ->
  digits_value (NilEmpty.string_of_uint d) acc b = Some (uint_val d acc).
Proof.
  revert acc b.
  induction d; intros acc b H; cbn [NilEmpty.string_of_uint uint_val].
  1: destruct H as [H | ->]; [congruence | reflexivity].
  all: match goal with
       | |- digits_value (String ?c ?r) ?a ?f = _ =>
           change (digits_value (String c r) a f)
             with (digits_value r (10 * a + Z.of_nat (nat_of_ascii c - 48)) true)
       end;
       rewrite IHd by (now right); reflexivity.
Qed.

Lemma uint_val_acc d acc :
  uint_val d (Zpos acc) = Zpos (Pos.of_uint_acc d acc).
Proof.
  revert acc.
  induction d; intros acc; cbn [uint_val Pos.of_uint_acc];
    [reflexivity | rewrite <- IHd; f_equal; lia ..].
Qed.

Lemma uint_val_0 d : uint_val d 0 = Z.of_N (Pos.of_uint d).
Proof.
  induction d; cbn [uint_val Pos.of_uint];
    first [reflexivity | exact IHd | apply uint_val_acc].
Qed.

(** [int] reads back what [str] prints. *)
Lemma digits_value_to_uint p :
  digits_value (NilEmpty.string_of_uint (Pos.to_uint p)) 0 false
  = Some (Zpos p).
Proof.
  rewrite digits_value_uint by (left; apply DecimalPos.Unsigned.to_uint_nonnil).
  rewrite uint_val_0, DecimalPos.Unsigned.of_to. reflexivity.
Qed.

Lemma uint_chars_numeric d :
  all_chars numeric_char (NilEmpty.string_of_uint d) = true.
Proof. induction d; cbn [NilEmpty.string_of_uint all_chars]; auto. Qed.

Lemma str_numeric z : all_chars numeric_char (str z) = true.
Proof.
  destruct z; cbn [str Z.to_int NilEmpty.string_of_int all_chars];
    try reflexivity; rewrite ?uint_chars_numeric; reflexivity.
Qed.

Lemma str_nonempty z : str z <> "".
Proof.
  destruct z as [|p|p]; cbn [str Z.to_int NilEmpty.string_of_int];
    try discriminate.
  pose proof (DecimalPos.Unsigned.to_uint_nonnil p) as H.
  destruct (Pos.to_uint p); try congruence; discriminate.
Qed.

Lemma numeric_char_not_nul c :
  numeric_char c = true -> negb (Ascii.eqb c Ascii.zero) = true.
Proof.
  destruct c as [[|] [|] [|] [|] [|] [|] [|] [|]]; cbv; intros H;
    try discriminate; auto.
Qed.

Lemma numeric_char_plain c :
  numeric_char c = true ->
  negb (is_slash c) = true /\ negb (isspace c) = true
  /\ negb (Ascii.eqb c CR) = true /\ negb (Ascii.eqb c ".") = true.
Proof.
  destruct c as [[|] [|] [|] [|] [|] [|] [|] [|]]; cbv; intros H;
    try discriminate; auto.
Qed.

Lemma str_strip z : strip (str z) = str z.
Proof.
  apply strip_no_space.
  apply (all_chars_weaken numeric_char); [|apply str_numeric].
  intros c H. now apply numeric_char_plain in H.
Qed.

Lemma str_newlines z : universal_newlines (str z) = str z.
Proof.
  apply universal_newlines_no_cr. rewrite has_cr_all_chars.
  apply negb_false_iff.
  apply (all_chars_weaken numeric_char); [|apply str_numeric].
  intros c H. now apply numeric_char_plain in H.
Qed.

Theorem int_of_str_str z : int_of_str (str z) = Some z.
Proof.
  unfold int_of_str. rewrite str_strip. unfold signed_value.
  destruct z as [|p|p]; cbn [str Z.to_int NilEmpty.string_of_int].
  - reflexivity.
  - pose proof (digits_value_to_uint p) as H.
    pose proof (uint_chars_numeric (Pos.to_uint p)) as Hn.
    destruct (NilEmpty.string_of_uint (Pos.to_uint p)) as [|c r] eqn:E.
    + discriminate.
    + cbn [all_chars] in Hn. apply andb_true_iff in Hn as [Hc _].
      destruct c as [[|] [|] [|] [|] [|] [|] [|] [|]];
        try discriminate Hc; try exact H.
      cbv in H. discriminate.
  - rewrite digits_value_to_uint. reflexivity.
Qed.

Lemma str_inj a b : str a = str b -> a = b.
Proof.
  intros H. pose proof (int_of_str_str a) as Ha.
  rewrite H, int_of_str_str in Ha. congruence.
Qed.

(** The text of an integer is a name a directory entry can bear. *)
Lemma str_no_nul z : has_nul (str z) = false.
Proof.
  rewrite has_nul_all_chars. apply negb_false_iff.
  apply (all_chars_weaken numeric_char); [|apply str_numeric].
  exact numeric_char_not_nul.
Qed.

Lemma str_valid_name z : valid_name (str z) = true.
Proof.
  assert (Hp : all_chars (fun c => negb (is_slash c) && negb (Ascii.eqb c "."))
                 (str z) = true).
  { apply (all_chars_weaken numeric_char); [|apply str_numeric].
    intros c H. apply numeric_char_plain in H as (H1 & _ & _ & H4).
    now rewrite H1, H4. }
  unfold valid_name.
  rewrite (proj2 (String.eqb_neq (str z) "") (str_nonempty z)).
  rewrite has_slash_all_chars, negb_involutive.
  rewrite (all_chars_weaken _ (fun c => negb (is_slash c)) _
             (fun c H => proj1 (proj1 (andb_true_iff _ _) H)) Hp).
  rewrite str_no_nul.
  destruct (str z) as [|c r]; [reflexivity|].
  cbn [all_chars] in Hp. apply andb_true_iff in Hp as [Hc _].
  apply andb_true_iff in Hc as [_ Hc]. apply negb_true_iff in Hc.
  cbn [String.eqb]. rewrite Hc. reflexivity.
Qed.

Lemma str_not_HEAD z : str z <> "HEAD".
Proof.
  intros H. pose proof (str_numeric z) as Hn. rewrite H in Hn.
  discriminate.
Qed.

End PyIntFacts.

(** ** The file-system state *)

Module FSFacts.
Import FS.

Lemma assoc_set_same k v es : assoc k (set_entry k v es) = Some v.
Proof.
  induction es as [|[k' v'] es IH]; cbn [set_entry assoc].
  - now rewrite String.eqb_refl.
  - destruct (String.eqb_spec k' k); cbn [assoc].
    + now rewrite String.eqb_refl.
    + now rewrite (proj2 (String.eqb_neq k' k) n).
Qed.

Lemma assoc_set_other k k' v es :
  k' <> k -> assoc k' (set_entry k v es) = assoc k' es.
Proof.
  intros Hk. induction es as [|[k0 v0] es IH]; cbn [set_entry assoc].
  - now rewrite (proj2 (String.eqb_neq k k') (not_eq_sym Hk)).
  - destruct (String.eqb_spec k0 k) as [->|Hn]; cbn [assoc].
    + now rewrite (proj2 (String.eqb_neq k k') (not_eq_sym Hk)).
    + now rewrite IH.
Qed.

Lemma assoc_del_same k es : assoc k (del_entry k es) = None.
Proof.
  induction es as [|[k' v'] es IH]; cbn [del_entry filter assoc fst]; auto.
  destruct (String.eqb_spec k' k); cbn [negb assoc]; auto.
  now rewrite (proj2 (String.eqb_neq k' k) n).
Qed.

Lemma assoc_del_other k k' es :
  k' <> k -> assoc k' (del_entry k es) = assoc k' es.
Proof.
  intros Hk. induction es as [|[k0 v0] es IH];
    cbn [del_entry filter assoc fst]; auto.
  destruct (String.eqb_spec k0 k) as [->|Hn]; cbn [negb assoc].
  - rewrite (proj2 (String.eqb_neq k k') (not_eq_sym Hk)). exact IH.
  - now rewrite <- IH.
Qed.

Lemma assoc_none_names k es : assoc k es = None <-> ~ In k (names es).
Proof.
  induction es as [|[k0 v0] es IH]; cbn [assoc names map fst In].
  - tauto.
  - destruct (String.eqb_spec k0 k); split; intros H.
    + discriminate.
    + exfalso. apply H. now left.
    + intros [E | HI]; [congruence | now apply IH in H].
    + apply IH. intros HI. apply H. now right.
Qed.

Lemma set_entry_fresh k v es :
  assoc k es = None -> set_entry k v es = es ++ [(k, v)].
Proof.
  induction es as [|[k0 v0] es IH]; cbn [assoc set_entry app]; auto.
  destruct (String.eqb k0 k); [discriminate|].
  intros H. now rewrite (IH H).
Qed.

Lemma set_entry_twice k v w es :
  set_entry k w (set_entry k v es) = set_entry k w es.
Proof.
  induction es as [|[k0 v0] es IH]; cbn [set_entry].
  - now rewrite String.eqb_refl.
  - destruct (String.eqb k0 k) eqn:E; cbn [set_entry].
    + now rewrite String.eqb_refl.
    + now rewrite E, IH.
Qed.

Lemma set_entry_same k v es :
  assoc k es = Some v -> set_entry k v es = es.
Proof.
  induction es as [|[k0 v0] es IH]; cbn [assoc set_entry]; [discriminate|].
  destruct (String.eqb_spec k0 k) as [->|Hn].
  - now intros [= ->].
  - intros H. now rewrite (IH H).
Qed.

Lemma lookup_nil n : lookup n [] = Some n.
Proof. reflexivity. Qed.

Lemma lookup_cons es c p :
  lookup (Dir es) (c :: p) =
  match assoc c es with
  | Some m => lookup m p
  | None => None
  end.
Proof. unfold lookup. cbn [walk]. now destruct (assoc c es). Qed.

Lemma lookup_file c x p : lookup (File c) (x :: p) = None.
Proof. reflexivity. Qed.

Lemma lookup_app n p q :
  lookup n (p ++ q) =
  match lookup n p with
  | Some m => lookup m q
  | None => None
  end.
Proof.
  revert n. induction p as [|c p IH]; intros n; cbn [app].
  - reflexivity.
  - destruct n as [x|es]; [reflexivity|].
    rewrite !lookup_cons. destruct (assoc c es); auto.
Qed.

Lemma walk_lookup n p m : walk n p = inr m <-> lookup n p = Some m.
Proof.
  unfold lookup. destruct (walk n p); split; congruence.
Qed.

Lemma parent_is_dir_cons es c d p :
  parent_is_dir (Dir es) (c :: d :: p) =
  match assoc c es with
  | Some m => parent_is_dir m (d :: p)
  | None => false
  end.
Proof.
  unfold parent_is_dir.
  change (removelast (c :: d :: p)) with (c :: removelast (d :: p)).
  rewrite lookup_cons. now destruct (assoc c es).
Qed.

Lemma lookup_put_same n p v :
  p = [] \/ parent_is_dir n p = true -> lookup (put n p v) p = Some v.
Proof.
  revert n. induction p as [|c p IH]; intros n H; [reflexivity|].
  destruct H as [H|H]; [discriminate|].
  destruct n as [x|es]; [now destruct p|].
  destruct p as [|d p]; cbn [put].
  - now rewrite lookup_cons, assoc_set_same.
  - rewrite parent_is_dir_cons in H.
    destruct (assoc c es) as [m|] eqn:E; [|discriminate].
    rewrite lookup_cons, assoc_set_same. apply IH. now right.
Qed.

Lemma lookup_put_diverge n p q v :
  diverge p q = true -> lookup (put n p v) q = lookup n q.
Proof.
  revert n q. induction p as [|c p IH]; intros n q H; [discriminate|].
  destruct q as [|b q]; [discriminate|].
  cbn [diverge] in H.
  destruct n as [x|es]; [reflexivity|].
  destruct (String.eqb_spec c b) as [->|Hn].
  - destruct p as [|d p]; [discriminate|]. cbn [put].
    destruct (assoc b es) as [m|] eqn:E; [|reflexivity].
    rewrite !lookup_cons, assoc_set_same, E. now apply IH.
  - destruct p as [|d p]; cbn [put].
    + rewrite !lookup_cons, assoc_set_other by congruence. reflexivity.
    + destruct (assoc c es) eqn:E; [|reflexivity].
      rewrite !lookup_cons, assoc_set_other by congruence. reflexivity.
Qed.

(** Setting an entry of the directory at [p] is setting that directory. *)
Lemma put_child n p c v es :
  lookup n p = Some (Dir es) ->
  put n (p ++ [c]) v = put n p (Dir (set_entry c v es)).
Proof.
  revert n. induction p as [|a p IH]; intros n H; cbn [app].
  - cbn in H. injection H as ->. reflexivity.
  - destruct n as [x|es0]; [discriminate|].
    rewrite lookup_cons in H.
    destruct (assoc a es0) as [m|] eqn:E; [|discriminate].
    cbn [put]. rewrite E.
    destruct p as [|b p].
    + cbn in H. injection H as ->. reflexivity.
    + cbn [app]. change (b :: p ++ [c]) with ((b :: p) ++ [c]).
      now rewrite (IH _ H).
Qed.

Lemma put_single es c v : put (Dir es) [c] v = Dir (set_entry c v es).
Proof. reflexivity. Qed.

Lemma put_deeper es c d p v :
  put (Dir es) (c :: d :: p) v =
  match assoc c es with
  | Some m => Dir (set_entry c (put m (d :: p) v) es)
  | None => Dir es
  end.
Proof. reflexivity. Qed.

Lemma put_twice n p v w : put (put n p v) p w = put n p w.
Proof.
  revert n. induction p as [|c p IH]; intros n; [reflexivity|].
  destruct n as [x|es]; [reflexivity|].
  destruct p as [|d p].
  - now rewrite !put_single, set_entry_twice.
  - rewrite (put_deeper es c d p v), (put_deeper es c d p w).
    destruct (assoc c es) as [m|] eqn:E.
    + now rewrite put_deeper, assoc_set_same, IH, set_entry_twice.
    + now rewrite put_deeper, E.
Qed.

Lemma put_same n p v : lookup n p = Some v -> put n p v = n.
Proof.
  revert n. induction p as [|c p IH]; intros n H.
  - cbn in H. now injection H as ->.
  - destruct n as [x|es]; [discriminate|].
    rewrite lookup_cons in H.
    destruct (assoc c es) as [m|] eqn:E; [|discriminate].
    destruct p as [|d p].
    + cbn in H. injection H as ->. now rewrite put_single, set_entry_same.
    + rewrite put_deeper, E, (IH _ H). now rewrite set_entry_same.
Qed.

Lemma parent_is_dir_put_diverge n p q v :
  diverge p q = true -> q <> [] ->
  parent_is_dir n q = true -> parent_is_dir (put n p v) q = true.
Proof.
  revert n q. induction p as [|c p IH]; intros n q H Hq Hp; [discriminate|].
  destruct q as [|b q]; [congruence|].
  destruct n as [x|es]; [exact Hp|].
  cbn [diverge] in H.
  destruct q as [|b' q].
  - destruct p as [|d p]; [reflexivity|].
    rewrite put_deeper. now destruct (assoc c es).
  - rewrite parent_is_dir_cons in Hp.
    destruct (assoc b es) as [mb|] eqn:Eb; [|discriminate].
    destruct (String.eqb_spec c b) as [->|Hn].
    + destruct p as [|d p]; [discriminate|]. rewrite put_deeper, Eb.
      rewrite parent_is_dir_cons, assoc_set_same.
      apply IH; auto. discriminate.
    + destruct p as [|d p].
      * rewrite put_single.
        rewrite parent_is_dir_cons, assoc_set_other, Eb by congruence.
        exact Hp.
      * rewrite put_deeper. destruct (assoc c es) eqn:Ec.
        -- rewrite parent_is_dir_cons, assoc_set_other, Eb by congruence.
           exact Hp.
        -- rewrite parent_is_dir_cons, Eb. exact Hp.
Qed.

Lemma update_at_single es c f :
  update_at (Dir es) [c] f =
  match f (assoc c es) with
  | inl e => inl e
  | inr (Some v) => inr (Dir (set_entry c v es))
  | inr None => inr (Dir (del_entry c es))
  end.
Proof. reflexivity. Qed.

Lemma update_at_deeper es c d p f :
  update_at (Dir es) (c :: d :: p) f =
  match assoc c es with
  | None => inl FileNotFoundError
  | Some m =>
      match update_at m (d :: p) f with
      | inl e => inl e
      | inr m' => inr (Dir (set_entry c m' es))
      end
  end.
Proof. reflexivity. Qed.

Lemma lookup_single es c : lookup (Dir es) [c] = assoc c es.
Proof. rewrite lookup_cons. now destruct (assoc c es). Qed.

(** A successful change that leaves an entry is [put]. *)
Lemma update_at_set n p f v :
  p <> [] -> parent_is_dir n p = true ->
  f (lookup n p) = inr (Some v) ->
  update_at n p f = inr (put n p v).
Proof.
  revert n. induction p as [|c p IH]; intros n Hp Hd Hf; [congruence|].
  destruct n as [x|es]; [now destruct p|].
  destruct p as [|d p].
  - rewrite lookup_single in Hf. now rewrite update_at_single, Hf.
  - rewrite parent_is_dir_cons in Hd. rewrite lookup_cons in Hf.
    rewrite update_at_deeper, put_deeper.
    destruct (assoc c es) as [m|]; [|discriminate].
    rewrite (IH m); auto. discriminate.
Qed.

Lemma update_at_inv n p f n' :
  update_at n p f = inr n' ->
  p <> [] /\ parent_is_dir n p = true
  /\ exists o, f (lookup n p) = inr o
               /\ forall v, o = Some v -> n' = put n p v.
Proof.
  revert n n'. induction p as [|c p IH]; intros n n' H; [discriminate|].
  destruct n as [x|es]; [discriminate|].
  split; [discriminate|].
  destruct p as [|d p].
  - rewrite update_at_single in H. rewrite lookup_single.
    split; [reflexivity|].
    destruct (f (assoc c es)) as [e|o]; [discriminate|].
    exists o. split; [reflexivity|].
    intros v ->. now injection H as <-.
  - rewrite update_at_deeper in H.
    rewrite parent_is_dir_cons, lookup_cons.
    destruct (assoc c es) as [m|] eqn:Ea; [|discriminate].
    destruct (update_at m (d :: p) f) as [e|m'] eqn:E; [discriminate|].
    injection H as <-.
    apply IH in E as (_ & Hd & o & Hf & Hv).
    split; [exact Hd|]. exists o. split; [exact Hf|].
    intros v Ho. rewrite put_deeper, Ea. now rewrite (Hv v Ho).
Qed.

End FSFacts.

(** ** Single operating-system calls *)

Module OsFacts.
Import FS FSFacts.

Lemma path_exists_at path p fs :
  resolve path = inr p ->
  Os.path_exists path fs =
  (fs, inr (match lookup fs p with Some _ => true | None => false end)).
Proof. intros H. unfold Os.path_exists, Os.path_test. now rewrite H. Qed.

Lemma path_isdir_at path p fs :
  resolve path = inr p ->
  Os.path_isdir path fs = (fs, inr (is_dir (lookup fs p))).
Proof. intros H. unfold Os.path_isdir, Os.path_test. now rewrite H. Qed.

Lemma write_at_ok fs p c :
  p <> [] -> parent_is_dir fs p = true -> is_dir (lookup fs p) = false ->
  write_at fs p c = inr (put fs p (File c)).
Proof.
  intros Hp Hd Hn. unfold write_at. destruct p as [|a p]; [congruence|].
  apply update_at_set; auto.
  destruct (lookup fs (a :: p)) as [[x|es]|]; auto; discriminate.
Qed.

Lemma write_at_inv fs p c fs' :
  write_at fs p c = inr fs' ->
  p <> [] /\ parent_is_dir fs p = true /\ fs' = put fs p (File c).
Proof.
  unfold write_at. destruct p as [|a p]; [discriminate|].
  intros H. apply update_at_inv in H as (Hp & Hd & o & Hf & Hv).
  repeat split; auto. apply Hv.
  destruct (lookup fs (a :: p)) as [[x|es]|]; congruence.
Qed.

Lemma write_text_ok path p fs c :
  resolve path = inr p ->
  p <> [] -> parent_is_dir fs p = true -> is_dir (lookup fs p) = false ->
  Os.write_text path c fs = (put fs p (File c), inr tt).
Proof.
  intros Hr Hp Hd Hn. unfold Os.write_text, with_path, change.
  now rewrite Hr, write_at_ok.
Qed.

Lemma write_text_inv path c fs fs' u :
  Os.write_text path c fs = (fs', inr u) ->
  exists p, resolve path = inr p /\ p <> []
            /\ parent_is_dir fs p = true /\ fs' = put fs p (File c).
Proof.
  unfold Os.write_text, with_path, change.
  destruct (resolve path) as [e|p]; [discriminate|].
  destruct (write_at fs p c) as [e|fs1] eqn:E; [discriminate|].
  intros [= <- _]. exists p. apply write_at_inv in E. tauto.
Qed.

Lemma read_text_at path p fs c :
  resolve path = inr p -> lookup fs p = Some (File c) ->
  Os.read_text path fs = (fs, inr (PyStr.universal_newlines c)).
Proof.
  intros Hr Hl. unfold Os.read_text, with_path, query, read_at.
  rewrite Hr. apply walk_lookup in Hl. now rewrite Hl.
Qed.

Lemma read_bytes_at path p fs c :
  resolve path = inr p -> lookup fs p = Some (File c) ->
  Os.read_bytes path fs = (fs, inr c).
Proof.
  intros Hr Hl. unfold Os.read_bytes, with_path, query, read_at.
  rewrite Hr. apply walk_lookup in Hl. now rewrite Hl.
Qed.

Lemma mkdir_at_ok fs p :
  p <> [] -> parent_is_dir fs p = true -> lookup fs p = None ->
  mkdir_at fs p = inr (put fs p (Dir [])).
Proof.
  intros Hp Hd Hn. unfold mkdir_at. destruct p as [|a p]; [congruence|].
  apply update_at_set; auto. now rewrite Hn.
Qed.

Lemma mkdir_at_exists fs p m :
  lookup fs p = Some m -> mkdir_at fs p = inl FileExistsError.
Proof.
  unfold mkdir_at. destruct p as [|a p]; [reflexivity|].
  assert (Hq : a :: p <> []) by discriminate.
  revert fs Hq. generalize (a :: p) as q.
  induction q as [|c q IH]; intros fs Hq H; [congruence|].
  destruct fs as [x|es]; [discriminate|].
  rewrite lookup_cons in H.
  destruct (assoc c es) as [k|] eqn:E; [|discriminate].
  destruct q as [|d q].
  - rewrite update_at_single, E. reflexivity.
  - rewrite update_at_deeper, E, (IH k); auto. discriminate.
Qed.

(** [makedirs] of a new entry in a directory that is there. *)
Lemma makedirs_fresh name p fs ok :
  resolve name = inr p ->
  p <> [] -> parent_is_dir fs p = true -> lookup fs p = None ->
  Os.makedirs name ok fs = (put fs p (Dir []), inr tt).
Proof.
  intros Hr Hp Hd Hn. unfold Os.makedirs, with_path. rewrite Hr.
  destruct (rev p) as [|tail rhead] eqn:E.
  - apply (f_equal (@rev string)) in E. rewrite rev_involutive in E.
    now subst p.
  - assert (Hpe : p = rev rhead ++ [tail]).
    { apply (f_equal (@rev string)) in E. now rewrite rev_involutive in E. }
    assert (Hparent : removelast p = rev rhead).
    { rewrite Hpe. apply removelast_last. }
    pose proof Hd as Hd0.
    unfold parent_is_dir in Hd. rewrite Hparent in Hd.
    cbn [Os.makedirs_rev].
    assert (Hn' : rev (tail :: rhead) = p) by (now rewrite <- E, rev_involutive).
    rewrite Hn'.
    destruct rhead as [|h rhead'].
    + now rewrite mkdir_at_ok by assumption.
    + destruct (lookup fs (rev (h :: rhead'))) as [m|]; [|discriminate].
      now rewrite mkdir_at_ok by assumption.
Qed.

(** [makedirs(..., exist_ok=True)] of a directory that is there. *)
Lemma makedirs_present name p fs :
  resolve name = inr p -> is_dir (lookup fs p) = true ->
  Os.makedirs name true fs = (fs, inr tt).
Proof.
  intros Hr Hd. unfold Os.makedirs, with_path. rewrite Hr.
  assert (Hex : exists m, lookup fs p = Some m)
    by (destruct (lookup fs p) as [m|]; [now exists m | discriminate]).
  destruct Hex as [m Hm].
  destruct (rev p) as [|tail rhead] eqn:E.
  - apply (f_equal (@rev string)) in E. rewrite rev_involutive in E.
    subst p. cbn [Os.makedirs_rev rev]. cbn in Hd |- *. now rewrite Hd.
  - assert (Hn' : rev (tail :: rhead) = p) by (now rewrite <- E, rev_involutive).
    assert (Hparent : exists k, lookup fs (rev rhead) = Some k).
    { rewrite <- Hn' in Hm. cbn [rev] in Hm. rewrite lookup_app in Hm.
      destruct (lookup fs (rev rhead)) as [k|]; [now exists k | discriminate]. }
    destruct Hparent as [k Hk].
    cbn [Os.makedirs_rev]. rewrite Hn'.
    destruct rhead as [|h rhead']; [|rewrite Hk];
      now rewrite (mkdir_at_exists _ _ _ Hm), Hd.
Qed.

End OsFacts.

(** ** Containment in the storage root *)

Example startup_fresh : startup (Dir []) = (fresh_store, inr tt).
Proof. reflexivity. Qed.

Example root_within_root : within_root STORAGE_ROOT = true.
Proof. reflexivity. Qed.

(** C1.  [safe_path] has no containment check and never fails: on
    ["../../etc/passwd"] it returns ["../etc/passwd"], and on
    ["../notes/x"] it returns ["notes/x"]; neither lies within the storage
    root, and [fs_write] with the latter writes a file next to the root. *)
Theorem safe_path_escapes_root :
  safe_path "../../etc/passwd" = "../etc/passwd"
  /\ within_root (safe_path "../../etc/passwd") = false
  /\ safe_path "../notes/x" = "notes/x"
  /\ within_root (safe_path "../notes/x") = false
  /\ fs_write "../notes/x" "c" fresh_store
     = (Dir [("decisions", Dir [("0", Dir []); ("HEAD", File "0")]);
             ("notes", Dir [("x", File "c")])],
        inr ("", 201%Z)).
Proof. repeat split; reflexivity. Qed.

(** ** Reading and writing files *)

Section WriteRead.
Import FS FSFacts OsFacts.

(** A handler that went through leaves what its last call left. *)
Lemma bind_inr {A B} (m : M A) (k : A -> M B) fs fs' b :
  bind m k fs = (fs', inr b) ->
  exists fs1 a, m fs = (fs1, inr a) /\ k a fs1 = (fs', inr b).
Proof.
  unfold bind. destruct (m fs) as [fs1 [e|a]]; [discriminate|].
  intros H. now exists fs1, a.
Qed.

Lemma ret_inr {A} (a b : A) fs fs' :
  ret a fs = (fs', inr b) -> fs' = fs /\ b = a.
Proof. unfold ret. intros [= <- <-]. auto. Qed.

Lemma fs_write_inv path c fs fs' r :
  fs_write path c fs = (fs', inr r) ->
  r = ("", 201%Z)
  /\ exists fs1 p,
       Os.makedirs (PosixPath.dirname (safe_path path)) true fs = (fs1, inr tt)
       /\ resolve (safe_path path) = inr p /\ p <> []
       /\ parent_is_dir fs1 p = true /\ fs' = put fs1 p (File c).
Proof.
  unfold fs_write. intros H.
  apply bind_inr in H as (fs1 & [] & Hmk & H).
  apply bind_inr in H as (fs2 & u & Hw & H).
  apply ret_inr in H as [-> ->].
  apply write_text_inv in Hw as (p & Hr & Hp & Hd & ->).
  split; [reflexivity|]. now exists fs1, p.
Qed.

(** What [fs_read] answers after a [fs_write] that went through: the
    content with its line endings turned into ["\n"]. *)
Lemma write_then_read_text path c fs fs' r :
  fs_write path c fs = (fs', inr r) ->
  fs_read path fs' = (fs', inr (JStr (PyStr.universal_newlines c), 200%Z)).
Proof.
  intros H. apply fs_write_inv in H as (_ & fs1 & p & _ & Hr & Hp & Hd & ->).
  assert (Hl : lookup (put fs1 p (File c)) p = Some (File c))
    by (apply lookup_put_same; now right).
  unfold fs_read, bind.
  rewrite (path_exists_at _ _ _ Hr), Hl. cbn [negb].
  now rewrite (read_text_at _ _ _ _ Hr Hl).
Qed.

End WriteRead.

(** C5, as stated, fails: after writing ["x\r\ny"] to [a.txt], reading
    [a.txt] answers ["x\ny"]; and writing to the path [""], which is the
    storage root itself, fails, after which reading it fails too. *)
Lemma write_read_crlf_differs :
  (exists fs',
     fs_write "a.txt" crlf_text fresh_store = (fs', inr ("", 201%Z))
     /\ fs_read "a.txt" fs'
        = (fs', inr (JStr (String "x" (String PyStr.LF "y")), 200%Z))
     /\ fs_read "a.txt" fs' <> (fs', inr (JStr crlf_text, 200%Z)))
  /\ fs_write "" "c" fresh_store = (fresh_store, inl FileNotFoundError)
  /\ fs_read "" fresh_store = (fresh_store, inl IsADirectoryError).
Proof.
  split; [|split; reflexivity].
  eexists. split; [reflexivity|]. split; [reflexivity|]. cbv. discriminate.
Qed.

(** C5, amended.  For every path that [safe_path] leaves at or below the
    working directory, where the state has regular files and directories
    only, and every content without a carriage return: if [fs_write] goes
    through then [fs_read] of the same path answers exactly that content,
    with status 200. *)
Theorem write_then_read path p c fs fs' r :
  FS.resolve (safe_path path) = inr p ->
  PyStr.has_cr c = false ->
  fs_write path c fs = (fs', inr r) ->
  fs_read path fs' = (fs', inr (JStr c, 200%Z)).
Proof.
  intros _ Hc H. rewrite (write_then_read_text _ _ _ _ _ H).
  now rewrite PyStrFacts.universal_newlines_no_cr.
Qed.

Lemma write_then_read_witness :
  FS.resolve (safe_path "a/b.txt") = inr ["decisions"; "a"; "b.txt"]
  /\ PyStr.has_cr "hello" = false
  /\ fs_read "a/b.txt" (fst (fs_write "a/b.txt" "hello" fresh_store))
     = (fst (fs_write "a/b.txt" "hello" fresh_store), inr (JStr "hello", 200%Z)).
Proof.
  split; [reflexivity|]. split; [reflexivity|].
  apply (write_then_read "a/b.txt" ["decisions"; "a"; "b.txt"] "hello"
           fresh_store _ ("", 201%Z));
    reflexivity.
Defined.

(** ** The revision counter *)

Section HeadText.
Import PyStr PyStrFacts PyInt.

Lemma same_but_space_refl s : same_but_space s s.
Proof. induction s; now constructor. Qed.

(** Reading in text mode changes white space only. *)
Lemma universal_newlines_space s :
  same_but_space s (universal_newlines s)
  /\ forall c, same_but_space (String c s) (universal_newlines (String c s)).
Proof.
  induction s as [|d r [IH1 IH2]].
  - split; [constructor|]. intros c. cbn [universal_newlines].
    destruct (Ascii.eqb_spec c CR) as [->|_];
      [apply sbs_space | apply sbs_same]; auto; constructor.
  - split; [apply IH2|]. intros c. cbn [universal_newlines].
    destruct (Ascii.eqb_spec c CR) as [->|_].
    + destruct (Ascii.eqb_spec d LF) as [->|_].
      * apply sbs_drop; auto.
      * apply sbs_space; auto.
    + apply sbs_same. apply IH2.
Qed.

Lemma space_not_digit c : isspace c = true -> digit_of c = None.
Proof.
  destruct c as [[|] [|] [|] [|] [|] [|] [|] [|]]; cbv; congruence.
Qed.

Lemma space_not_underscore c : isspace c = true -> Ascii.eqb c "_" = false.
Proof.
  destruct c as [[|] [|] [|] [|] [|] [|] [|] [|]]; cbv; congruence.
Qed.

Lemma digits_value_space w r acc f :
  isspace w = true -> digits_value (String w r) acc f = None.
Proof.
  intros H. cbn [digits_value].
  now rewrite (space_not_digit _ H), (space_not_underscore _ H).
Qed.

Lemma digits_value_same_but_space a b :
  same_but_space a b ->
  forall acc f, digits_value a acc f = digits_value b acc f.
Proof.
  induction 1 as [|c a b _ IH|w w' a b Hw Hw' _ _|w1 w2 w' a b H1 H2 Hw' _ _];
    intros acc f.
  - reflexivity.
  - cbn [digits_value]. destruct (digit_of c); [apply IH|].
    destruct (Ascii.eqb c "_" && f); [apply IH | reflexivity].
  - now rewrite !digits_value_space.
  - now rewrite !digits_value_space.
Qed.

Lemma signed_value_space w r :
  isspace w = true -> signed_value (String w r) = None.
Proof.
  intros H.
  assert (H0 : digits_value (String w r) 0 false = None)
    by now apply digits_value_space.
  destruct w as [[|] [|] [|] [|] [|] [|] [|] [|]];
    try exact H0; cbv in H; discriminate.
Qed.

Lemma signed_value_same_but_space a b :
  same_but_space a b -> signed_value a = signed_value b.
Proof.
  intros H. destruct H as [|c a b H|w w' a b Hw Hw' H|w1 w2 w' a b H1 H2 Hw' H].
  - reflexivity.
  - pose proof (digits_value_same_but_space _ _ H 0%Z false) as E.
    pose proof (digits_value_same_but_space _ _ (sbs_same c _ _ H) 0%Z false)
      as E'.
    destruct c as [[|] [|] [|] [|] [|] [|] [|] [|]];
      try exact E'; cbn [signed_value]; now rewrite E.
  - now rewrite !signed_value_space.
  - now rewrite !signed_value_space.
Qed.

Lemma lstrip_same_but_space a b :
  same_but_space a b -> same_but_space (lstrip a) (lstrip b).
Proof.
  induction 1 as [|c a b H IH|w w' a b Hw Hw' _ IH|w1 w2 w' a b H1 H2 Hw' _ IH].
  - constructor.
  - cbn [lstrip]. destruct (isspace c); [exact IH | now constructor].
  - cbn [lstrip]. now rewrite Hw, Hw'.
  - cbn [lstrip]. now rewrite H1, H2, Hw'.
Qed.

Lemma rstrip_same_but_space a b :
  same_but_space a b ->
  same_but_space (rstrip a) (rstrip b)
  /\ (rstrip a = "" <-> rstrip b = "").
Proof.
  induction 1 as [|c a b H [IH E]|w w' a b Hw Hw' _ [IH E]
                  |w1 w2 w' a b H1 H2 Hw' _ [IH E]].
  - split; [constructor | tauto].
  - cbn [rstrip].
    destruct (String.eqb_spec (rstrip a) "") as [Ea|Ea],
             (String.eqb_spec (rstrip b) "") as [Eb|Eb]; try tauto;
      destruct (isspace c); cbn [andb];
      (split; [first [constructor; assumption | constructor]
              | split; first [reflexivity | discriminate]]).
  - cbn [rstrip]. rewrite Hw, Hw'.
    destruct (String.eqb_spec (rstrip a) "") as [Ea|Ea],
             (String.eqb_spec (rstrip b) "") as [Eb|Eb]; try tauto;
      cbn [andb].
    + split; [constructor | tauto].
    + split; [now apply sbs_space | split; discriminate].
  - cbn [rstrip]. rewrite H1, H2, Hw'.
    destruct (String.eqb_spec (rstrip a) "") as [Ea|Ea],
             (String.eqb_spec (rstrip b) "") as [Eb|Eb]; try tauto;
      cbn [andb String.eqb].
    + split; [constructor | tauto].
    + split; [now apply sbs_drop | split; discriminate].
Qed.

Lemma strip_same_but_space a b :
  same_but_space a b -> same_but_space (strip a) (strip b).
Proof.
  intros H. unfold strip.
  now apply rstrip_same_but_space, lstrip_same_but_space.
Qed.

Lemma rstrip_idem s : rstrip (rstrip s) = rstrip s.
Proof.
  induction s as [|c r IH]; [reflexivity|]. cbn [rstrip].
  destruct (isspace c && (rstrip r =? "")%string) eqn:E; [reflexivity|].
  cbn [rstrip]. now rewrite IH, E.
Qed.

Lemma lstrip_rstrip s :
  lstrip s = s -> lstrip (rstrip s) = rstrip s.
Proof.
  destruct s as [|c r]; [reflexivity|]. cbn [lstrip].
  destruct (isspace c) eqn:E.
  - intros H. exfalso.
    assert (L : forall t, (String.length (lstrip t) <= String.length t)%nat).
    { induction t as [|d t IHt]; cbn [lstrip String.length]; [lia|].
      destruct (isspace d); cbn [String.length]; lia. }
    specialize (L r). rewrite H in L. cbn [String.length] in L. lia.
  - intros _. cbn [rstrip]. rewrite E. cbn [andb lstrip]. now rewrite E.
Qed.

Lemma lstrip_idem s : lstrip (lstrip s) = lstrip s.
Proof.
  induction s as [|c r IH]; [reflexivity|]. cbn [lstrip].
  destruct (isspace c) eqn:E; [exact IH|]. cbn [lstrip]. now rewrite E.
Qed.

Lemma strip_idem s : strip (strip s) = strip s.
Proof.
  unfold strip. rewrite lstrip_rstrip by apply lstrip_idem.
  apply rstrip_idem.
Qed.

Lemma int_of_str_signed s : int_of_str s = signed_value (strip s).
Proof. reflexivity. Qed.

(** What [read_head] makes of the text of [HEAD] is what [int] makes of
    it. *)
Lemma parse_head_int c : parse_head c = int_of_str c.
Proof.
  unfold parse_head. rewrite !int_of_str_signed, strip_idem.
  symmetry. apply signed_value_same_but_space, strip_same_but_space.
  apply universal_newlines_space.
Qed.

End HeadText.

Section Counter.
Import FS FSFacts OsFacts PyIntFacts ResolveFacts.

Lemma parse_head_str n : parse_head (PyInt.str n) = Some n.
Proof.
  unfold parse_head. now rewrite str_newlines, str_strip, int_of_str_str.
Qed.

Lemma resolve_head_path : resolve head_path = inr head_components.
Proof. reflexivity. Qed.

Lemma read_head_at fs c :
  lookup fs head_components = Some (File c) ->
  read_head fs =
  (fs, match parse_head c with
       | Some z => inr z
       | None => inl ValueError
       end).
Proof.
  intros H. unfold read_head, bind.
  rewrite (read_text_at _ _ _ _ resolve_head_path H).
  unfold py_int, parse_head.
  now destruct (PyInt.int_of_str _).
Qed.

Lemma current_rev_head_is fs h : head_is fs h -> current_rev fs = (fs, inr h).
Proof.
  intros (c & Hl & Hp). unfold current_rev.
  now rewrite (read_head_at _ _ Hl), Hp.
Qed.

(** [current_rev] only reads. *)
Lemma current_rev_reads fs : fst (current_rev fs) = fs.
Proof.
  unfold current_rev, read_head, bind, Os.read_text, with_path.
  rewrite resolve_head_path. unfold query.
  destruct (read_at fs head_components) as [e|c]; [reflexivity|].
  unfold py_int. now destruct (PyInt.int_of_str _).
Qed.

Lemma py_range_length n : List.length (py_range n) = Z.to_nat n.
Proof. unfold py_range. now rewrite length_map, length_seq. Qed.

Lemma py_range_nth n i :
  (i < Z.to_nat n)%nat -> nth i (py_range n) 0%Z = Z.of_nat i.
Proof.
  intros H. unfold py_range.
  change 0%Z with (Z.of_nat 0). rewrite map_nth, seq_nth; auto.
Qed.

End Counter.

(** C8, as stated, fails.  With a negative head, which [fs_write] on
    [HEAD] leaves, [rev_list] answers the empty list, not the [HEAD + 1]
    integers [0], ..., [HEAD]; with a head of [sys.maxsize] it raises
    [OverflowError]. *)
Lemma rev_list_not_up_to_head :
  (let fs := fst (fs_write "HEAD" "-3" fresh_store) in
   head_is fs (-3)
   /\ rev_list fs
      = (fs, inr (JObj [("latest", JInt (-3)); ("list", JList [])]))
   /\ Z.of_nat (List.length (@nil json)) <> (-3 + 1)%Z)
  /\ (let fs := fst (fs_write "HEAD" "9223372036854775807" fresh_store) in
      head_is fs 9223372036854775807
      /\ rev_list fs = (fs, inl OverflowError)).
Proof.
  split; cbv zeta.
  - split; [exists "-3"; split; reflexivity|]. split; [reflexivity|].
    discriminate.
  - split; [exists "9223372036854775807"; split; reflexivity|].
    reflexivity.
Qed.

(** C8, amended.  Where the [HEAD] file holds the integer [h]: whenever
    [rev_list] answers, it has changed nothing, [latest] is [h] and [list]
    holds the
    integers of [range(h + 1)]; for [h] not negative these are [0], [1],
    ... [h] in this order, [h + 1] of them, the one at index [i] being
    [i], and for a negative [h] there is none.  Where the text of [HEAD]
    is short enough for [int], [rev_list] does answer for every [h] up to
    a million, and raises [OverflowError] where [h + 1] is more than
    [sys.maxsize]. *)
Theorem rev_list_spec fs h :
  head_is fs h ->
  (forall fs' j,
     rev_list fs = (fs', inr j) ->
     fs' = fs
     /\ j = JObj [("latest", JInt h);
                  ("list", JList (map JInt (py_range (h + 1))))])
  /\ ((0 <= h)%Z ->
      Z.of_nat (List.length (py_range (h + 1))) = (h + 1)%Z
      /\ forall i, (i < List.length (py_range (h + 1)))%nat ->
                   nth i (py_range (h + 1)) 0%Z = Z.of_nat i)
  /\ ((h < 0)%Z -> py_range (h + 1) = [])
  /\ (head_fits fs = true -> (h <= 1000000)%Z ->
      rev_list fs =
        (fs, inr (JObj [("latest", JInt h);
                        ("list", JList (map JInt (py_range (h + 1))))])))
  /\ (head_fits fs = true -> (SSIZE_MAX <= h)%Z ->
      rev_list fs = (fs, inl OverflowError)).
Proof.
  intros Hh.
  assert (Hrun : rev_list fs =
                 if (SSIZE_MAX <? h + 1)%Z then (fs, inl OverflowError)
                 else (fs, inr (JObj [("latest", JInt h);
                                     ("list",
                                      JList (map JInt (py_range (h + 1))))]))).
  { unfold rev_list, bind. rewrite (current_rev_head_is _ _ Hh).
    unfold py_list_range. now destruct (SSIZE_MAX <? h + 1)%Z. }
  split; [|split; [|split; [|split]]].
  - intros fs' j H. rewrite Hrun in H.
    destruct (SSIZE_MAX <? h + 1)%Z; [discriminate|].
    injection H as <- <-. now split.
  - intros Hpos. split.
    + rewrite py_range_length. lia.
    + intros i Hi. rewrite py_range_length in Hi. now apply py_range_nth.
  - intros Hneg. unfold py_range.
    now replace (Z.to_nat (h + 1)) with 0%nat by lia.
  - intros _ Hsmall. rewrite Hrun.
    assert (E : (SSIZE_MAX <? h + 1)%Z = false).
    { apply Z.ltb_ge. unfold SSIZE_MAX.
      assert (1000001 <= 2 ^ 63 - 1)%Z by (vm_compute; discriminate). lia. }
    now rewrite E.
  - intros _ Hbig. rewrite Hrun.
    assert (E : (SSIZE_MAX <? h + 1)%Z = true) by (apply Z.ltb_lt; lia).
    now rewrite E.
Qed.

Lemma rev_list_spec_witness :
  let fs := fst (fs_write "HEAD" " 41" fresh_store) in
  head_is fs 41
  /\ rev_list fs =
       (fs, inr (JObj [("latest", JInt 41);
                       ("list", JList (map JInt (py_range (41 + 1))))]))
  /\ Z.of_nat (List.length (py_range (41 + 1))) = (41 + 1)%Z
  /\ nth 7 (py_range (41 + 1)) 0%Z = 7%Z.
Proof.
  cbv zeta.
  assert (H : head_is (fst (fs_write "HEAD" " 41" fresh_store)) 41)
    by (exists " 41"; split; reflexivity).
  destruct (rev_list_spec _ 41 H) as (_ & Hlist & _ & Hrun & _).
  split; [exact H|]. split; [apply Hrun; [reflexivity | lia]|].
  destruct (Hlist ltac:(lia)) as [Hlen Hnth].
  split; [exact Hlen|].
  apply (Hnth 7%nat). rewrite py_range_length. vm_compute. lia.
Defined.

(** C9.  File operations resolve caller paths against the storage root
    itself: [safe_path "HEAD"] is the [HEAD] file of the store.  Where the
    storage root is a directory and [HEAD] is not a directory,
    [fs_write "HEAD" c] goes through and leaves [c] in the [HEAD] file, and
    [current_rev] then answers the integer [int(c)], whatever the head was
    before. *)
Theorem write_HEAD_sets_head fs es c z :
  FS.lookup fs root_components = Some (Dir es) ->
  FS.is_dir (FS.assoc "HEAD" es) = false ->
  PyInt.int_of_str c = Some z ->
  FS.resolve (safe_path "HEAD") = FS.resolve head_path
  /\ exists fs',
       fs_write "HEAD" c fs = (fs', inr ("", 201%Z))
       /\ FS.lookup fs' head_components = Some (File c)
       /\ current_rev fs' = (fs', inr z).
Proof.
  intros Hroot Hhead Hz. split; [reflexivity|].
  assert (Hr : FS.resolve (safe_path "HEAD") = inr head_components)
    by reflexivity.
  assert (Hd : FS.resolve (PosixPath.dirname (safe_path "HEAD"))
               = inr root_components) by reflexivity.
  assert (Hpar : parent_is_dir fs head_components = true).
  { unfold parent_is_dir. cbn [removelast head_components].
    change ["decisions"] with root_components. now rewrite Hroot. }
  assert (Hnd : FS.is_dir (FS.lookup fs head_components) = false).
  { change head_components with (root_components ++ ["HEAD"]).
    rewrite FSFacts.lookup_app, Hroot, FSFacts.lookup_single. exact Hhead. }
  exists (put fs head_components (File c)).
  assert (Hl : FS.lookup (put fs head_components (File c))
                 head_components = Some (File c))
    by (apply FSFacts.lookup_put_same; now right).
  split; [|split].
  - unfold fs_write, bind.
    rewrite (OsFacts.makedirs_present _ _ _ Hd) by (now rewrite Hroot).
    rewrite (OsFacts.write_text_ok _ _ _ _ Hr); auto. discriminate.
  - exact Hl.
  - apply current_rev_head_is. exists c. split; [exact Hl|].
    now rewrite parse_head_int.
Qed.

Lemma write_HEAD_sets_head_witness :
  exists fs',
    fs_write "HEAD" " 41" fresh_store = (fs', inr ("", 201%Z))
    /\ FS.lookup fs' head_components = Some (File " 41")
    /\ current_rev fs' = (fs', inr 41%Z).
Proof.
  exact (proj2 (write_HEAD_sets_head fresh_store
                  [("0", Dir []); ("HEAD", File "0")] " 41" 41%Z
                  eq_refl eq_refl eq_refl)).
Defined.

(** ** Allocation of revision numbers *)

Section Allocation.
Import FS FSFacts OsFacts PyIntFacts ResolveFacts.

Lemma lookup_parent n p c m :
  lookup n (p ++ [c]) = Some m -> exists es, lookup n p = Some (Dir es).
Proof.
  rewrite lookup_app. destruct (lookup n p) as [[x|es]|]; try discriminate.
  intros _. now exists es.
Qed.

Lemma head_is_root fs h :
  head_is fs h -> exists es, lookup fs root_components = Some (Dir es).
Proof.
  intros (c & Hl & _).
  now apply (lookup_parent fs root_components "HEAD" (File c)).
Qed.

Lemma diverge_siblings d a b : a <> b -> diverge [d; a] [d; b] = true.
Proof.
  intros H. cbn [diverge]. rewrite String.eqb_refl.
  now rewrite (proj2 (String.eqb_neq a b) H).
Qed.

Lemma diverge_revs n k :
  n <> k -> diverge (rev_components n) (rev_components k) = true.
Proof.
  intros H. apply diverge_siblings. intros E. now apply str_inj in E.
Qed.

Lemma diverge_rev_head n : diverge (rev_components n) head_components = true.
Proof. apply diverge_siblings, str_not_HEAD. Qed.

Lemma diverge_head_rev n : diverge head_components (rev_components n) = true.
Proof. apply diverge_siblings. intros E. now apply (str_not_HEAD n). Qed.

Lemma resolve_rev_dir n :
  resolve (PosixPath.join STORAGE_ROOT (PyInt.str n)) = inr (rev_components n).
Proof.
  rewrite (PathFacts.join_root_name _ (str_valid_name n)).
  apply resolve_root_name, str_valid_name.
Qed.

Lemma parent_of_root_entry fs es c :
  lookup fs root_components = Some (Dir es) ->
  parent_is_dir fs ["decisions"; c] = true.
Proof.
  intros H. unfold parent_is_dir. cbn [removelast].
  change ["decisions"] with root_components. now rewrite H.
Qed.

Lemma bump_rev_run fs h :
  head_is fs h ->
  lookup fs (rev_components (h + 1)) = None ->
  bump_rev fs = (allocated fs (h + 1), inr (h + 1)%Z).
Proof.
  intros Hh Hfree.
  destruct (head_is_root _ _ Hh) as [es Hroot].
  destruct Hh as (c & Hl & Hp).
  unfold bump_rev, bind.
  rewrite (current_rev_head_is fs h) by (now exists c).
  rewrite (makedirs_fresh _ _ _ _ (resolve_rev_dir (h + 1)));
    [|discriminate|now apply (parent_of_root_entry fs es)|exact Hfree].
  unfold write_head.
  rewrite (write_text_ok _ _ _ _ resolve_head_path).
  - reflexivity.
  - discriminate.
  - apply parent_is_dir_put_diverge;
      [apply diverge_rev_head | discriminate
      | now apply (parent_of_root_entry fs es)].
  - now rewrite (lookup_put_diverge _ _ _ _ (diverge_rev_head (h + 1))), Hl.
Qed.

Lemma allocated_head fs n :
  is_dir (lookup fs root_components) = true ->
  head_is (allocated fs n) n.
Proof.
  intros Hroot. exists (PyInt.str n). split; [|apply parse_head_str].
  apply lookup_put_same. right.
  apply parent_is_dir_put_diverge;
    [apply diverge_rev_head | discriminate|].
  unfold parent_is_dir. cbn [removelast head_components]. exact Hroot.
Qed.

Lemma allocated_rev_same fs n :
  is_dir (lookup fs root_components) = true ->
  lookup (allocated fs n) (rev_components n) = Some (Dir []).
Proof.
  intros Hroot. unfold allocated.
  rewrite (lookup_put_diverge _ _ _ _ (diverge_head_rev n)).
  apply lookup_put_same. right. exact Hroot.
Qed.

Lemma allocated_rev_other fs n k :
  k <> n ->
  lookup (allocated fs n) (rev_components k) = lookup fs (rev_components k).
Proof.
  intros H. unfold allocated.
  rewrite (lookup_put_diverge _ _ _ _ (diverge_head_rev k)).
  apply lookup_put_diverge, diverge_revs. congruence.
Qed.

Lemma wf_store_allocated fs h :
  wf_store fs h -> wf_store (allocated fs (h + 1)) (h + 1).
Proof.
  intros (Hpos & Hh & Hin & Hout).
  destruct (head_is_root _ _ Hh) as [es Hroot].
  assert (Hd : is_dir (lookup fs root_components) = true) by now rewrite Hroot.
  repeat split.
  - lia.
  - apply allocated_head. exact Hd.
  - intros n Hn. destruct (Z.eq_dec n (h + 1)) as [->|Hne].
    + now rewrite allocated_rev_same.
    + rewrite allocated_rev_other by exact Hne. apply Hin. lia.
  - intros n Hn. rewrite allocated_rev_other by lia. apply Hout. lia.
Qed.

Lemma bump_rev_wf fs h :
  wf_store fs h ->
  bump_rev fs = (allocated fs (h + 1), inr (h + 1)%Z)
  /\ wf_store (allocated fs (h + 1)) (h + 1).
Proof.
  intros H. split; [|now apply wf_store_allocated].
  destruct H as (_ & Hh & _ & Hout). apply bump_rev_run; auto.
  apply Hout. lia.
Qed.

(** Where something already bears the next number, [bump_rev] raises
    [FileExistsError] and leaves the state, [HEAD] included. *)
Lemma bump_rev_conflict fs h m :
  head_is fs h ->
  lookup fs (rev_components (h + 1)) = Some m ->
  bump_rev fs = (fs, inl FileExistsError).
Proof.
  intros Hh Hm.
  destruct (head_is_root _ _ Hh) as [es Hroot].
  unfold bump_rev, bind. rewrite (current_rev_head_is fs h Hh).
  unfold Os.makedirs, with_path. rewrite resolve_rev_dir.
  cbn [rev rev_components app Os.makedirs_rev].
  change ["decisions"] with root_components. rewrite Hroot.
  change ["decisions"; PyInt.str (h + 1)] with (rev_components (h + 1)).
  now rewrite (mkdir_at_exists _ _ _ Hm).
Qed.

Lemma allocations_wf k : forall fs h,
  wf_store fs h ->
  exists fs',
    allocations k fs
    = (fs', inr (map (fun i => (h + 1 + Z.of_nat i)%Z) (seq 0 k)))
    /\ wf_store fs' (h + Z.of_nat k).
Proof.
  induction k as [|k IH]; intros fs h Hwf.
  - exists fs. split; [reflexivity|]. now rewrite Z.add_0_r.
  - destruct (bump_rev_wf _ _ Hwf) as [Hrun Hwf1].
    destruct (IH _ _ Hwf1) as (fs' & Hrest & Hwf').
    exists fs'. split.
    + cbn [allocations]. unfold bind at 1. rewrite Hrun.
      unfold bind at 1. rewrite Hrest. cbn [ret seq map].
      rewrite <- seq_shift, map_map. unfold ret.
      rewrite Z.add_0_r. do 3 f_equal.
      apply map_ext. intros i. lia.
    + replace (h + Z.of_nat (S k))%Z with (h + 1 + Z.of_nat k)%Z by lia.
      exact Hwf'.
Qed.

(** A store with revision [0] alone, whatever that revision holds. *)
Lemma wf_store_initial es0 :
  wf_store (Dir [("decisions", Dir [("0", Dir es0); ("HEAD", File "0")])]) 0.
Proof.
  repeat split.
  - lia.
  - exists "0". split; reflexivity.
  - intros n Hn. assert (n = 0%Z) as -> by lia. reflexivity.
  - intros n Hn. unfold rev_components.
    rewrite lookup_cons. cbn [assoc String.eqb Ascii.eqb Bool.eqb].
    rewrite lookup_single. cbn [assoc].
    assert (H0 : PyInt.str n <> "0")
      by (intros E; apply (str_inj n 0) in E; lia).
    rewrite (proj2 (String.eqb_neq "0" (PyInt.str n)) (not_eq_sym H0)).
    pose proof (str_not_HEAD n) as H1.
    now rewrite (proj2 (String.eqb_neq "HEAD" (PyInt.str n)) (not_eq_sym H1)).
Qed.

Lemma wf_fresh_store : wf_store fresh_store 0.
Proof. apply wf_store_initial. Qed.

End Allocation.

(** C2.  From a well-formed store with head [h], [bump_rev] returns [h + 1],
    having made the empty directory of revision [h + 1] and set [HEAD] to
    [h + 1], and the store is well formed again, its revisions being [0] to
    [h + 1]; where something already bears the number [h + 1], [bump_rev]
    raises [FileExistsError] and changes nothing.  Hence [k] allocations in
    a row return [h + 1], [h + 2], ..., [h + k] in this order and leave a
    well-formed store with head [h + k]. *)
Theorem bump_rev_allocates fs h :
  wf_store fs h ->
  (exists fs',
     bump_rev fs = (fs', inr (h + 1)%Z)
     /\ FS.lookup fs' (rev_components (h + 1)) = Some (Dir [])
     /\ head_is fs' (h + 1)
     /\ wf_store fs' (h + 1))
  /\ (forall fs0 h0 m,
        head_is fs0 h0 ->
        FS.lookup fs0 (rev_components (h0 + 1)) = Some m ->
        bump_rev fs0 = (fs0, inl FileExistsError))
  /\ (forall k, exists fs',
        allocations k fs
        = (fs', inr (map (fun i => (h + 1 + Z.of_nat i)%Z) (seq 0 k)))
        /\ wf_store fs' (h + Z.of_nat k)).
Proof.
  intros Hwf. split; [|split].
  - destruct (bump_rev_wf _ _ Hwf) as [Hrun Hwf1].
    exists (allocated fs (h + 1)).
    split; [exact Hrun|]. split; [|split; [|exact Hwf1]].
    + destruct Hwf as (_ & Hh & _ & _).
      destruct (head_is_root _ _ Hh) as [es Hroot].
      apply allocated_rev_same. now rewrite Hroot.
    + now destruct Hwf1 as (_ & Hh1 & _).
  - intros fs0 h0 m. apply bump_rev_conflict.
  - intros k. now apply allocations_wf.
Qed.

Lemma bump_rev_allocates_witness :
  wf_store fresh_store 0
  /\ exists fs',
       allocations 3 fresh_store = (fs', inr [1; 2; 3]%Z)
       /\ wf_store fs' 3.
Proof.
  split; [exact wf_fresh_store|].
  exact (proj2 (proj2 (bump_rev_allocates fresh_store 0 wf_fresh_store)) 3%nat).
Defined.

(** ** Snapshots *)

Section Snapshot.
Import FS FSFacts OsFacts PyIntFacts ResolveFacts PyStr.

Lemma nodupb_NoDup l : nodupb l = true -> NoDup l.
Proof.
  induction l as [|x l IH]; cbn [nodupb]; intros H; constructor.
  - apply andb_true_iff in H as [H _]. apply negb_true_iff in H.
    intros HI. assert (existsb (String.eqb x) l = true); [|congruence].
    apply existsb_exists. exists x. split; [exact HI | apply String.eqb_refl].
  - apply IH. now apply andb_true_iff in H as [_ H].
Qed.

Lemma wf_node_dir es :
  wf_node (Dir es) = true ->
  NoDup (names es)
  /\ Forall (fun e => valid_name (fst e) = true /\ wf_node (snd e) = true) es.
Proof.
  cbn [wf_node]. intros H. apply andb_true_iff in H as [Hn He].
  split; [now apply nodupb_NoDup|]. clear Hn.
  induction es as [|[k m] es IH]; constructor.
  - apply andb_true_iff in He as [He _].
    now apply andb_true_iff in He.
  - apply IH. now apply andb_true_iff in He as [_ He].
Qed.

Lemma assoc_in k m es : assoc k es = Some m -> In (k, m) es.
Proof.
  induction es as [|[k0 m0] es IH]; cbn [assoc]; [discriminate|].
  destruct (String.eqb_spec k0 k) as [->|Hn].
  - intros [= ->]. now left.
  - intros H. right. auto.
Qed.

Lemma wf_node_lookup p : forall n m,
  wf_node n = true -> lookup n p = Some m -> wf_node m = true.
Proof.
  induction p as [|c p IH]; intros n m Hwf H.
  - cbn in H. now injection H as <-.
  - destruct n as [x|es]; [discriminate|].
    rewrite lookup_cons in H.
    destruct (assoc c es) as [k|] eqn:E; [|discriminate].
    apply (IH k); auto.
    apply wf_node_dir in Hwf as [_ Hall].
    rewrite Forall_forall in Hall.
    now apply (Hall (c, k)), assoc_in.
Qed.

Lemma diverge_sym p : forall q, diverge p q = diverge q p.
Proof.
  induction p as [|a p IH]; intros [|b q]; cbn [diverge]; auto.
  rewrite (String.eqb_sym a b). now destruct (String.eqb b a).
Qed.

Lemma diverge_app p : forall q x y,
  diverge p q = true -> diverge (p ++ x) (q ++ y) = true.
Proof.
  induction p as [|a p IH]; intros [|b q] x y H; try discriminate.
  cbn [diverge app] in *. destruct (String.eqb a b); auto.
Qed.

Lemma lookup_some_parent n p m :
  lookup n p = Some m -> p = [] \/ parent_is_dir n p = true.
Proof.
  destruct (rev p) as [|c rp] eqn:E.
  - left. apply (f_equal (@rev string)) in E. now rewrite rev_involutive in E.
  - right. apply (f_equal (@rev string)) in E. rewrite rev_involutive in E.
    cbn [rev] in E. subst p. unfold parent_is_dir.
    rewrite removelast_last.
    destruct (lookup_parent _ _ _ _ H) as [es ->]. reflexivity.
Qed.

Lemma lookup_child n p c es :
  lookup n p = Some (Dir es) -> lookup n (p ++ [c]) = assoc c es.
Proof. intros H. now rewrite lookup_app, H, lookup_single. Qed.

Lemma parent_is_dir_child n p c es :
  lookup n p = Some (Dir es) -> parent_is_dir n (p ++ [c]) = true.
Proof. intros H. unfold parent_is_dir. now rewrite removelast_last, H. Qed.

(** Adding the entry [(k, v)] to the directory [done] at [dc]. *)
Lemma put_new_child st dc done k v :
  lookup st dc = Some (Dir done) -> assoc k done = None ->
  put st (dc ++ [k]) v = put st dc (Dir (done ++ [(k, v)])).
Proof.
  intros Hd Hk. rewrite (put_child _ _ _ _ _ Hd).
  now rewrite set_entry_fresh.
Qed.

Lemma copy2_step st src dst sc dc all done k c :
  copy_step st src dst sc dc all done k (File c) ->
  Shutil.copy2 (PosixPath.join src k) (PosixPath.join dst k) st
  = (put st dc (Dir (done ++ [(k, File c)])), inr tt).
Proof.
  intros [Hs Hst Hd Hdt Ha Hsrc He Hk Hdone Hf].
  destruct (resolve_join _ _ _ Hs Hst Hk) as [Hsk _].
  destruct (resolve_join _ _ _ Hd Hdt Hk) as [Hdk _].
  assert (Hlsrc : lookup st (sc ++ [k]) = Some (File c))
    by now rewrite (lookup_child _ _ _ _ Hsrc).
  assert (Hldst : lookup st (dc ++ [k]) = None)
    by now rewrite (lookup_child _ _ _ _ Hdone).
  unfold Shutil.copy2, bind.
  rewrite (path_isdir_at _ _ _ Hdk), Hldst. cbn [is_dir].
  unfold Shutil.samefile, bind.
  rewrite (path_exists_at _ _ _ Hsk), (path_exists_at _ _ _ Hdk).
  rewrite Hlsrc, Hldst, Hsk, Hdk. cbn [andb ret].
  rewrite (read_bytes_at _ _ _ _ Hsk Hlsrc).
  unfold Os.write_bytes, with_path, change. rewrite Hdk.
  rewrite write_at_ok.
  - now rewrite (put_new_child _ _ _ _ _ Hdone Hf).
  - now destruct dc.
  - now apply (parent_is_dir_child _ _ _ done).
  - now rewrite Hldst.
Qed.

Lemma copy_entries_spec rec src dst sc dc all :
  resolve src = inr sc -> endswith_slash src = false ->
  resolve dst = inr dc -> endswith_slash dst = false ->
  diverge sc dc = true ->
  forall l,
    Forall (fun e => copies_tree rec (snd e)) l ->
    Forall (fun e => valid_name (fst e) = true /\ wf_node (snd e) = true) l ->
    NoDup (names l) ->
    (forall k m, In (k, m) l -> assoc k all = Some m) ->
    forall st done,
      lookup st sc = Some (Dir all) ->
      lookup st dc = Some (Dir done) ->
      (forall k, In k (names l) -> assoc k done = None) ->
      Shutil.copy_entries rec src dst l st
      = (put st dc (Dir (done ++ l)), inr false).
Proof.
  intros Hs Hst Hd Hdt Ha.
  induction l as [|[k m] l IH];
    intros Hrec Hwf Hnd Hin st done Hsrc Hdone Hfresh.
  - cbn [Shutil.copy_entries]. unfold ret.
    now rewrite app_nil_r, (put_same _ _ _ Hdone).
  - inversion Hrec as [|? ? Hrec1 Hrec2]; subst.
    inversion Hwf as [|? ? [Hk Hm] Hwf2]; subst.
    inversion Hnd as [|? ? Hk1 Hnd2]; subst.
    cbn [fst snd] in *.
    assert (Hstep : copy_step st src dst sc dc all done k m).
    { constructor; auto.
      - apply Hin. now left.
      - apply Hfresh. now left. }
    set (st1 := put st dc (Dir (done ++ [(k, m)]))).
    assert (H1 : match m with
                 | Dir _ => rec m (PosixPath.join src k) (PosixPath.join dst k)
                 | File _ =>
                     Shutil.copy2 (PosixPath.join src k) (PosixPath.join dst k)
                 end st = (st1, inr tt)).
    { destruct m as [c|es'].
      - now apply (copy2_step st src dst sc dc all done k c).
      - destruct (resolve_join _ _ _ Hs Hst Hk) as [Hsk Hskt].
        destruct (resolve_join _ _ _ Hd Hdt Hk) as [Hdk Hdkt].
        rewrite (Hrec1 st _ _ (sc ++ [k]) (dc ++ [k])); auto.
        + unfold st1. now rewrite (put_new_child _ _ _ _ _ Hdone) by apply Hstep.
        + now apply diverge_app.
        + rewrite (lookup_child _ _ _ _ Hsrc). apply Hstep.
        + rewrite (lookup_child _ _ _ _ Hdone). apply Hstep.
        + now destruct dc.
        + now apply (parent_is_dir_child _ _ _ done). }
    assert (Hpar : dc = [] \/ parent_is_dir st dc = true)
      by now apply (lookup_some_parent _ _ (Dir done)).
    assert (Hdone1 : lookup st1 dc = Some (Dir (done ++ [(k, m)])))
      by now apply lookup_put_same.
    assert (Hsrc1 : lookup st1 sc = Some (Dir all)).
    { unfold st1. rewrite lookup_put_diverge; auto.
      now rewrite diverge_sym. }
    cbn [Shutil.copy_entries]. unfold bind at 1.
    unfold Shutil.noting_errors. rewrite H1.
    unfold bind at 1.
    rewrite (IH Hrec2 Hwf2 Hnd2 (fun k' m' H => Hin k' m' (or_intror H))
               st1 (done ++ [(k, m)]) Hsrc1 Hdone1).
    + unfold ret, st1. cbn [orb].
      now rewrite put_twice, <- app_assoc.
    + intros k' Hk'. apply assoc_none_names. unfold names.
      rewrite map_app. cbn [map fst]. intros HI.
      apply in_app_or in HI as [HI | [-> | []]].
      * apply (proj1 (assoc_none_names k' done)); auto.
        apply Hfresh. now right.
      * now apply Hk1.
Qed.

Lemma in_assoc_nodup es k m :
  NoDup (names es) -> In (k, m) es -> assoc k es = Some m.
Proof.
  intros Hnd HI.
  induction es as [|[k0 m0] es IHes]; [destruct HI|].
  cbn [assoc]. inversion Hnd as [|? ? Hk0 Hnd']; subst.
  destruct HI as [[= -> ->]|HI]; [now rewrite String.eqb_refl|].
  destruct (String.eqb_spec k0 k) as [->|Hn]; [|auto].
  exfalso. apply Hk0. unfold names.
  change k with (fst (k, m)). now apply in_map.
Qed.

Lemma node_depth_entry k m es :
  In (k, m) es -> (S (node_depth m) <= node_depth (Dir es))%nat.
Proof.
  cbn [node_depth]. intros HI. apply le_n_S.
  induction es as [|[k0 m0] es IHes]; [destruct HI|].
  destruct HI as [[= -> ->]|HI]; [apply Nat.le_max_l|].
  etransitivity; [now apply IHes | apply Nat.le_max_r].
Qed.

(** [copytree] of a directory into a new place puts the very tree there,
    where the interpreter allows the levels the tree has. *)
Lemma copytree_node_spec n : forall room,
  (node_depth n <= room)%nat ->
  copies_tree (fun m s d => Shutil.copytree_node room m s d) n.
Proof.
  induction n as [c|es IH] using node_ind;
    intros room Hroom st src dst sc dc Hs Hst Hd Hdt Ha Hdir Hwf Hsrc Hnew
           Hne Hpar;
    [discriminate|].
  destruct room as [|room]; [cbn [node_depth] in Hroom; lia|].
  assert (IH' : Forall (fun e =>
                  copies_tree (fun m s d => Shutil.copytree_node room m s d)
                    (snd e)) es).
  { rewrite Forall_forall in *. intros [k m] HI. cbn [snd].
    apply (IH (k, m) HI). cbn [snd].
    pose proof (node_depth_entry k m es HI). lia. }
  apply wf_node_dir in Hwf as [Hnd Hall].
  cbn [Shutil.copytree_node]. unfold bind at 1.
  rewrite (makedirs_fresh _ _ _ _ Hd Hne Hpar Hnew).
  unfold bind at 1.
  rewrite (copy_entries_spec _ src dst sc dc es Hs Hst Hd Hdt Ha es IH' Hall Hnd)
    with (done := []).
  - cbn [app]. now rewrite put_twice.
  - intros k m HI. now apply in_assoc_nodup.
  - rewrite lookup_put_diverge; auto. now rewrite diverge_sym.
  - apply lookup_put_same. now right.
  - reflexivity.
Qed.

(** The loop of [fs_snapshot] fills the destination with the entries of
    the source. *)
Lemma snapshot_items_spec src dst sc dc all :
  resolve src = inr sc -> endswith_slash src = false ->
  resolve dst = inr dc -> endswith_slash dst = false ->
  diverge sc dc = true ->
  forall l,
    Forall (fun e => valid_name (fst e) = true /\ wf_node (snd e) = true) l ->
    NoDup (names l) ->
    Forall (fun e => (node_depth (snd e) <= Shutil.COPYTREE_LEVELS)%nat) l ->
    (forall k m, In (k, m) l -> assoc k all = Some m) ->
    forall st done,
      lookup st sc = Some (Dir all) ->
      lookup st dc = Some (Dir done) ->
      (forall k, In k (names l) -> assoc k done = None) ->
      snapshot_items src dst (names l) st
      = (put st dc (Dir (done ++ l)), inr tt).
Proof.
  intros Hs Hst Hd Hdt Ha.
  induction l as [|[k m] l IH];
    intros Hwf Hnd Hdeep Hin st done Hsrc Hdone Hfresh.
  - cbn [names map snapshot_items]. unfold ret.
    now rewrite app_nil_r, (put_same _ _ _ Hdone).
  - inversion Hwf as [|? ? [Hk Hm] Hwf2]; subst.
    inversion Hnd as [|? ? Hk1 Hnd2]; subst.
    inversion Hdeep as [|? ? Hdeep1 Hdeep2]; subst.
    cbn [fst snd] in *.
    assert (Hstep : copy_step st src dst sc dc all done k m).
    { constructor; auto.
      - apply Hin. now left.
      - apply Hfresh. now left. }
    destruct (resolve_join _ _ _ Hs Hst Hk) as [Hsk Hskt].
    destruct (resolve_join _ _ _ Hd Hdt Hk) as [Hdk Hdkt].
    assert (Hlsrc : lookup st (sc ++ [k]) = Some m).
    { rewrite (lookup_child _ _ _ _ Hsrc). apply Hstep. }
    set (st1 := put st dc (Dir (done ++ [(k, m)]))).
    assert (Hpar : dc = [] \/ parent_is_dir st dc = true)
      by now apply (lookup_some_parent _ _ (Dir done)).
    assert (Hdone1 : lookup st1 dc = Some (Dir (done ++ [(k, m)])))
      by now apply lookup_put_same.
    assert (Hsrc1 : lookup st1 sc = Some (Dir all)).
    { unfold st1. rewrite lookup_put_diverge; auto.
      now rewrite diverge_sym. }
    cbn [names map fst snapshot_items]. unfold bind at 1.
    rewrite (path_isdir_at _ _ _ Hsk), Hlsrc.
    assert (H1 : (if is_dir (Some m)
                  then Shutil.copytree (PosixPath.join src k)
                         (PosixPath.join dst k)
                  else Shutil.copy2 (PosixPath.join src k)
                         (PosixPath.join dst k)) st = (st1, inr tt)).
    { destruct m as [c|es'].
      - now apply (copy2_step st src dst sc dc all done k c).
      - cbn [is_dir]. unfold Shutil.copytree, with_path. rewrite Hsk.
        apply walk_lookup in Hlsrc. rewrite Hlsrc.
        rewrite (copytree_node_spec (Dir es') _ Hdeep1
                   st _ _ (sc ++ [k]) (dc ++ [k]));
          auto.
        + unfold st1.
          now rewrite (put_new_child _ _ _ _ _ Hdone) by apply Hstep.
        + now apply diverge_app.
        + now apply walk_lookup.
        + rewrite (lookup_child _ _ _ _ Hdone). apply Hstep.
        + now destruct dc.
        + now apply (parent_is_dir_child _ _ _ done). }
    unfold bind at 1. rewrite H1.
    change (map fst l) with (names l).
    rewrite (IH Hwf2 Hnd2 Hdeep2 (fun k' m' H => Hin k' m' (or_intror H))
               st1 (done ++ [(k, m)]) Hsrc1 Hdone1).
    + unfold st1. now rewrite put_twice, <- app_assoc.
    + intros k' Hk'. apply assoc_none_names. unfold names.
      rewrite map_app. cbn [map fst]. intros HI.
      apply in_app_or in HI as [HI | [-> | []]].
      * apply (proj1 (assoc_none_names k' done)); auto.
        apply Hfresh. now right.
      * now apply Hk1.
Qed.

Lemma copytree_levels : Shutil.COPYTREE_LEVELS = 499%nat.
Proof. reflexivity. Qed.

(** The entries of a directory of safe depth are within what [copytree]
    can go down. *)
Lemma entries_within_levels fs p all :
  lookup fs p = Some (Dir all) ->
  (depth_at fs p <= SAFE_DEPTH)%nat ->
  Forall (fun e => (node_depth (snd e) <= Shutil.COPYTREE_LEVELS)%nat) all.
Proof.
  unfold depth_at, SAFE_DEPTH. intros -> H. rewrite copytree_levels.
  apply Forall_forall. intros [k m] HI. cbn [snd].
  pose proof (node_depth_entry k m all HI). lia.
Qed.

End Snapshot.

(** ** Where the copy stops *)

Section TooDeep.
Import FS FSFacts OsFacts PyIntFacts ResolveFacts.

Lemma chain_is_dir j l : exists es, chain j (Dir l) = Dir es.
Proof. destruct j; cbn [chain]; eauto. Qed.

Lemma valid_name_d : valid_name "d" = true.
Proof. reflexivity. Qed.

(** [copytree] of directories nested deeper than the interpreter allows
    makes the directories down to the last level it can enter and raises
    [RecursionError]. *)
Lemma copytree_node_too_deep r : forall j leaf src dst dc st,
  (r <= j)%nat ->
  resolve dst = inr dc -> PyStr.endswith_slash dst = false ->
  dc <> [] -> parent_is_dir st dc = true -> lookup st dc = None ->
  Shutil.copytree_node (S r) (chain (S j) (Dir leaf)) src dst st
  = (put st dc (chain r (Dir [])), inl RecursionError).
Proof.
  induction r as [|r IH]; intros j leaf src dst dc st Hj Hd Hdt Hne Hpar Hnew.
  - cbn [chain Shutil.copytree_node]. unfold bind at 1.
    rewrite (makedirs_fresh _ _ _ _ Hd Hne Hpar Hnew).
    unfold bind at 1. cbn [Shutil.copy_entries].
    destruct (chain_is_dir j leaf) as [es ->].
    unfold bind at 1. unfold Shutil.noting_errors.
    cbn [Shutil.copytree_node]. unfold raise. reflexivity.
  - destruct j as [|j]; [lia|].
    assert (Hdone : lookup (put st dc (Dir [])) dc = Some (Dir []))
      by (apply lookup_put_same; now right).
    destruct (resolve_join _ _ _ Hd Hdt valid_name_d) as [Hdk Hdkt].
    change (chain (S (S j)) (Dir leaf))
      with (Dir [("d", chain (S j) (Dir leaf))]).
    cbn [Shutil.copytree_node]. unfold bind at 1.
    rewrite (makedirs_fresh _ _ _ _ Hd Hne Hpar Hnew).
    unfold bind at 1. cbn [Shutil.copy_entries].
    change (chain (S j) (Dir leaf)) with (Dir [("d", chain j (Dir leaf))]) at 1.
    cbv iota.
    unfold bind at 1. unfold Shutil.noting_errors.
    change (Dir [("d", chain j (Dir leaf))]) with (chain (S j) (Dir leaf)).
    rewrite (IH j leaf _ _ (dc ++ ["d"]) (put st dc (Dir []))); auto.
    + cbn [is_os_error orb].
      rewrite (put_new_child _ _ _ _ _ Hdone eq_refl). cbn [app].
      now rewrite put_twice.
    + lia.
    + now destruct dc.
    + now apply (parent_is_dir_child _ _ _ []).
    + now rewrite (lookup_child _ _ _ _ Hdone).
Qed.

(** [fs_snapshot] of a revision that is such a chain. *)
Lemma fs_snapshot_too_deep fs h j leaf :
  wf_store fs h -> (498 <= j)%nat ->
  lookup fs (rev_components h)
  = Some (Dir [("d", chain (S j) (Dir leaf))]) ->
  fs_snapshot fs
  = (put (allocated fs (h + 1)) (rev_components (h + 1) ++ ["d"])
         (chain 498 (Dir [])),
     inl RecursionError).
Proof.
  intros Hwf Hj Hall.
  pose proof Hwf as (Hpos & Hh & Hin & Hout).
  destruct (head_is_root _ _ Hh) as [es Hroot].
  assert (Hrootd : is_dir (lookup fs root_components) = true)
    by now rewrite Hroot.
  destruct (resolve_safe_name _ (str_valid_name h)) as [Hs Hst].
  destruct (resolve_safe_name _ (str_valid_name (h + 1))) as [Hd Hdt].
  change ["decisions"; PyInt.str h] with (rev_components h) in Hs.
  change ["decisions"; PyInt.str (h + 1)] with (rev_components (h + 1)) in Hd.
  destruct (bump_rev_wf _ _ Hwf) as [Hrun Hwf1].
  set (st0 := allocated fs (h + 1)) in *.
  assert (Hsrc0 : lookup st0 (rev_components h)
                  = Some (Dir [("d", chain (S j) (Dir leaf))])).
  { unfold st0. rewrite allocated_rev_other by lia. exact Hall. }
  assert (Hdst0 : lookup st0 (rev_components (h + 1)) = Some (Dir [])).
  { unfold st0. now apply allocated_rev_same. }
  destruct (resolve_join _ _ _ Hs Hst valid_name_d) as [Hsk Hskt].
  destruct (resolve_join _ _ _ Hd Hdt valid_name_d) as [Hdk Hdkt].
  assert (Hitem : lookup st0 (rev_components h ++ ["d"])
                  = Some (chain (S j) (Dir leaf)))
    by (rewrite (lookup_child _ _ _ _ Hsrc0); reflexivity).
  unfold fs_snapshot. unfold bind at 1.
  rewrite (current_rev_head_is _ _ Hh).
  unfold bind at 1. rewrite Hrun.
  unfold bind at 1.
  rewrite (makedirs_present _ _ _ Hd) by (now rewrite Hdst0).
  unfold bind at 1.
  unfold Os.listdir, with_path, query. rewrite Hs.
  rewrite (proj2 (walk_lookup _ _ _) Hsrc0).
  cbn [names map fst snapshot_items].
  unfold bind at 1. unfold bind at 1.
  rewrite (path_isdir_at _ _ _ Hsk), Hitem.
  change (is_dir (Some (chain (S j) (Dir leaf)))) with true. cbv iota.
  unfold bind at 1.
  unfold Shutil.copytree, with_path. rewrite Hsk.
  rewrite (proj2 (walk_lookup _ _ _) Hitem).
  rewrite copytree_levels.
  rewrite (copytree_node_too_deep 498 j leaf _ _ (rev_components (h + 1) ++ ["d"]));
    auto.
  - discriminate.
  - now apply (parent_is_dir_child _ _ _ []).
  - now rewrite (lookup_child _ _ _ _ Hdst0).
Qed.

End TooDeep.




Example snapshot_sample :
  fs_snapshot sample_store
  = (Dir [("decisions",
           Dir [("0", Dir [("notes.txt", File crlf_text);
                           ("a", Dir [("b.txt", File "hello")])]);
                ("HEAD", File "1");
                ("1", Dir [("notes.txt", File crlf_text);
                           ("a", Dir [("b.txt", File "hello")])])])],
     inr (JObj [("id", JInt 1)])).
Proof. reflexivity. Qed.

(** ** Listings *)

Module StringOrder.
Import PyStr.

Lemma ltb_empty_r a : ltb a "" = false.
Proof. now destruct a. Qed.

Lemma ltb_irrefl a : ltb a a = false.
Proof.
  induction a as [|x a IH]; [reflexivity|]. cbn [ltb].
  now rewrite Nat.ltb_irrefl, Nat.eqb_refl, IH.
Qed.

(** [a < b] gives [not (b < a)]. *)
Lemma ltb_asym a : forall b, ltb a b = true -> ltb b a = false.
Proof.
  induction a as [|x a IH]; intros [|y b] H; try reflexivity;
    try discriminate.
  cbn [ltb] in *.
  apply orb_true_iff in H as [H | H].
  - apply Nat.ltb_lt in H.
    rewrite (proj2 (Nat.ltb_ge _ _)) by lia.
    rewrite (proj2 (Nat.eqb_neq _ _)) by lia. reflexivity.
  - apply andb_true_iff in H as [E H]. apply Nat.eqb_eq in E.
    rewrite E, Nat.ltb_irrefl, Nat.eqb_refl. cbn [orb andb]. auto.
Qed.

(** [not (b < a)] and [not (c < b)] give [not (c < a)]. *)
Lemma ltb_le_trans a : forall b c,
  ltb b a = false -> ltb c b = false -> ltb c a = false.
Proof.
  induction a as [|x a IH]; intros b c H1 H2; [apply ltb_empty_r|].
  destruct b as [|y b]; [now destruct x|].
  destruct c as [|z c]; [discriminate|].
  cbn [ltb] in *.
  apply orb_false_iff in H1 as [L1 E1]. apply orb_false_iff in H2 as [L2 E2].
  apply Nat.ltb_ge in L1, L2.
  apply orb_false_iff. split; [apply Nat.ltb_ge; lia|].
  destruct (Nat.eqb_spec (nat_of_ascii z) (nat_of_ascii x)) as [E|]; auto.
  cbn [andb].
  assert (Ey : nat_of_ascii y = nat_of_ascii x) by lia.
  assert (Ez : nat_of_ascii z = nat_of_ascii y) by lia.
  rewrite Ey, Nat.eqb_refl in E1. rewrite Ez, Nat.eqb_refl in E2.
  cbn [andb] in E1, E2. now apply (IH b c).
Qed.

(** Of two different strings one is smaller. *)
Lemma ltb_total a : forall b,
  ltb a b = false -> ltb b a = false -> a = b.
Proof.
  induction a as [|x a IH]; intros [|y b] H1 H2; try reflexivity;
    try discriminate.
  cbn [ltb] in *.
  apply orb_false_iff in H1 as [L1 E1]. apply orb_false_iff in H2 as [L2 E2].
  apply Nat.ltb_ge in L1, L2.
  assert (E : nat_of_ascii x = nat_of_ascii y) by lia.
  rewrite E, Nat.eqb_refl in E1, E2. cbn [andb] in E1, E2.
  f_equal; [|now apply IH].
  rewrite <- (ascii_nat_embedding x), <- (ascii_nat_embedding y).
  now rewrite E.
Qed.

End StringOrder.

Section ListingFacts.
Variable Time : Type.
Variable st_mtime : string -> Time.

#[local] Abbreviation Node := (ApiNode Time).

Lemma levels_of_children (n : Node) cs :
  children n = Some cs -> levels_of n = all_levels cs.
Proof.
  destruct n as [nm pa d mt sz ch]. cbn [children]. intros ->.
  reflexivity.
Qed.

Lemma levels_of_leaf (n : Node) : children n = None -> levels_of n = [].
Proof. destruct n as [nm pa d mt sz ch]. cbn [children]. now intros ->. Qed.

Lemma key_ltb_ordered (a b : Node) :
  key_ltb (sort_key b) (sort_key a) = false <-> ordered_pair a b.
Proof.
  unfold key_ltb, sort_key, ordered_pair. cbn [fst snd].
  destruct (isDirectory a), (isDirectory b); cbn;
    destruct (PyStr.ltb _ _); intuition congruence.
Qed.

Lemma key_ltb_asym (a b : Node) :
  key_ltb (sort_key a) (sort_key b) = true ->
  key_ltb (sort_key b) (sort_key a) = false.
Proof.
  unfold key_ltb, sort_key. cbn [fst snd].
  destruct (isDirectory a), (isDirectory b); cbn; auto;
    apply StringOrder.ltb_asym.
Qed.

Lemma ordered_pair_trans (a b c : Node) :
  ordered_pair a b -> ordered_pair b c -> ordered_pair a c.
Proof.
  unfold ordered_pair. intros [D1 L1] [D2 L2]. split; [auto|].
  intros E.
  destruct (isDirectory a) eqn:Ea, (isDirectory b) eqn:Eb,
    (isDirectory c) eqn:Ec; try discriminate;
    try (specialize (D1 eq_refl); discriminate);
    try (specialize (D2 eq_refl); discriminate);
    apply (StringOrder.ltb_le_trans _ (PyStr.lower (name b))); auto.
Qed.

Lemma insert_node_perm (x : Node) l : Permutation (insert_node x l) (x :: l).
Proof.
  induction l as [|y l IH]; cbn [insert_node]; [reflexivity|].
  destruct (key_ltb _ _); [|reflexivity].
  rewrite IH. apply perm_swap.
Qed.

Lemma sort_nodes_perm (l : list Node) : Permutation (sort_nodes l) l.
Proof.
  induction l as [|x l IH]; cbn [sort_nodes fold_right]; [reflexivity|].
  fold (sort_nodes l). rewrite insert_node_perm. now constructor.
Qed.

Lemma insert_node_sorted (x : Node) l :
  StronglySorted ordered_pair l ->
  StronglySorted ordered_pair (insert_node x l).
Proof.
  induction l as [|y l IH]; intros H; cbn [insert_node].
  - repeat constructor.
  - apply StronglySorted_inv in H as [Hl Hy].
    destruct (key_ltb (sort_key y) (sort_key x)) eqn:E.
    + constructor; [auto|].
      apply (Permutation_Forall (Permutation_sym (insert_node_perm x l))).
      constructor; [|exact Hy].
      now apply key_ltb_ordered, key_ltb_asym.
    + apply key_ltb_ordered in E.
      constructor; [now constructor|].
      constructor; [exact E|].
      eapply Forall_impl; [|exact Hy].
      intros z Hz. now apply (ordered_pair_trans x y z).
Qed.

Lemma sort_nodes_sorted (l : list Node) :
  StronglySorted ordered_pair (sort_nodes l).
Proof.
  induction l as [|x l IH]; cbn [sort_nodes fold_right]; [constructor|].
  now apply insert_node_sorted.
Qed.

Lemma build_dir_nil root rel : build_dir st_mtime (Dir []) root rel = [].
Proof. reflexivity. Qed.

Lemma build_dir_cons nm m es root rel :
  build_dir st_mtime (Dir ((nm, m) :: es)) root rel
  = insert_node (entry_node st_mtime root rel nm m)
      (build_dir st_mtime (Dir es) root rel).
Proof. reflexivity. Qed.

(** A listing is the entries of the directory, in some order. *)
Lemma build_dir_perm es root rel :
  Permutation (build_dir st_mtime (Dir es) root rel)
    (map (fun e => entry_node st_mtime root rel (fst e) (snd e)) es).
Proof.
  induction es as [|[nm m] es IH]; [reflexivity|].
  rewrite build_dir_cons, insert_node_perm. cbn [map fst snd].
  now constructor.
Qed.

Lemma build_dir_sorted d root rel :
  StronglySorted ordered_pair (build_dir st_mtime d root rel).
Proof.
  destruct d as [c|es]; [constructor|].
  induction es as [|[nm m] es IH]; [constructor|].
  rewrite build_dir_cons. now apply insert_node_sorted.
Qed.

Lemma build_dir_levels d : forall root rel,
  Forall (StronglySorted ordered_pair)
    (all_levels (build_dir st_mtime d root rel)).
Proof.
  induction d as [c|es IH] using node_ind; intros root rel.
  - repeat constructor.
  - unfold all_levels. constructor; [apply build_dir_sorted|].
    apply Forall_forall. intros lv Hlv.
    apply in_flat_map in Hlv as (x & Hx & Hlv).
    apply (Permutation_in _ (build_dir_perm es root rel)) in Hx.
    apply in_map_iff in Hx as ([nm m] & <- & He).
    rewrite Forall_forall in IH. specialize (IH _ He). cbn [fst snd] in *.
    destruct m as [c|es'].
    + rewrite levels_of_leaf in Hlv by reflexivity. destruct Hlv.
    + rewrite (levels_of_children (entry_node st_mtime root rel nm (Dir es'))
                 (build_dir st_mtime (Dir es') (PosixPath.join root nm)
                    (PosixPath.join rel nm)) eq_refl) in Hlv.
      specialize (IH (PosixPath.join root nm) (PosixPath.join rel nm)).
      rewrite Forall_forall in IH. now apply IH.
Qed.

(** [build_tree] only reads. *)
Lemma build_tree_reads root rel fs :
  fst (build_tree st_mtime root rel fs) = fs.
Proof.
  unfold build_tree, with_path. destruct (FS.resolve root); reflexivity.
Qed.

End ListingFacts.


(** ** Listings and the order of enumeration *)

Section ScanOrder.
Variable Time : Type.
Variable st_mtime : string -> Time.

#[local] Abbreviation Node := (ApiNode Time).

Lemma distinctb_NoDup l : distinctb l = true -> NoDup l.
Proof.
  induction l as [|x l IH]; cbn [distinctb]; intros H; constructor.
  - apply andb_true_iff in H as [H _]. apply negb_true_iff in H.
    intros HI. assert (existsb (key_eqb x) l = true); [|congruence].
    apply existsb_exists. exists x. split; [exact HI|].
    unfold key_eqb. now rewrite Bool.eqb_reflx, String.eqb_refl.
  - apply IH. now apply andb_true_iff in H as [_ H].
Qed.

Lemma distinct_keys_dir es :
  distinct_keys (Dir es) = true ->
  NoDup (map entry_key es)
  /\ Forall (fun e => distinct_keys (snd e) = true) es.
Proof.
  cbn [distinct_keys]. intros H. apply andb_true_iff in H as [Hn He].
  split; [now apply distinctb_NoDup|]. clear Hn.
  induction es as [|[k m] es IH]; constructor.
  - now apply andb_true_iff in He as [He _].
  - apply IH. now apply andb_true_iff in He as [_ He].
Qed.

(** Two nodes each of which may stand before the other have the same
    key. *)
Lemma ordered_pair_antisym (a b : Node) :
  ordered_pair a b -> ordered_pair b a -> sort_key a = sort_key b.
Proof.
  unfold ordered_pair, sort_key. intros [D1 L1] [D2 L2].
  assert (E : isDirectory a = isDirectory b).
  { destruct (isDirectory a), (isDirectory b); intuition congruence. }
  rewrite E. f_equal.
  apply StringOrder.ltb_total; auto.
Qed.

(** Two sorted lists with the same nodes, whose keys are all different, are
    the same list. *)
Lemma sorted_perm_unique (l1 : list Node) : forall l2,
  StronglySorted ordered_pair l1 -> StronglySorted ordered_pair l2 ->
  Permutation l1 l2 -> NoDup (map sort_key l1) -> l1 = l2.
Proof.
  induction l1 as [|a l1 IH]; intros l2 S1 S2 P N.
  - apply Permutation_nil in P. now subst.
  - destruct l2 as [|b l2];
      [apply Permutation_sym, Permutation_nil in P; discriminate|].
    apply StronglySorted_inv in S1 as [S1 A1].
    apply StronglySorted_inv in S2 as [S2 A2].
    cbn [map] in N. inversion N as [|? ? Na N']; subst.
    assert (E : a = b).
    { assert (Ha : In a (b :: l2))
        by (apply (Permutation_in _ P); now left).
      assert (Hb : In b (a :: l1))
        by (apply (Permutation_in _ (Permutation_sym P)); now left).
      destruct Ha as [Ha|Ha]; [now symmetry|].
      destruct Hb as [Hb|Hb]; [exact Hb|].
      exfalso. apply Na.
      rewrite Forall_forall in A1, A2.
      rewrite (ordered_pair_antisym a b (A1 _ Hb) (A2 _ Ha)).
      now apply in_map. }
    subst b. f_equal. apply IH; auto.
    now apply (Permutation_cons_inv (a := a)).
Qed.

Lemma entry_node_key root rel e :
  sort_key (entry_node st_mtime root rel (fst e) (snd e)) = entry_key e.
Proof. destruct e as [k [c|es]]; reflexivity. Qed.

(** The listing of a directory is the same for every order in which its
    entries, and those of the directories below, are enumerated, as long as
    no two siblings have the same sort key. *)
Lemma build_dir_scan_order :
  forall d1 d2, same_entries d1 d2 ->
    distinct_keys d1 = true ->
    forall root rel,
      build_dir st_mtime d1 root rel = build_dir st_mtime d2 root rel.
Proof.
  apply (same_entries_mind
    (fun d1 d2 => distinct_keys d1 = true ->
       forall root rel,
         build_dir st_mtime d1 root rel = build_dir st_mtime d2 root rel)
    (fun l1 l2 => Forall (fun e => distinct_keys (snd e) = true) l1 ->
       forall root rel,
         map (fun e => entry_node st_mtime root rel (fst e) (snd e)) l1
         = map (fun e => entry_node st_mtime root rel (fst e) (snd e)) l2)).
  - reflexivity.
  - intros es1 es es2 Hperm _ IHl Hd root rel.
    apply distinct_keys_dir in Hd as [Hnd Hch].
    assert (Hch' : Forall (fun e => distinct_keys (snd e) = true) es)
      by (apply (Permutation_Forall Hperm); exact Hch).
    specialize (IHl Hch' root rel).
    apply sorted_perm_unique.
    + apply build_dir_sorted.
    + apply build_dir_sorted.
    + rewrite (build_dir_perm Time st_mtime es1 root rel).
      rewrite (build_dir_perm Time st_mtime es2 root rel).
      rewrite <- IHl. now apply Permutation_map.
    + apply (Permutation_NoDup
               (l := map sort_key
                       (map (fun e => entry_node st_mtime root rel
                                        (fst e) (snd e)) es1))).
      * apply Permutation_map, Permutation_sym, build_dir_perm.
      * rewrite map_map.
        rewrite (map_ext _ entry_key (entry_node_key root rel)). exact Hnd.
  - reflexivity.
  - intros k m1 m2 l1 l2 Hm IHm _ IHl Hall root rel.
    inversion Hall as [|? ? Hd1 Hall']; subst. cbn [snd] in Hd1.
    cbn [map fst snd]. rewrite (IHl Hall' root rel). f_equal.
    inversion Hm; subst; [reflexivity|].
    unfold entry_node. f_equal. f_equal. now apply IHm.
Qed.

End ScanOrder.

Section SameEntries.

Lemma same_list_refl l :
  Forall (fun e => same_entries (snd e) (snd e)) l -> same_list l l.
Proof.
  induction 1 as [|[k m] l Hm _ IH]; constructor; auto.
Qed.

Lemma same_entries_refl n : same_entries n n.
Proof.
  induction n as [c|es IH] using node_ind; [constructor|].
  apply (same_dir es es es); [reflexivity | now apply same_list_refl].
Qed.

End SameEntries.

Section ListingOrder.
Variable Time : Type.

Lemma lower_char_small c : PyStr.lower_char c = small_letter c.
Proof. destruct c as [[] [] [] [] [] [] [] []]; reflexivity. Qed.

Lemma lower_small s : PyStr.lower s = small_letters s.
Proof.
  induction s as [|c s IH]; [reflexivity|].
  cbn [PyStr.lower small_letters]. now rewrite lower_char_small, IH.
Qed.

(** The order of the sort key is the order of the specification. *)
Lemma ordered_pair_in_order (a b : ApiNode Time) :
  ordered_pair a b -> in_listing_order a b.
Proof.
  unfold ordered_pair, in_listing_order, caseless_ltb.
  now rewrite !lower_small.
Qed.

Lemma sorted_in_order (l : list (ApiNode Time)) :
  StronglySorted ordered_pair l -> StronglySorted in_listing_order l.
Proof.
  induction 1 as [|a l _ IH Ha]; constructor; [exact IH|].
  eapply Forall_impl; [|exact Ha]. intros b. apply ordered_pair_in_order.
Qed.

End ListingOrder.

(** C4, as stated, fails.  Two storage roots hold the same two files, [A]
    and [a], and differ in the order in which the directory is enumerated;
    the listing of the one is [A], [a], that of the other [a], [A]. *)
Lemma listing_follows_scan_order :
  same_entries capital_first_store capital_last_store
  /\ exists t1 t2,
       build_tree (fun _ => tt) "decisions" "" capital_first_store
       = (capital_first_store, inr t1)
       /\ build_tree (fun _ => tt) "decisions" "" capital_last_store
          = (capital_last_store, inr t2)
       /\ map name t1 = ["A"; "a"] /\ map name t2 = ["a"; "A"]
       /\ t1 <> t2.
Proof.
  split.
  - apply (same_dir _ [("decisions", Dir [("A", File ""); ("a", File "")])]);
      [reflexivity|].
    constructor; [|constructor].
    apply (same_dir _ [("a", File ""); ("A", File "")]);
      [apply perm_swap|].
    repeat constructor.
  - eexists. eexists. split; [reflexivity|]. split; [reflexivity|].
    split; [reflexivity|]. split; [reflexivity|]. discriminate.
Qed.

(** C4, amended.  A listing [build_tree] answers is ordered at every level:
    among the siblings no file stands before a directory, and among the
    directories and among the files no entry stands before one that comes
    earlier in the alphabet, case set aside.  The listing leaves the state
    as it is.  Where no two sibling directories and no two sibling files
    have names that differ by case only, every state that has the same
    entries at the listed path, enumerated in whatever order, gives the
    same sequence of nodes. *)
Theorem build_tree_ordered (Time : Type) (st_mtime : string -> Time)
    root rel fs fs' tree :
  build_tree st_mtime root rel fs = (fs', inr tree) ->
  Forall (StronglySorted in_listing_order) (all_levels tree)
  /\ fs' = fs
  /\ exists p d,
       FS.resolve root = inr p /\ FS.lookup fs p = Some d
       /\ tree = build_dir st_mtime d root rel
       /\ forall fs2 d2,
            FS.lookup fs2 p = Some d2 ->
            same_entries d d2 -> distinct_keys d = true ->
            build_tree st_mtime root rel fs2 = (fs2, inr tree).
Proof.
  intros H.
  assert (Hfs : fs' = fs).
  { pose proof (build_tree_reads Time st_mtime root rel fs) as R.
    now rewrite H in R. }
  subst fs'.
  unfold build_tree, with_path in H.
  destruct (FS.resolve root) as [e|p] eqn:Hr; [discriminate|].
  unfold query in H.
  destruct (FS.walk fs p) as [e|[c|es]] eqn:Hw; try discriminate.
  injection H as <-.
  split.
  { eapply Forall_impl; [|apply build_dir_levels].
    intros l. apply sorted_in_order. }
  split; [reflexivity|].
  exists p, (Dir es). split; [reflexivity|].
  split; [now apply FSFacts.walk_lookup|]. split; [reflexivity|].
  intros fs2 d2 Hl2 Hsame Hkeys.
  unfold build_tree, with_path, query. rewrite Hr.
  rewrite (proj2 (FSFacts.walk_lookup _ _ _) Hl2).
  inversion Hsame as [|es1 es0 es2 Hperm Hlist]; subst.
  unfold build_nodes. do 2 f_equal. symmetry.
  now apply build_dir_scan_order.
Qed.

Lemma build_tree_ordered_witness :
  exists tree,
    build_tree (fun _ => tt) "decisions" "" mixed_case_store
    = (mixed_case_store, inr tree)
    /\ map name tree = ["apple"; "Zed"; "a.txt"; "b.txt"; "C.txt"]
    /\ map (fun n => option_map (map name) (children n)) tree
       = [Some []; Some ["P"; "q"]; None; None; None]
    /\ Forall (StronglySorted in_listing_order) (all_levels tree).
Proof.
  eexists. split; [reflexivity|]. split; [reflexivity|].
  split; [reflexivity|].
  exact (proj1 (build_tree_ordered unit (fun _ => tt) "decisions" ""
                  mixed_case_store mixed_case_store _ eq_refl)).
Defined.

(** ** Deleting and renaming *)

Section DeleteFacts.
Import FS FSFacts OsFacts.

(** A change at a place that holds nothing, where the change asks for
    something to be there, fails as the operating system does: [ENOENT], or
    [ENOTDIR] where a regular file stands on the way. *)
Lemma update_at_missing f p : forall n,
  p <> [] -> lookup n p = None -> f None = inl FileNotFoundError ->
  update_at n p f = inl FileNotFoundError
  \/ update_at n p f = inl NotADirectoryError.
Proof.
  induction p as [|c p IH]; intros n Hp Hl Hf; [congruence|].
  destruct n as [x|es]; [now right|].
  destruct p as [|d p].
  - rewrite lookup_single in Hl. rewrite update_at_single, Hl, Hf. now left.
  - rewrite lookup_cons in Hl. rewrite update_at_deeper.
    destruct (assoc c es) as [m|]; [|now left].
    destruct (IH m ltac:(discriminate) Hl Hf) as [-> | ->]; auto.
Qed.

(** [fs_delete] of a target that is not there never answers 404: the
    exception of [os.remove] goes up as it is, and the state stays. *)
Lemma fs_delete_missing path p fs :
  resolve (safe_path path) = inr p -> lookup fs p = None ->
  fs_delete path fs = (fs, inl FileNotFoundError)
  \/ fs_delete path fs = (fs, inl NotADirectoryError).
Proof.
  intros Hr Hl. unfold fs_delete, bind.
  rewrite (path_isdir_at _ _ _ Hr), Hl. cbn [is_dir].
  unfold Os.remove, with_path, change. rewrite Hr.
  assert (Hp : p <> []) by (intros ->; discriminate).
  unfold remove_at. destruct p as [|c p]; [congruence|].
  destruct (update_at_missing
              (fun cur => match cur with
                          | None => inl FileNotFoundError
                          | Some (Dir _) => inl IsADirectoryError
                          | Some (File _) => inr None
                          end) (c :: p) fs Hp Hl eq_refl) as [-> | ->]; auto.
Qed.

(** A removal at a place that holds something leaves nothing there nor
    below. *)
Lemma update_at_remove f p : forall n m,
  p <> [] -> lookup n p = Some m -> f (Some m) = inr None ->
  exists n', update_at n p f = inr n'
             /\ forall q, lookup n' (p ++ q) = None.
Proof.
  induction p as [|c p IH]; intros n m Hp Hl Hf; [congruence|].
  destruct n as [x|es]; [discriminate|].
  rewrite lookup_cons in Hl.
  destruct (assoc c es) as [k|] eqn:E; [|discriminate].
  destruct p as [|d p].
  - cbn in Hl. injection Hl as ->.
    exists (Dir (del_entry c es)). split.
    + now rewrite update_at_single, E, Hf.
    + intros q. cbn [app]. now rewrite lookup_cons, assoc_del_same.
  - destruct (IH k m ltac:(discriminate) Hl Hf) as (k' & Hu & Hq).
    exists (Dir (set_entry c k' es)). split.
    + now rewrite update_at_deeper, E, Hu.
    + intros q. cbn [app]. rewrite lookup_cons, assoc_set_same.
      apply (Hq q).
Qed.

(** [fs_delete] of a target that is there, other than the working
    directory: the file goes, or the directory with all that is below it,
    and the answer is 204. *)
Lemma fs_delete_existing path p fs m :
  resolve (safe_path path) = inr p -> p <> [] -> lookup fs p = Some m ->
  exists fs',
    fs_delete path fs = (fs', inr ("", 204%Z))
    /\ forall q, lookup fs' (p ++ q) = None.
Proof.
  intros Hr Hp Hl. unfold fs_delete, bind.
  rewrite (path_isdir_at _ _ _ Hr), Hl.
  destruct m as [c|es]; cbn [is_dir].
  - unfold Os.remove, with_path, change. rewrite Hr.
    unfold remove_at. destruct p as [|a p]; [congruence|].
    match goal with
    | |- context [update_at fs (a :: p) ?f] =>
        destruct (update_at_remove f _ _ _ Hp Hl eq_refl) as (fs' & -> & Hq)
    end.
    now exists fs'.
  - unfold Shutil.rmtree, with_path, change. rewrite Hr.
    destruct p as [|a p]; [congruence|].
    unfold rmtree_at.
    match goal with
    | |- context [update_at fs (a :: p) ?f] =>
        destruct (update_at_remove f _ _ _ Hp Hl eq_refl) as (fs' & -> & Hq)
    end.
    now exists fs'.
Qed.

End DeleteFacts.

Example fs_delete_file :
  fs_delete "0/f" file_store = (fresh_store, inr ("", 204%Z)).
Proof. reflexivity. Qed.

Example fs_delete_directory :
  fs_delete "0/a" sample_store
  = (Dir [("decisions",
           Dir [("0", Dir [("notes.txt", File crlf_text)]);
                ("HEAD", File "0")])],
     inr ("", 204%Z)).
Proof. reflexivity. Qed.

Example fs_rename_moves :
  fs_rename "0/f" "0/g/h" file_store
  = (Dir [("decisions",
           Dir [("0", Dir [("g", Dir [("h", File "x")])]);
                ("HEAD", File "0")])],
     inr ("", 204%Z)).
Proof. reflexivity. Qed.

(** C6 on the code.  With the regular file [0/f] in the store, the target
    of ["0/f/x"] does not exist ([os.path.exists] is false) and [fs_delete]
    ends with the uncaught [NotADirectoryError]; for ["0/nope"] it ends with
    the uncaught [FileNotFoundError].  [fs_read], which tests
    [os.path.exists] first, answers 404 for both.  The state is unchanged in
    all four. *)
Theorem fs_delete_missing_target :
  Os.path_exists (safe_path "0/f/x") file_store = (file_store, inr false)
  /\ fs_delete "0/f/x" file_store = (file_store, inl NotADirectoryError)
  /\ fs_read "0/f/x" file_store = (file_store, inl HTTP404)
  /\ Os.path_exists (safe_path "0/nope") file_store = (file_store, inr false)
  /\ fs_delete "0/nope" file_store = (file_store, inl FileNotFoundError)
  /\ fs_read "0/nope" file_store = (file_store, inl HTTP404).
Proof. repeat split; reflexivity. Qed.

(** C7 on the code.  The source ["0/f/x"] does not exist and [fs_rename]
    ends with the uncaught [NotADirectoryError]; with the missing source
    ["0/nope"] and the destination ["0/f/y"] it ends with [FileExistsError]
    from [os.makedirs], before [os.rename] is reached; with the missing
    source ["0/nope"] and the destination ["0/new/dir/y"] it ends with the
    uncaught [FileNotFoundError] after having made the directories
    [0/new/dir], which stay. *)
Theorem fs_rename_missing_source :
  Os.path_exists (safe_path "0/f/x") file_store = (file_store, inr false)
  /\ fs_rename "0/f/x" "0/y" file_store = (file_store, inl NotADirectoryError)
  /\ Os.path_exists (safe_path "0/nope") file_store = (file_store, inr false)
  /\ fs_rename "0/nope" "0/f/y" file_store = (file_store, inl FileExistsError)
  /\ fs_rename "0/nope" "0/new/dir/y" file_store
     = (Dir [("decisions",
              Dir [("0", Dir [("f", File "x");
                              ("new", Dir [("dir", Dir [])])]);
                   ("HEAD", File "0")])],
        inl FileNotFoundError).
Proof. repeat split; reflexivity. Qed.

(** * Further properties of the helpers and handlers *)

(** ** The [HEAD] file *)

Section HeadFile.
Import FS FSFacts OsFacts.

Lemma head_lookup fs es :
  lookup fs root_components = Some (Dir es) ->
  lookup fs head_components = assoc "HEAD" es.
Proof.
  intros H. change head_components with (root_components ++ ["HEAD"]).
  now apply lookup_child.
Qed.

Lemma write_head_run fs es n :
  lookup fs root_components = Some (Dir es) ->
  is_dir (assoc "HEAD" es) = false ->
  write_head n fs = (put fs head_components (File (PyInt.str n)), inr tt).
Proof.
  intros Hroot Hhead. unfold write_head.
  apply (write_text_ok _ _ _ _ resolve_head_path).
  - discriminate.
  - now apply (parent_of_root_entry fs es).
  - now rewrite (head_lookup _ _ Hroot).
Qed.

Lemma read_head_missing fs es :
  lookup fs root_components = Some (Dir es) -> assoc "HEAD" es = None ->
  read_head fs = (fs, inl FileNotFoundError).
Proof.
  intros Hroot Hhead. unfold read_head, bind, Os.read_text, with_path.
  rewrite resolve_head_path. unfold query, read_at.
  destruct fs as [x|top]; [discriminate|].
  unfold root_components in Hroot. rewrite lookup_single in Hroot.
  unfold head_components. cbn [walk]. now rewrite Hroot, Hhead.
Qed.

Lemma read_head_garbled fs c :
  lookup fs head_components = Some (File c) ->
  PyInt.int_of_str c = None ->
  read_head fs = (fs, inl ValueError).
Proof.
  intros Hl Hc. rewrite (read_head_at _ _ Hl).
  now rewrite parse_head_int, Hc.
Qed.

(** What depends on [current_rev] fails as it does, before any change. *)
Lemma head_failure fs e :
  current_rev fs = (fs, inl e) ->
  rev_list fs = (fs, inl e) /\ bump_rev fs = (fs, inl e)
  /\ fs_snapshot fs = (fs, inl e).
Proof.
  intros H. unfold rev_list, bump_rev, fs_snapshot, bind.
  now rewrite H.
Qed.

End HeadFile.

(** X1.  Where the storage root is a directory and [HEAD] is not one,
    [write_head n] goes through for every integer [n] that [str] takes,
    one of at most [INT_MAX_STR_DIGITS] digits, negative ones included;
    [read_head] then answers [n], and nothing but the [HEAD] file has
    changed. *)
Theorem write_head_then_read_head fs es n :
  FS.lookup fs root_components = Some (Dir es) ->
  FS.is_dir (FS.assoc "HEAD" es) = false ->
  int_fits n = true ->
  exists fs',
    write_head n fs = (fs', inr tt)
    /\ read_head fs' = (fs', inr n)
    /\ forall q, diverge head_components q = true ->
                 FS.lookup fs' q = FS.lookup fs q.
Proof.
  intros Hroot Hhead _.
  exists (put fs head_components (File (PyInt.str n))).
  split; [now apply (write_head_run fs es)|]. split.
  - rewrite (read_head_at _ (PyInt.str n)).
    + now rewrite parse_head_str.
    + apply FSFacts.lookup_put_same. right.
      now apply (parent_of_root_entry fs es).
  - intros q Hq. now apply FSFacts.lookup_put_diverge.
Qed.

Lemma write_head_then_read_head_witness :
  exists fs',
    write_head (-7) fresh_store = (fs', inr tt)
    /\ read_head fs' = (fs', inr (-7)%Z)
    /\ forall q, diverge head_components q = true ->
                 FS.lookup fs' q = FS.lookup fresh_store q.
Proof.
  apply (write_head_then_read_head fresh_store
           [("0", Dir []); ("HEAD", File "0")] (-7) eq_refl eq_refl).
  vm_compute. reflexivity.
Defined.

(** X2.  When [HEAD] cannot be read, [current_rev], [rev_list], [bump_rev]
    and [fs_snapshot] all raise the same exception and change nothing:
    [ValueError] where the text of [HEAD] is no integer for [int],
    [FileNotFoundError] where the storage root has no [HEAD]. *)
Theorem head_unreadable fs :
  (forall c,
     FS.lookup fs head_components = Some (File c) ->
     PyInt.int_of_str c = None ->
     current_rev fs = (fs, inl ValueError)
     /\ rev_list fs = (fs, inl ValueError)
     /\ bump_rev fs = (fs, inl ValueError)
     /\ fs_snapshot fs = (fs, inl ValueError))
  /\ (forall es,
        FS.lookup fs root_components = Some (Dir es) ->
        FS.assoc "HEAD" es = None ->
        current_rev fs = (fs, inl FileNotFoundError)
        /\ rev_list fs = (fs, inl FileNotFoundError)
        /\ bump_rev fs = (fs, inl FileNotFoundError)
        /\ fs_snapshot fs = (fs, inl FileNotFoundError)).
Proof.
  split.
  - intros c Hl Hc.
    assert (H : current_rev fs = (fs, inl ValueError))
      by now apply (read_head_garbled fs c).
    split; [exact H | now apply head_failure].
  - intros es Hroot Hhead.
    assert (H : current_rev fs = (fs, inl FileNotFoundError))
      by now apply (read_head_missing fs es).
    split; [exact H | now apply head_failure].
Qed.

Lemma head_unreadable_witness :
  let garbled :=
    Dir [("decisions", Dir [("0", Dir []); ("HEAD", File "1.5")])] in
  let headless := Dir [("decisions", Dir [("0", Dir [])])] in
  (fs_snapshot garbled = (garbled, inl ValueError)
   /\ bump_rev garbled = (garbled, inl ValueError))
  /\ fs_snapshot headless = (headless, inl FileNotFoundError).
Proof.
  intros garbled headless. split.
  - destruct (proj1 (head_unreadable garbled) "1.5" eq_refl eq_refl)
      as (_ & _ & Hb & Hs).
    now split.
  - exact (proj2 (proj2 (proj2
             (proj2 (head_unreadable headless) [("0", Dir [])]
                eq_refl eq_refl)))).
Defined.

(** X3.  [rev_list] with a negative [HEAD] answers that [HEAD] as [latest]
    and the empty list: [range] of a number that is not positive has no
    element. *)
Theorem rev_list_negative_head fs h :
  head_is fs h -> (h < 0)%Z ->
  rev_list fs = (fs, inr (JObj [("latest", JInt h); ("list", JList [])])).
Proof.
  intros Hh Hneg. unfold rev_list, bind.
  rewrite (current_rev_head_is _ _ Hh). unfold py_list_range.
  assert (E : (SSIZE_MAX <? h + 1)%Z = false)
    by (apply Z.ltb_ge; unfold SSIZE_MAX; lia).
  rewrite E. unfold ret, py_range.
  replace (Z.to_nat (h + 1)) with 0%nat by lia. reflexivity.
Qed.

Lemma rev_list_negative_head_witness :
  let fs := Dir [("decisions", Dir [("0", Dir []); ("HEAD", File "-3")])] in
  head_is fs (-3) /\ (-3 < 0)%Z
  /\ rev_list fs = (fs, inr (JObj [("latest", JInt (-3)); ("list", JList [])])).
Proof.
  intros fs.
  assert (H : head_is fs (-3)) by (exists "-3"; split; reflexivity).
  split; [exact H|]. split; [lia|].
  exact (rev_list_negative_head fs (-3) H ltac:(lia)).
Defined.

(** ** [os.makedirs] *)

Section Makedirs.
Import FS FSFacts OsFacts.

Lemma dirs_along_dir n p : dirs_along n p = true -> exists es, n = Dir es.
Proof.
  destruct n as [x|es]; [|now exists es]. now destruct p.
Qed.

Lemma dirs_along_nil p : dirs_along (Dir []) p = true.
Proof. now destruct p. Qed.

Lemma lookup_empty_dir p : p <> [] -> lookup (Dir []) p = None.
Proof. now destruct p. Qed.

Lemma dirs_along_app p : forall n q,
  dirs_along n (p ++ q) = true -> dirs_along n p = true.
Proof.
  induction p as [|c p IH]; intros n q H; cbn [app] in *.
  - apply dirs_along_dir in H as [es ->]. reflexivity.
  - destruct n as [x|es]; [discriminate|]. cbn [dirs_along] in *.
    destruct (assoc c es) as [m|]; [|reflexivity]. now apply (IH m q).
Qed.

Lemma dirs_along_lookup p : forall n q k,
  dirs_along n (p ++ q) = true -> lookup n p = Some k ->
  dirs_along k q = true.
Proof.
  induction p as [|c p IH]; intros n q k H Hl; cbn [app] in *.
  - cbn in Hl. now injection Hl as <-.
  - destruct n as [x|es]; [discriminate|]. cbn [dirs_along] in H.
    rewrite lookup_cons in Hl.
    destruct (assoc c es) as [m|]; [|discriminate]. now apply (IH m).
Qed.

Lemma ensure_present p : forall n,
  is_dir (lookup n p) = true -> ensure n p = n.
Proof.
  induction p as [|c p IH]; intros n H; [reflexivity|].
  destruct n as [x|es]; [reflexivity|]. cbn [ensure].
  rewrite lookup_cons in H.
  destruct (assoc c es) as [m|] eqn:E; [|discriminate].
  rewrite (IH m H). now rewrite (set_entry_same _ _ _ E).
Qed.

Lemma ensure_is_dir p : forall n,
  dirs_along n p = true -> is_dir (lookup (ensure n p) p) = true.
Proof.
  induction p as [|c p IH]; intros n H.
  - apply dirs_along_dir in H as [es ->]. reflexivity.
  - destruct n as [x|es]; [discriminate|]. cbn [dirs_along ensure] in *.
    destruct (assoc c es) as [m|]; rewrite lookup_cons, assoc_set_same;
      apply IH; auto. apply dirs_along_nil.
Qed.

(** What [ensure] leaves alone: all but the directories it is to make. *)
Lemma ensure_lookup_other p : forall n r,
  dirs_along n p = true -> is_prefix r p = false ->
  lookup (ensure n p) r = lookup n r.
Proof.
  induction p as [|c p IH]; intros n r H Hr; [reflexivity|].
  destruct n as [x|es]; [discriminate|]. cbn [dirs_along ensure] in *.
  destruct r as [|b r]; [discriminate|]. cbn [is_prefix] in Hr.
  destruct (String.eqb_spec b c) as [->|Hbc].
  - cbn [andb] in Hr. rewrite (lookup_cons es).
    destruct (assoc c es) as [m|];
      rewrite lookup_cons, assoc_set_same, IH; auto.
    + destruct r; [discriminate | reflexivity].
    + apply dirs_along_nil.
  - rewrite (lookup_cons es).
    destruct (assoc c es) as [m|];
      now rewrite lookup_cons, assoc_set_other.
Qed.

Lemma is_prefix_longer p : forall a, is_prefix (p ++ [a]) p = false.
Proof.
  induction p as [|c p IH]; intros a; [reflexivity|].
  cbn [app is_prefix]. rewrite String.eqb_refl. now apply IH.
Qed.

Lemma ensure_lookup_below n p a :
  dirs_along n p = true ->
  lookup (ensure n p) (p ++ [a]) = lookup n (p ++ [a]).
Proof.
  intros H. apply ensure_lookup_other; auto.
  apply is_prefix_longer.
Qed.

(** One more directory at the end of the way. *)
Lemma ensure_snoc p : forall n a,
  dirs_along n p = true -> lookup n (p ++ [a]) = None ->
  ensure n (p ++ [a]) = put (ensure n p) (p ++ [a]) (Dir []).
Proof.
  induction p as [|c p IH]; intros n a H Hl; cbn [app] in *.
  - apply dirs_along_dir in H as [es ->].
    rewrite lookup_single in Hl. cbn [ensure]. now rewrite Hl, put_single.
  - destruct n as [x|es]; [discriminate|]. cbn [dirs_along ensure] in *.
    rewrite lookup_cons in Hl.
    assert (Hne : exists d r, p ++ [a] = d :: r)
      by (destruct p; cbn; eauto).
    destruct Hne as (d & r & Hne).
    destruct (assoc c es) as [m|] eqn:E.
    + rewrite (IH m a H Hl). rewrite Hne, put_deeper, assoc_set_same.
      now rewrite set_entry_twice.
    + rewrite (IH (Dir []) a).
      * rewrite Hne, put_deeper, assoc_set_same.
        now rewrite set_entry_twice.
      * apply dirs_along_nil.
      * apply lookup_empty_dir. now destruct p.
Qed.

Lemma makedirs_rev_cons tail rhead ok fs :
  Os.makedirs_rev (tail :: rhead) ok fs =
  match
    match rhead, lookup fs (rev rhead) with
    | _ :: _, None =>
        match Os.makedirs_rev rhead ok fs with
        | (fs', inl FileExistsError) => (fs', inr tt)
        | r => r
        end
    | _, _ => (fs, inr tt)
    end
  with
  | (fs1, inl e) => (fs1, inl e)
  | (fs1, inr _) =>
      match mkdir_at fs1 (rev rhead ++ [tail]) with
      | inr fs2 => (fs2, inr tt)
      | inl e =>
          if negb ok || negb (is_dir (lookup fs1 (rev rhead ++ [tail])))
          then (fs1, inl e) else (fs1, inr tt)
      end
  end.
Proof. reflexivity. Qed.

Lemma makedirs_rev_ensure rname : forall fs,
  dirs_along fs (rev rname) = true ->
  Os.makedirs_rev rname true fs = (ensure fs (rev rname), inr tt).
Proof.
  induction rname as [|tail rhead IH]; intros fs H.
  - cbn [rev] in *. apply dirs_along_dir in H as [es ->]. reflexivity.
  - rewrite makedirs_rev_cons.
    change (rev (tail :: rhead)) with (rev rhead ++ [tail]) in *.
    pose proof (dirs_along_app _ _ _ H) as Hq.
    set (q := rev rhead) in *.
    match goal with
    | |- (let (_, _) := ?X in _) = _ =>
        assert (Hafter : X = (ensure fs q, @inr exn unit tt))
    end.
    { destruct (lookup fs q) as [k|] eqn:Ek.
      - assert (Hk : is_dir (lookup fs q) = true).
        { rewrite Ek. apply (dirs_along_lookup q fs [tail] k) in H; auto.
          now apply dirs_along_dir in H as [es ->]. }
        rewrite (ensure_present _ _ Hk).
        destruct rhead as [|h r]; [reflexivity|].
        fold q. now rewrite Ek.
      - destruct rhead as [|h r]; [discriminate|].
        fold q. now rewrite Ek, (IH fs Hq). }
    rewrite Hafter.
    pose proof (ensure_is_dir _ _ Hq) as Hpar.
    pose proof (ensure_lookup_below fs q tail Hq) as Hbelow.
    destruct (lookup fs (q ++ [tail])) as [m|] eqn:Em.
    + assert (Hm : is_dir (Some m) = true).
      { apply (dirs_along_lookup (q ++ [tail]) fs [] m) in Em.
        - now apply dirs_along_dir in Em as [es ->].
        - now rewrite app_nil_r. }
      rewrite (mkdir_at_exists _ _ _ Hbelow), Hbelow, Hm. cbn [negb orb].
      rewrite (ensure_present (q ++ [tail])); [|now rewrite Em].
      rewrite ensure_present; auto.
      rewrite lookup_app in Em.
      destruct (lookup fs q) as [[x|es]|]; try discriminate. reflexivity.
    + rewrite mkdir_at_ok; auto.
      * now rewrite ensure_snoc.
      * now destruct q.
      * unfold parent_is_dir. now rewrite removelast_last.
Qed.

Lemma makedirs_ensure name p fs :
  resolve name = inr p -> dirs_along fs p = true ->
  Os.makedirs name true fs = (ensure fs p, inr tt).
Proof.
  intros Hr H. unfold Os.makedirs, with_path. rewrite Hr.
  rewrite <- (rev_involutive p) at 2.
  apply makedirs_rev_ensure. now rewrite rev_involutive.
Qed.

End Makedirs.

(** ** Start-up *)

Section Startup.
Import FS FSFacts OsFacts PyIntFacts.

Lemma resolve_rev0 : resolve (STORAGE_ROOT ++ "/0")%string = inr (rev_components 0).
Proof. reflexivity. Qed.

Lemma rev_lookup fs es n :
  lookup fs root_components = Some (Dir es) ->
  lookup fs (rev_components n) = assoc (PyInt.str n) es.
Proof.
  intros H. change (rev_components n) with (root_components ++ [PyInt.str n]).
  now apply lookup_child.
Qed.

Lemma wf_store_fresh_root fs :
  lookup fs root_components = Some (Dir [("0", Dir []); ("HEAD", File "0")]) ->
  wf_store fs 0.
Proof.
  intros Hroot. repeat split.
  - lia.
  - exists "0". split; [|reflexivity].
    now rewrite (head_lookup _ _ Hroot).
  - intros n Hn. assert (n = 0%Z) as -> by lia.
    now rewrite (rev_lookup _ _ _ Hroot).
  - intros n Hn. rewrite (rev_lookup _ _ _ Hroot). cbn [assoc].
    assert (H0 : PyInt.str n <> "0")
      by (intros E; apply (str_inj n 0) in E; lia).
    rewrite (proj2 (String.eqb_neq "0" (PyInt.str n)) (not_eq_sym H0)).
    pose proof (str_not_HEAD n) as H1.
    now rewrite (proj2 (String.eqb_neq "HEAD" (PyInt.str n)) (not_eq_sym H1)).
Qed.

Lemma startup_run_new es :
  assoc "decisions" es = None ->
  startup (Dir es)
  = (Dir (es ++ [("decisions", Dir [("0", Dir []); ("HEAD", File "0")])]),
     inr tt).
Proof.
  intros Hd. unfold startup. unfold bind at 1.
  rewrite (makedirs_ensure _ _ (Dir es) resolve_rev0)
    by (cbn [rev_components dirs_along]; now rewrite Hd).
  change (rev_components 0) with ["decisions"; "0"].
  cbn [ensure]. rewrite Hd. cbn [assoc set_entry].
  set (fs1 := Dir (set_entry "decisions" (Dir [("0", Dir [])]) es)).
  assert (Hroot : lookup fs1 root_components = Some (Dir [("0", Dir [])])).
  { unfold fs1, root_components. now rewrite lookup_single, assoc_set_same. }
  unfold bind.
  rewrite (path_exists_at _ _ fs1 resolve_head_path).
  rewrite (head_lookup _ _ Hroot). cbn [assoc String.eqb Ascii.eqb Bool.eqb negb].
  rewrite (write_text_ok _ _ fs1 "0" resolve_head_path).
  - unfold fs1, head_components.
    rewrite put_deeper, assoc_set_same, put_single, set_entry_twice.
    cbn [set_entry String.eqb Ascii.eqb Bool.eqb].
    now rewrite (set_entry_fresh _ _ _ Hd).
  - discriminate.
  - now apply (parent_of_root_entry fs1 [("0", Dir [])]).
  - now rewrite (head_lookup _ _ Hroot).
Qed.

Lemma assoc_app_fresh k v es : assoc k es = None -> assoc k (es ++ [(k, v)]) = Some v.
Proof.
  intros H. rewrite <- (set_entry_fresh _ v _ H). apply assoc_set_same.
Qed.

Lemma startup_run_present fs m :
  is_dir (lookup fs (rev_components 0)) = true ->
  lookup fs head_components = Some m ->
  startup fs = (fs, inr tt).
Proof.
  intros H0 Hh. unfold startup, bind.
  rewrite (makedirs_present _ _ fs resolve_rev0 H0).
  now rewrite (path_exists_at _ _ fs resolve_head_path), Hh.
Qed.

Lemma startup_run_headless fs es :
  lookup fs root_components = Some (Dir es) ->
  is_dir (assoc "0" es) = true ->
  assoc "HEAD" es = None ->
  startup fs = (put fs head_components (File "0"), inr tt).
Proof.
  intros Hroot H0 Hh. unfold startup, bind.
  rewrite (makedirs_present _ _ fs resolve_rev0)
    by now rewrite (rev_lookup _ _ _ Hroot).
  rewrite (path_exists_at _ _ fs resolve_head_path).
  rewrite (head_lookup _ _ Hroot), Hh. cbn [negb].
  apply (write_text_ok _ _ fs "0" resolve_head_path).
  - discriminate.
  - now apply (parent_of_root_entry fs es).
  - now rewrite (head_lookup _ _ Hroot), Hh.
Qed.

End Startup.

(** X4.  In a working directory that has no entry [decisions], start-up
    (lines 13 to 18) makes the storage root with the empty revision [0] and
    a [HEAD] holding [0], after the entries that were there, and the store
    it leaves is well formed with head [0]. *)
Theorem startup_creates_store es :
  FS.assoc "decisions" es = None ->
  startup (Dir es)
  = (Dir (es ++ [("decisions", Dir [("0", Dir []); ("HEAD", File "0")])]),
     inr tt)
  /\ wf_store
       (Dir (es ++ [("decisions", Dir [("0", Dir []); ("HEAD", File "0")])]))
       0.
Proof.
  intros Hd. split; [now apply startup_run_new|].
  apply wf_store_fresh_root. unfold root_components.
  rewrite FSFacts.lookup_single. now apply assoc_app_fresh.
Qed.

Lemma startup_creates_store_witness :
  let es := [("app.py", File "x"); ("static", Dir [])] in
  startup (Dir es)
  = (Dir (es ++ [("decisions", Dir [("0", Dir []); ("HEAD", File "0")])]),
     inr tt)
  /\ wf_store
       (Dir (es ++ [("decisions", Dir [("0", Dir []); ("HEAD", File "0")])]))
       0.
Proof.
  exact (startup_creates_store
           [("app.py", File "x"); ("static", Dir [])] eq_refl).
Defined.

(** X5.  Where revision [0] is a directory and something bears the name
    [HEAD], start-up changes nothing: an existing [HEAD] is never
    rewritten, whatever it is or holds. *)
Theorem startup_keeps_store fs m :
  FS.is_dir (FS.lookup fs (rev_components 0)) = true ->
  FS.lookup fs head_components = Some m ->
  startup fs = (fs, inr tt).
Proof. apply startup_run_present. Qed.

Lemma startup_keeps_store_witness :
  let fs :=
    Dir [("decisions",
          Dir [("0", Dir [("f", File "x")]); ("1", Dir []);
               ("HEAD", File "not a number")])] in
  startup fs = (fs, inr tt).
Proof.
  intros fs.
  exact (startup_keeps_store fs (File "not a number") eq_refl eq_refl).
Defined.

(** X6.  Where [HEAD] is missing from a storage root that holds the
    revisions [0] and [1], start-up writes a [HEAD] holding [0]; the
    counter then stands below a revision that exists, and [bump_rev] and
    [fs_snapshot] fail with [FileExistsError] and change nothing. *)
Theorem startup_resets_lost_head fs es m :
  FS.lookup fs root_components = Some (Dir es) ->
  FS.is_dir (FS.assoc "0" es) = true ->
  FS.assoc "HEAD" es = None ->
  FS.assoc "1" es = Some m ->
  exists fs',
    startup fs = (fs', inr tt)
    /\ head_is fs' 0
    /\ bump_rev fs' = (fs', inl FileExistsError)
    /\ fs_snapshot fs' = (fs', inl FileExistsError).
Proof.
  intros Hroot H0 Hh H1.
  exists (put fs head_components (File "0")).
  assert (Hhead : head_is (put fs head_components (File "0")) 0).
  { exists "0". split; [|reflexivity].
    apply FSFacts.lookup_put_same. right.
    now apply (parent_of_root_entry fs es). }
  assert (Hbump : bump_rev (put fs head_components (File "0"))
                  = (put fs head_components (File "0"), inl FileExistsError)).
  { apply (bump_rev_conflict _ 0 m); [exact Hhead|].
    rewrite FSFacts.lookup_put_diverge by apply diverge_head_rev.
    now rewrite (rev_lookup _ _ _ Hroot). }
  split; [now apply (startup_run_headless fs es)|].
  split; [exact Hhead|]. split; [exact Hbump|].
  unfold fs_snapshot. unfold bind at 1.
  rewrite (current_rev_head_is _ _ Hhead).
  unfold bind at 1. now rewrite Hbump.
Qed.

Lemma startup_resets_lost_head_witness :
  let fs := Dir [("decisions", Dir [("0", Dir []); ("1", Dir [])])] in
  exists fs',
    startup fs = (fs', inr tt)
    /\ head_is fs' 0
    /\ bump_rev fs' = (fs', inl FileExistsError)
    /\ fs_snapshot fs' = (fs', inl FileExistsError).
Proof.
  intros fs.
  exact (startup_resets_lost_head fs [("0", Dir []); ("1", Dir [])] (Dir [])
           eq_refl eq_refl eq_refl eq_refl).
Defined.

(** ** Normalised paths *)

Section SafePath.
Import PyStr PyStrFacts PosixPath PathFacts ResolveFacts FS.

Lemma split_slash_free s :
  Forall (fun c => has_slash c = false) (split_slash s).
Proof.
  induction s as [|c s IH]; cbn [split_slash]; [now repeat constructor|].
  destruct (is_slash c) eqn:E; [now constructor|].
  destruct (split_slash s) as [|h t].
  - repeat constructor. cbn [has_slash]. now rewrite E.
  - inversion IH; subst. constructor; auto. cbn [has_slash]. now rewrite E.
Qed.

Lemma split_slash_has_nul s :
  has_nul s = existsb has_nul (split_slash s).
Proof.
  induction s as [|c s IH]; cbn [split_slash has_nul existsb]; [reflexivity|].
  destruct (is_slash c) eqn:E.
  - unfold is_slash in E. apply Ascii.eqb_eq in E. subst c.
    cbn [existsb has_nul]. now rewrite IH.
  - pose proof (split_slash_nonempty s) as Hne.
    destruct (split_slash s) as [|h t]; [congruence|].
    cbn [existsb has_nul] in *. now rewrite IH, orb_assoc.
Qed.

Lemma join_slash_cons x y l :
  join_slash (x :: y :: l) = (x ++ String slash (join_slash (y :: l)))%string.
Proof. reflexivity. Qed.

Lemma append_assoc (a b c : string) :
  ((a ++ b) ++ c = a ++ (b ++ c))%string.
Proof. induction a as [|x a IH]; cbn [append]; [reflexivity | now rewrite IH]. Qed.

Lemma join_slash_snoc l a :
  l <> [] ->
  join_slash (l ++ [a]) = (join_slash l ++ String slash a)%string.
Proof.
  induction l as [|x l IH]; intros H; [congruence|].
  destruct l as [|y l]; [reflexivity|].
  change ((x :: y :: l) ++ [a]) with (x :: y :: (l ++ [a])).
  rewrite !join_slash_cons.
  change (y :: l ++ [a]) with ((y :: l) ++ [a]).
  rewrite IH by discriminate. now rewrite append_assoc.
Qed.

Lemma split_join l :
  l <> [] -> Forall (fun c => has_slash c = false) l ->
  split_slash (join_slash l) = l.
Proof.
  induction l as [|x l IH]; intros Hne H; [congruence|].
  inversion H as [|? ? Hx Hl]; subst.
  destruct l as [|y l].
  - now apply split_slash_no_slash.
  - rewrite join_slash_cons, split_slash_app, (split_slash_no_slash _ Hx).
    now rewrite IH by (auto; discriminate).
Qed.

Lemma has_nul_join l : has_nul (join_slash l) = existsb has_nul l.
Proof.
  induction l as [|x l IH]; [reflexivity|].
  destruct l as [|y l].
  - cbn [join_slash existsb]. now rewrite orb_false_r.
  - rewrite join_slash_cons.
    change (x ++ String slash (join_slash (y :: l)))%string
      with (x ++ (String slash "" ++ join_slash (y :: l)))%string.
    rewrite !has_nul_app, IH. reflexivity.
Qed.

Lemma valid_names_inv l :
  forallb valid_name l = true ->
  Forall (fun c => has_slash c = false) l /\ existsb has_nul l = false.
Proof.
  induction l as [|x l IH]; cbn [forallb existsb]; [now split|].
  rewrite andb_true_iff. intros [Hx Hl]. destruct (IH Hl) as [H1 H2].
  pose proof (valid_name_inv _ Hx) as (_ & Hs & _).
  rewrite (valid_name_no_nul _ Hx), H2. split; [now constructor | reflexivity].
Qed.

Lemma resolve_steps_names l : forall acc,
  forallb valid_name l = true ->
  fold_left resolve_step l (Some acc) = Some (acc ++ l).
Proof.
  induction l as [|x l IH]; intros acc H; cbn [fold_left].
  - now rewrite app_nil_r.
  - cbn [forallb] in H. apply andb_true_iff in H as [Hx Hl].
    rewrite (resolve_step_name _ _ Hx), IH by assumption.
    now rewrite <- app_assoc.
Qed.

Lemma join_slash_first x l :
  x <> "" -> join_slash (x :: l) <> ""
             /\ startswith "/" (join_slash (x :: l)) = startswith "/" x.
Proof.
  intros Hx. destruct l as [|y l]; [now split|].
  rewrite join_slash_cons. split.
  - destruct x; [congruence | discriminate].
  - now apply startswith_slash_app.
Qed.

(** Valid names joined by slashes resolve to these names. *)
Lemma resolve_names l :
  l <> [] -> forallb valid_name l = true ->
  resolve (join_slash l) = inr l.
Proof.
  intros Hne H. destruct (valid_names_inv _ H) as [Hs Hn].
  destruct l as [|x l]; [congruence|].
  pose proof H as H'. cbn [forallb] in H'.
  apply andb_true_iff in H' as [Hx _].
  pose proof (valid_name_inv _ Hx) as (Hx1 & _).
  destruct (join_slash_first x l Hx1) as [J1 J2].
  unfold resolve.
  rewrite (proj2 (String.eqb_neq _ "") J1), has_nul_join, Hn, J2.
  rewrite (valid_name_not_abs _ Hx), split_join by assumption.
  now rewrite resolve_steps_names.
Qed.

Lemma endswith_slash_names l :
  l <> [] -> forallb valid_name l = true ->
  endswith_slash (join_slash l) = false.
Proof.
  intros Hne H.
  destruct (exists_last Hne) as (q & a & ->).
  rewrite forallb_app in H. apply andb_true_iff in H as [Hq Ha].
  cbn [forallb] in Ha. rewrite andb_true_r in Ha.
  pose proof (valid_name_inv _ Ha) as (Ha1 & Ha2 & _).
  destruct q as [|x q].
  - cbn [app join_slash]. now apply (endswith_slash_app_name "").
  - rewrite join_slash_snoc by discriminate.
    change (join_slash (x :: q) ++ String slash a)%string
      with (join_slash (x :: q) ++ (String slash "" ++ a))%string.
    rewrite <- append_assoc. now apply endswith_slash_app_name.
Qed.

(** *** [dirname] *)

Lemma has_slash_app a b : has_slash (a ++ b) = has_slash a || has_slash b.
Proof.
  induction a as [|c a IH]; cbn [append has_slash]; [reflexivity|].
  now rewrite IH, orb_assoc.
Qed.

Lemma upto_last_slash_none a : has_slash a = false -> upto_last_slash a = "".
Proof. destruct a as [|c a]; [reflexivity|]. cbn [upto_last_slash]. now intros ->. Qed.

Lemma upto_last_slash_app s a :
  has_slash a = false ->
  upto_last_slash (s ++ String slash a) = (s ++ String slash "")%string.
Proof.
  intros Ha. induction s as [|c s IH].
  - cbn [append upto_last_slash has_slash]. unfold is_slash at 1.
    rewrite Ascii.eqb_refl. cbn [orb]. now rewrite upto_last_slash_none.
  - cbn [append]. cbn [upto_last_slash].
    replace (has_slash (String c (s ++ String slash a))) with true.
    + now rewrite IH.
    + cbn [has_slash]. rewrite has_slash_app. cbn [has_slash].
      unfold is_slash at 2. rewrite Ascii.eqb_refl.
      now rewrite orb_true_r, orb_true_r.
Qed.

Lemma rstrip_slash_app s : rstrip_slash (s ++ String slash "") = rstrip_slash s.
Proof.
  induction s as [|c s IH]; [reflexivity|].
  cbn [append rstrip_slash]. now rewrite IH.
Qed.

Lemma rstrip_slash_tidy s : endswith_slash s = false -> rstrip_slash s = s.
Proof.
  induction s as [|c s IH]; [reflexivity|]. intros H.
  cbn [rstrip_slash]. destruct s as [|d s].
  - cbn [endswith_slash] in H. cbn [rstrip_slash]. now rewrite H.
  - change (endswith_slash (String c (String d s)))
      with (endswith_slash (String d s)) in H.
    rewrite (IH H). now rewrite andb_false_r.
Qed.

Lemma all_slashes_first x s :
  startswith "/" x = false -> x <> "" -> all_slashes (x ++ s) = false.
Proof.
  destruct x as [|c x]; [congruence|]. intros H _.
  cbn [append all_slashes]. cbn [startswith] in H.
  rewrite andb_true_r in H. unfold is_slash, slash.
  now rewrite Ascii.eqb_sym, H.
Qed.

Lemma dirname_names q a :
  q <> [] -> forallb valid_name q = true -> valid_name a = true ->
  dirname (join_slash (q ++ [a])) = join_slash q.
Proof.
  intros Hne Hq Ha.
  pose proof (valid_name_inv _ Ha) as (Ha1 & Ha2 & _).
  rewrite join_slash_snoc by assumption.
  unfold dirname. rewrite (upto_last_slash_app _ _ Ha2).
  destruct q as [|x q]; [congruence|].
  pose proof Hq as Hq'. cbn [forallb] in Hq'.
  apply andb_true_iff in Hq' as [Hx _].
  pose proof (valid_name_inv _ Hx) as (Hx1 & _).
  destruct (join_slash_first x q Hx1) as [J1 J2].
  rewrite (valid_name_not_abs _ Hx) in J2.
  rewrite (all_slashes_first _ _ J2 J1).
  assert (Hn : (join_slash (x :: q) ++ String slash "")%string <> "")
    by (destruct (join_slash (x :: q)); [congruence | discriminate]).
  rewrite (proj2 (String.eqb_neq _ "") Hn). cbn [negb andb].
  rewrite rstrip_slash_app. apply rstrip_slash_tidy.
  now apply endswith_slash_names.
Qed.

(** *** [normpath] *)

Lemma join_root sub :
  startswith "/" sub = false ->
  join STORAGE_ROOT sub = ("./decisions" ++ String slash sub)%string.
Proof. intros H. unfold join. now rewrite H. Qed.

Lemma safe_path_fold sub :
  startswith "/" sub = false ->
  safe_path sub =
  let nc := fold_left (norm_step 0) (split_slash sub) ["decisions"] in
  if String.eqb (join_slash nc) "" then "." else join_slash nc.
Proof.
  intros H. unfold safe_path. rewrite (join_root _ H). unfold normpath.
  rewrite split_slash_app, fold_left_app. reflexivity.
Qed.

Lemma norm_fold_plain i comps : forall acc,
  forallb (fun c => negb (String.eqb c "..")) comps = true ->
  fold_left (norm_step i) comps acc
  = acc ++ filter (fun c => negb (String.eqb c "" || String.eqb c ".")) comps.
Proof.
  induction comps as [|c comps IH]; intros acc H; cbn [fold_left filter].
  - now rewrite app_nil_r.
  - cbn [forallb] in H. apply andb_true_iff in H as [Hc Hl].
    rewrite (IH _ Hl). unfold norm_step.
    destruct (String.eqb c "" || String.eqb c "."); cbn [negb]; [reflexivity|].
    rewrite Hc. cbn [orb]. now rewrite <- app_assoc.
Qed.

Lemma real_names_valid sub :
  no_dotdot sub = true -> has_nul sub = false ->
  forallb valid_name (real_names sub) = true.
Proof.
  unfold no_dotdot, real_names. intros Hd Hn.
  rewrite split_slash_has_nul in Hn.
  pose proof (split_slash_free sub) as Hs.
  induction (split_slash sub) as [|c l IH]; [reflexivity|].
  cbn [forallb existsb filter] in *.
  apply andb_true_iff in Hd as [Hc Hd].
  apply orb_false_iff in Hn as [Hcn Hn].
  inversion Hs as [|? ? Hcs Hs']; subst.
  destruct (String.eqb c "" || String.eqb c ".") eqn:E; cbn [negb].
  - now apply IH.
  - cbn [forallb]. rewrite IH by assumption.
    apply orb_false_iff in E as [E1 E2].
    unfold valid_name. now rewrite E1, E2, Hcs, Hc, Hcn.
Qed.

(** The components of a normalised relative path are names, after [..]
    components in front if there are any. *)
Lemma norm_fold_shape comps :
  Forall (fun c => has_slash c = false) comps ->
  forall nc,
    (Forall (fun c => c <> "" /\ c <> "." /\ c <> ".."
                      /\ has_slash c = false) nc
     \/ exists r, nc = ".." :: r) ->
    let nc' := fold_left (norm_step 0) comps nc in
    Forall (fun c => c <> "" /\ c <> "." /\ c <> ".."
                     /\ has_slash c = false) nc'
    \/ exists r, nc' = ".." :: r.
Proof.
  induction 1 as [|c comps Hc Hl IH]; intros nc Hnc; [exact Hnc|].
  cbn [fold_left]. apply IH. unfold norm_step.
  destruct (String.eqb_spec c ""); [exact Hnc|].
  destruct (String.eqb_spec c "."); [exact Hnc|]. cbn [orb].
  destruct (String.eqb_spec c "..") as [->|Hdd]; cbn [negb orb].
  - destruct Hnc as [Hreal | [r ->]].
    + destruct nc as [|x nc]; [right; now exists []|].
      change (Nat.eqb (List.length (x :: nc)) 0) with false. cbn [andb negb].
      assert (Hlast : last (x :: nc) "" <> "..").
      { assert (Hin : In (last (x :: nc) "") (x :: nc)).
        { destruct (@exists_last _ (x :: nc) ltac:(discriminate))
            as (q & a & E).
          rewrite E, last_last. apply in_or_app. right. now left. }
        rewrite Forall_forall in Hreal. apply (Hreal _ Hin). }
      rewrite (proj2 (String.eqb_neq _ "..") Hlast).
      left. rewrite Forall_forall in *. intros y Hy. apply Hreal.
      clear - Hy. revert Hy. generalize (x :: nc) as l.
      induction l as [|z l IHl]; [intros []|].
      destruct l as [|w l]; [intros []|].
      intros [<- | Hy]; [now left | right; now apply IHl].
    + right. change (Nat.eqb (List.length (".." :: r)) 0) with false.
      cbn [andb negb].
      destruct (String.eqb (last (".." :: r) "") "..") eqn:El;
        [now exists (r ++ [".."])|].
      destruct r as [|y r]; [discriminate|].
      exists (removelast (y :: r)). reflexivity.
  - destruct Hnc as [Hreal | [r ->]].
    + left. apply Forall_app. split; [exact Hreal|]. now repeat constructor.
    + right. now exists (r ++ [c]).
Qed.

Lemma fold_resolve_none l : fold_left resolve_step l None = None.
Proof. induction l; auto. Qed.

Lemma resolve_dotdot r p : resolve (join_slash (".." :: r)) <> inr p.
Proof.
  unfold resolve.
  destruct (String.eqb _ ""); [discriminate|].
  destruct (has_nul _); [discriminate|].
  destruct (startswith "/" _); [discriminate|].
  assert (H : exists l, split_slash (join_slash (".." :: r)) = ".." :: l).
  { destruct r as [|y r]; [now exists []|].
    rewrite join_slash_cons, split_slash_app. now eexists. }
  destruct H as [l ->]. cbn [fold_left resolve_step].
  change (String.eqb ".." "" || String.eqb ".." ".") with false.
  change (String.eqb ".." "..") with true. cbv iota.
  now rewrite fold_resolve_none.
Qed.

Lemma normpath_abs x :
  startswith "/" x = true -> exists r, normpath x = String slash r.
Proof.
  intros H. unfold normpath. rewrite H.
  destruct x as [|c x]; [discriminate|]. cbn [String.eqb].
  destruct (startswith "//" (String c x) && negb (startswith "///" (String c x)));
    cbn [slashes append String.eqb]; eauto.
Qed.

Lemma resolve_abs r : exists e, resolve (String slash r) = inl e.
Proof.
  unfold resolve. cbn [String.eqb].
  destruct (has_nul _); [now eexists|].
  change (startswith "/" (String slash r)) with true. now eexists.
Qed.

(** Whatever [safe_path] returns, if it lies in the tree, is valid names
    joined by single slashes. *)
Lemma safe_path_shape sub p :
  resolve (safe_path sub) = inr p ->
  forallb valid_name p = true
  /\ safe_path sub = match p with [] => "." | _ :: _ => join_slash p end.
Proof.
  intros Hr. destruct (startswith "/" sub) eqn:Habs.
  - exfalso. unfold safe_path, join in Hr. rewrite Habs in Hr.
    destruct (normpath_abs _ Habs) as [r Hn]. rewrite Hn in Hr.
    destruct (resolve_abs r) as [e He]. congruence.
  - rewrite (safe_path_fold _ Habs) in *. cbv zeta in *.
    pose proof (norm_fold_shape _ (split_slash_free sub) ["decisions"]) as Hs.
    cbv zeta in Hs.
    set (nc := fold_left (norm_step 0) (split_slash sub) ["decisions"]) in *.
    destruct (String.eqb_spec (join_slash nc) "") as [E|E].
    + cbn in Hr. injection Hr as <-. now split.
    + destruct Hs as [Hreal | [r Hdd]].
      * left. repeat constructor; discriminate.
      * assert (Hne : nc <> []) by (intros Hnil; now rewrite Hnil in E).
        pose proof (resolve_no_nul _ _ Hr) as Hnul.
        rewrite has_nul_join in Hnul.
        assert (Hv : forallb valid_name nc = true).
        { clear - Hreal Hnul. induction Hreal as [|c l (H1 & H2 & H3 & H4) _ IH];
            [reflexivity|].
          cbn [existsb forallb] in *.
          apply orb_false_iff in Hnul as [Hc Hl].
          rewrite (IH Hl). unfold valid_name.
          rewrite (proj2 (String.eqb_neq c "") H1).
          rewrite (proj2 (String.eqb_neq c ".") H2).
          rewrite (proj2 (String.eqb_neq c "..") H3).
          now rewrite H4, Hc. }
        rewrite (resolve_names _ Hne Hv) in Hr. injection Hr as <-.
        split; [exact Hv|]. now destruct nc.
      * exfalso. rewrite Hdd in Hr. now apply resolve_dotdot in Hr.
Qed.

(** The directory part of what [safe_path] returns. *)
Lemma safe_path_dirname sub q a :
  resolve (safe_path sub) = inr (q ++ [a]) -> q <> [] ->
  resolve (dirname (safe_path sub)) = inr q.
Proof.
  intros Hr Hq. destruct (safe_path_shape _ _ Hr) as [Hv Hs].
  rewrite forallb_app in Hv. apply andb_true_iff in Hv as [Hvq Hva].
  cbn [forallb] in Hva. rewrite andb_true_r in Hva.
  assert (E : safe_path sub = join_slash (q ++ [a]))
    by (rewrite Hs; now destruct q).
  rewrite E, dirname_names by assumption.
  now apply resolve_names.
Qed.

Lemma safe_path_dirname_top sub a :
  resolve (safe_path sub) = inr [a] -> dirname (safe_path sub) = "".
Proof.
  intros Hr. destruct (safe_path_shape _ _ Hr) as [Hv Hs].
  cbn [forallb] in Hv. rewrite andb_true_r in Hv.
  pose proof (valid_name_inv _ Hv) as (_ & Ha & _).
  rewrite Hs. cbn [join_slash]. unfold dirname.
  now rewrite upto_last_slash_none.
Qed.

End SafePath.

(** X7.  For a relative [sub] without a [..] component, [safe_path]
    returns [decisions] and the components of [sub] that are neither empty
    nor [.], joined by single slashes; where [sub] has no null character
    this path names an entry within the storage root. *)
Theorem safe_path_without_dotdot sub :
  PyStr.startswith "/" sub = false -> no_dotdot sub = true ->
  safe_path sub = PyStr.join_slash ("decisions" :: real_names sub)
  /\ (PyStr.has_nul sub = false ->
      FS.resolve (safe_path sub) = inr ("decisions" :: real_names sub)
      /\ within_root (safe_path sub) = true).
Proof.
  intros Habs Hdd.
  assert (E : safe_path sub = PyStr.join_slash ("decisions" :: real_names sub)).
  { rewrite (safe_path_fold _ Habs). cbv zeta.
    rewrite (norm_fold_plain 0 _ ["decisions"] Hdd).
    change (["decisions"] ++ ?l) with ("decisions" :: l).
    fold (real_names sub).
    destruct (join_slash_first "decisions" (real_names sub)) as [J _];
      [discriminate|].
    now rewrite (proj2 (String.eqb_neq _ "") J). }
  split; [exact E|]. intros Hn.
  assert (R : FS.resolve (safe_path sub) = inr ("decisions" :: real_names sub)).
  { rewrite E. apply resolve_names; [discriminate|].
    cbn [forallb]. now rewrite real_names_valid. }
  split; [exact R|]. unfold within_root. now rewrite R.
Qed.

Lemma safe_path_without_dotdot_witness :
  safe_path "a//b/./c.txt/" = "decisions/a/b/c.txt"
  /\ FS.resolve (safe_path "a//b/./c.txt/")
     = inr ["decisions"; "a"; "b"; "c.txt"]
  /\ within_root (safe_path "a//b/./c.txt/") = true.
Proof.
  destruct (safe_path_without_dotdot "a//b/./c.txt/" eq_refl eq_refl)
    as [E H].
  split; [exact E | exact (H eq_refl)].
Defined.

(** X8.  For a [sub] that starts with a slash, [os.path.join] drops the
    storage root: [safe_path] returns the normalised [sub], which is an
    absolute path. *)
Theorem safe_path_absolute sub :
  PyStr.startswith "/" sub = true ->
  safe_path sub = PosixPath.normpath sub
  /\ PyStr.startswith "/" (safe_path sub) = true.
Proof.
  intros Habs.
  assert (E : safe_path sub = PosixPath.normpath sub)
    by (unfold safe_path, PosixPath.join; now rewrite Habs).
  destruct (normpath_abs _ Habs) as [r Hr].
  split; [exact E|]. rewrite E, Hr. reflexivity.
Qed.

Lemma safe_path_absolute_witness :
  safe_path "/etc//passwd" = "/etc/passwd"
  /\ safe_path "/etc//passwd" = PosixPath.normpath "/etc//passwd"
  /\ PyStr.startswith "/" (safe_path "/etc//passwd") = true.
Proof.
  split; [reflexivity|].
  exact (safe_path_absolute "/etc//passwd" eq_refl).
Defined.

(** X9.  Whenever the path [safe_path] returns names something below the
    working directory, it is in normal form: the valid names of its
    components joined by single slashes, with no slash at the end, or [.]
    for the working directory itself. *)
Theorem safe_path_normal_form sub p :
  FS.resolve (safe_path sub) = inr p ->
  forallb valid_name p = true
  /\ safe_path sub = match p with
                     | [] => "."
                     | _ :: _ => PyStr.join_slash p
                     end
  /\ PyStr.endswith_slash (safe_path sub) = false.
Proof.
  intros Hr. destruct (safe_path_shape _ _ Hr) as [Hv Hs].
  split; [exact Hv|]. split; [exact Hs|].
  rewrite Hs. destruct p as [|a p]; [reflexivity|].
  now apply endswith_slash_names.
Qed.

Lemma safe_path_normal_form_witness :
  forallb valid_name ["decisions"; "1"; "b"] = true
  /\ safe_path "0/../1/a/..//b/" = "decisions/1/b"
  /\ PyStr.endswith_slash (safe_path "0/../1/a/..//b/") = false.
Proof.
  exact (safe_path_normal_form "0/../1/a/..//b/" ["decisions"; "1"; "b"]
           eq_refl).
Defined.

(** ** The handlers that only read *)

Section ReadOnly.
Import FS FSFacts OsFacts.

Lemma fs_read_at path p fs :
  resolve (safe_path path) = inr p ->
  fs_read path fs =
  (fs, match lookup fs p with
       | None => inl HTTP404
       | Some (Dir _) => inl IsADirectoryError
       | Some (File c) => inr (JStr (PyStr.universal_newlines c), 200%Z)
       end).
Proof.
  intros Hr. unfold fs_read, bind. rewrite (path_exists_at _ _ _ Hr).
  destruct (lookup fs p) as [[c|es]|] eqn:E; cbn [negb]; [| |reflexivity].
  - now rewrite (read_text_at _ _ _ _ Hr E).
  - unfold Os.read_text, with_path, query, read_at. rewrite Hr.
    apply walk_lookup in E. now rewrite E.
Qed.

Lemma rev_file_at rev path p fs :
  resolve (safe_path (PyInt.str rev ++ "/" ++ path)%string) = inr p ->
  rev_file rev path fs =
  (fs, match lookup fs p with
       | None => inl HTTP404
       | Some (Dir _) => inl IsADirectoryError
       | Some (File c) => inr c
       end).
Proof.
  intros Hr. unfold rev_file, bind. rewrite (path_exists_at _ _ _ Hr).
  destruct (lookup fs p) as [[c|es]|] eqn:E; cbn [negb]; [| |reflexivity].
  - now rewrite (read_bytes_at _ _ _ _ Hr E).
  - unfold Os.read_bytes, with_path, query, read_at. rewrite Hr.
    apply walk_lookup in E. now rewrite E.
Qed.

End ReadOnly.

(** X10.  [fs_read] never changes the store.  With [p] the entry its path
    names, it answers 404 where nothing is there, raises
    [IsADirectoryError] where a directory is there, and answers 200 with
    the content of the file, its line endings turned into ["\n"], where a
    file is there. *)
Theorem fs_read_by_cases path p fs :
  FS.resolve (safe_path path) = inr p ->
  fs_read path fs =
  (fs, match FS.lookup fs p with
       | None => inl HTTP404
       | Some (Dir _) => inl IsADirectoryError
       | Some (File c) => inr (JStr (PyStr.universal_newlines c), 200%Z)
       end).
Proof. apply fs_read_at. Qed.

Lemma fs_read_by_cases_witness :
  fs_read "0/missing" sample_store = (sample_store, inl HTTP404)
  /\ fs_read "" sample_store = (sample_store, inl IsADirectoryError)
  /\ fs_read "0/a/b.txt" sample_store
     = (sample_store, inr (JStr "hello", 200%Z)).
Proof.
  split; [|split].
  - exact (fs_read_by_cases "0/missing" ["decisions"; "0"; "missing"]
             sample_store eq_refl).
  - exact (fs_read_by_cases "" ["decisions"] sample_store eq_refl).
  - exact (fs_read_by_cases "0/a/b.txt" ["decisions"; "0"; "a"; "b.txt"]
             sample_store eq_refl).
Defined.

(** X11.  [rev_file], the server running in the directory of [app.py],
    never changes the store.  With [p] the entry that [safe_path] of
    ["<rev>/<path>"] names, it answers 404 where nothing is there, raises
    [IsADirectoryError] where a directory is there, and serves the content
    of the file as it is stored, line endings untouched, where a file is
    there. *)
Theorem rev_file_by_cases rev path p fs :
  FS.resolve (safe_path (PyInt.str rev ++ "/" ++ path)%string) = inr p ->
  rev_file rev path fs =
  (fs, match FS.lookup fs p with
       | None => inl HTTP404
       | Some (Dir _) => inl IsADirectoryError
       | Some (File c) => inr c
       end).
Proof. apply rev_file_at. Qed.

Lemma rev_file_by_cases_witness :
  rev_file 1 "notes.txt" sample_store = (sample_store, inl HTTP404)
  /\ rev_file 0 "" sample_store = (sample_store, inl IsADirectoryError)
  /\ rev_file 0 "notes.txt" sample_store = (sample_store, inr crlf_text).
Proof.
  split; [|split].
  - exact (rev_file_by_cases 1 "notes.txt" ["decisions"; "1"; "notes.txt"]
             sample_store eq_refl).
  - exact (rev_file_by_cases 0 "" ["decisions"; "0"] sample_store eq_refl).
  - exact (rev_file_by_cases 0 "notes.txt" ["decisions"; "0"; "notes.txt"]
             sample_store eq_refl).
Defined.

(** X12.  What [fs_write] has written under ["<rev>/<path>"], [rev_file]
    serves for [rev] and [path] character for character, carriage returns
    included (the server running in the directory of [app.py]). *)
Theorem write_then_rev_file rev path c fs fs' r :
  fs_write (PyInt.str rev ++ "/" ++ path)%string c fs = (fs', inr r) ->
  rev_file rev path fs' = (fs', inr c).
Proof.
  intros H. apply fs_write_inv in H as (_ & fs1 & p & _ & Hr & Hp & Hd & ->).
  rewrite (rev_file_at _ _ _ _ Hr).
  rewrite FSFacts.lookup_put_same by now right. reflexivity.
Qed.

Lemma write_then_rev_file_witness :
  rev_file 0 "a/n.txt"
    (fst (fs_write "0/a/n.txt" crlf_text fresh_store))
  = (fst (fs_write "0/a/n.txt" crlf_text fresh_store), inr crlf_text).
Proof.
  apply (write_then_rev_file 0 "a/n.txt" crlf_text fresh_store _ ("", 201%Z)).
  reflexivity.
Defined.



(** ** Writing *)

Section Writing.
Import FS FSFacts OsFacts.

Lemma is_prefix_app r : forall q s,
  is_prefix r q = true -> is_prefix r (q ++ s) = true.
Proof.
  induction r as [|a r IH]; intros q s H; [reflexivity|].
  destruct q as [|b q]; [discriminate|]. cbn [app is_prefix] in *.
  apply andb_true_iff in H as [-> H]. now rewrite (IH _ _ H).
Qed.

Lemma diverge_not_prefix p : forall r,
  diverge p r = true -> is_prefix r p = false.
Proof.
  induction p as [|a p IH]; intros r H; [discriminate|].
  destruct r as [|b r]; [discriminate|]. cbn [diverge is_prefix] in *.
  rewrite (String.eqb_sym b a).
  destruct (String.eqb a b); [now apply IH | reflexivity].
Qed.

Lemma diverge_snoc_not_prefix q a r :
  diverge (q ++ [a]) r = true -> is_prefix r q = false.
Proof.
  intros H. apply diverge_not_prefix in H.
  destruct (is_prefix r q) eqn:E; [|reflexivity].
  now rewrite (is_prefix_app _ _ [a] E) in H.
Qed.

(** The run of [fs_write] where nothing stands in its way. *)
Lemma fs_write_run sub q a c fs :
  resolve (safe_path sub) = inr (q ++ [a]) -> q <> [] ->
  dirs_along fs q = true ->
  is_dir (lookup fs (q ++ [a])) = false ->
  fs_write sub c fs
  = (put (ensure fs q) (q ++ [a]) (File c), inr ("", 201%Z)).
Proof.
  intros Hr Hq Hd Ht. unfold fs_write, bind.
  rewrite (makedirs_ensure _ _ fs (safe_path_dirname _ _ _ Hr Hq) Hd).
  rewrite (write_text_ok _ _ (ensure fs q) c Hr); auto.
  - now destruct q.
  - unfold parent_is_dir. rewrite removelast_last. now apply ensure_is_dir.
  - now rewrite ensure_lookup_below.
Qed.

Lemma makedirs_empty ok fs : Os.makedirs "" ok fs = (fs, inl FileNotFoundError).
Proof. reflexivity. Qed.

(** [makedirs] of a path that names a regular file. *)
Lemma makedirs_on_file name q fs x :
  resolve name = inr q -> lookup fs q = Some (File x) ->
  Os.makedirs name true fs = (fs, inl FileExistsError).
Proof.
  intros Hr Hl. unfold Os.makedirs, with_path. rewrite Hr.
  destruct (rev q) as [|tail rhead] eqn:E.
  - apply (f_equal (@rev string)) in E. rewrite rev_involutive in E.
    subst q. cbn in Hl. injection Hl as ->. reflexivity.
  - assert (Hq : q = rev rhead ++ [tail]).
    { apply (f_equal (@rev string)) in E. now rewrite rev_involutive in E. }
    rewrite makedirs_rev_cons, <- Hq.
    assert (Hparent : exists k, lookup fs (rev rhead) = Some k).
    { rewrite Hq, lookup_app in Hl.
      destruct (lookup fs (rev rhead)) as [k|]; [now exists k | discriminate]. }
    destruct Hparent as [k Hk].
    destruct rhead as [|h r]; [|rewrite Hk];
      now rewrite (mkdir_at_exists _ _ _ Hl), Hl.
Qed.

Lemma dirs_along_present p : forall n,
  is_dir (lookup n p) = true -> dirs_along n p = true.
Proof.
  induction p as [|c p IH]; intros n H; [exact H|].
  destruct n as [x|es]; [discriminate|]. cbn [dirs_along].
  rewrite lookup_cons in H.
  destruct (assoc c es) as [m|]; [now apply IH | reflexivity].
Qed.

Lemma put_keeps_parent n q a v :
  is_dir (lookup n q) = true ->
  is_dir (lookup (put n (q ++ [a]) v) q) = true.
Proof.
  intros H. destruct (lookup n q) as [[x|es]|] eqn:E; try discriminate.
  rewrite (put_child _ _ _ _ _ E).
  rewrite lookup_put_same; [reflexivity|].
  now apply (lookup_some_parent _ _ (Dir es)).
Qed.

End Writing.

(** X14.  Where whatever exists along the directory part of the target is
    a directory and the target itself is not one, every name of the target
    has at most [NAME_MAX] bytes, its path fewer than [PATH_MAX] and its
    directory part at most [SAFE_DEPTH] levels, [fs_write] and [fs_save]
    answer 201: they make the directories that are missing, leave the file
    with the content at the target, and change nothing at any path that
    parts from the target's. *)
Theorem fs_write_creates sub q a c fs :
  FS.resolve (safe_path sub) = inr (q ++ [a]) -> q <> [] ->
  dirs_along fs q = true ->
  FS.is_dir (FS.lookup fs (q ++ [a])) = false ->
  forallb name_fits (q ++ [a]) = true ->
  text_fits (safe_path sub) = true ->
  (length q <= SAFE_DEPTH)%nat ->
  exists fs',
    fs_write sub c fs = (fs', inr ("", 201%Z))
    /\ fs_save sub c fs = (fs', inr ("", 201%Z))
    /\ FS.is_dir (FS.lookup fs' q) = true
    /\ FS.lookup fs' (q ++ [a]) = Some (File c)
    /\ forall r, diverge (q ++ [a]) r = true ->
                 FS.lookup fs' r = FS.lookup fs r.
Proof.
  intros Hr Hq Hd Ht _ _ _.
  pose proof (fs_write_run sub q a c fs Hr Hq Hd Ht) as Hrun.
  exists (put (ensure fs q) (q ++ [a]) (File c)).
  pose proof (ensure_is_dir _ _ Hd) as Hqd.
  destruct (FS.lookup (ensure fs q) q) as [[x|es]|] eqn:E; try discriminate.
  split; [exact Hrun|]. split; [exact Hrun|]. split; [|split].
  - rewrite (FSFacts.put_child _ _ _ _ _ E).
    rewrite FSFacts.lookup_put_same; [reflexivity|].
    now apply (lookup_some_parent _ _ (Dir es)).
  - apply FSFacts.lookup_put_same. right.
    unfold parent_is_dir. now rewrite removelast_last, E.
  - intros r Hdv. rewrite FSFacts.lookup_put_diverge by assumption.
    apply ensure_lookup_other; [exact Hd|].
    now apply (diverge_snoc_not_prefix q a).
Qed.

Lemma fs_write_creates_witness :
  exists fs',
    fs_write "0/docs/new/n.txt" "text" file_store = (fs', inr ("", 201%Z))
    /\ fs_save "0/docs/new/n.txt" "text" file_store = (fs', inr ("", 201%Z))
    /\ FS.is_dir (FS.lookup fs' ["decisions"; "0"; "docs"; "new"]) = true
    /\ FS.lookup fs' (["decisions"; "0"; "docs"; "new"] ++ ["n.txt"])
       = Some (File "text")
    /\ forall r,
         diverge (["decisions"; "0"; "docs"; "new"] ++ ["n.txt"]) r = true ->
         FS.lookup fs' r = FS.lookup file_store r.
Proof.
  apply (fs_write_creates "0/docs/new/n.txt"
           ["decisions"; "0"; "docs"; "new"] "n.txt" "text" file_store).
  - reflexivity.
  - discriminate.
  - reflexivity.
  - reflexivity.
  - reflexivity.
  - reflexivity.
  - vm_compute. lia.
Defined.

(** X15.  [fs_write] and [fs_save] raise and change nothing in three
    cases: [IsADirectoryError] where the target is a directory,
    [FileExistsError] where the directory part of the target is a regular
    file, and [FileNotFoundError] where the target has no directory part,
    as for the empty path, which is the storage root itself:
    [os.makedirs] is then called on the empty string. *)
Theorem fs_write_refused sub c fs :
  (forall q a es,
     FS.resolve (safe_path sub) = inr (q ++ [a]) -> q <> [] ->
     FS.lookup fs (q ++ [a]) = Some (Dir es) ->
     fs_write sub c fs = (fs, inl IsADirectoryError))
  /\ (forall q a x,
        FS.resolve (safe_path sub) = inr (q ++ [a]) -> q <> [] ->
        FS.lookup fs q = Some (File x) ->
        fs_write sub c fs = (fs, inl FileExistsError))
  /\ (forall a,
        FS.resolve (safe_path sub) = inr [a] ->
        fs_write sub c fs = (fs, inl FileNotFoundError)).
Proof.
  split; [|split].
  - intros q a es Hr Hq Hl. unfold fs_write, bind.
    destruct (lookup_parent _ _ _ _ Hl) as [es0 Hp].
    rewrite (OsFacts.makedirs_present _ _ fs (safe_path_dirname _ _ _ Hr Hq))
      by now rewrite Hp.
    unfold Os.write_text, with_path, change. rewrite Hr.
    unfold FS.write_at.
    destruct (q ++ [a]) as [|d r] eqn:E; [now destruct q|].
    assert (Hu : FS.update_at fs (d :: r)
                   (fun cur => match cur with
                               | Some (Dir _) => inl IsADirectoryError
                               | _ => inr (Some (File c))
                               end) = inl IsADirectoryError).
    { clear - Hl. revert fs Hl. generalize d.
      induction r as [|b r IH]; intros d0 fs Hl;
        (destruct fs as [x|es1]; [discriminate|]).
      - rewrite FSFacts.lookup_single in Hl.
        now rewrite FSFacts.update_at_single, Hl.
      - rewrite FSFacts.lookup_cons in Hl.
        rewrite FSFacts.update_at_deeper.
        destruct (FS.assoc d0 es1) as [m|]; [|discriminate].
        now rewrite (IH b m Hl). }
    now rewrite Hu.
  - intros q a x Hr Hq Hl. unfold fs_write, bind.
    now rewrite (makedirs_on_file _ _ fs x (safe_path_dirname _ _ _ Hr Hq) Hl).
  - intros a Hr. unfold fs_write, bind.
    now rewrite (safe_path_dirname_top _ _ Hr), makedirs_empty.
Qed.

Lemma fs_write_refused_witness :
  fs_write "0/a" "x" sample_store = (sample_store, inl IsADirectoryError)
  /\ fs_write "HEAD/x" "x" sample_store = (sample_store, inl FileExistsError)
  /\ fs_write "" "x" sample_store = (sample_store, inl FileNotFoundError).
Proof.
  split; [|split].
  - exact (proj1 (fs_write_refused "0/a" "x" sample_store)
             ["decisions"; "0"] "a" [("b.txt", File "hello")]
             eq_refl ltac:(discriminate) eq_refl).
  - exact (proj1 (proj2 (fs_write_refused "HEAD/x" "x" sample_store))
             ["decisions"; "HEAD"] "x" "0"
             eq_refl ltac:(discriminate) eq_refl).
  - exact (proj2 (proj2 (fs_write_refused "" "x" sample_store))
             "decisions" eq_refl).
Defined.

(** ** Deleting *)

Section Deleting.
Import FS FSFacts OsFacts.

(** A change at [p] leaves every path that parts from [p] as it was. *)
Lemma update_at_frame f p : forall n n' r,
  update_at n p f = inr n' -> diverge p r = true ->
  lookup n' r = lookup n r.
Proof.
  induction p as [|c p IH]; intros n n' r Hu Hd; [discriminate|].
  destruct n as [x|es]; [discriminate|].
  destruct r as [|b r]; [discriminate|]. cbn [diverge] in Hd.
  destruct p as [|d p].
  - rewrite update_at_single in Hu.
    destruct (String.eqb_spec c b) as [->|Hcb]; [discriminate|].
    destruct (f (assoc c es)) as [e|[v|]]; [discriminate| |];
      injection Hu as <-; rewrite !lookup_cons.
    + now rewrite assoc_set_other by congruence.
    + now rewrite assoc_del_other by congruence.
  - rewrite update_at_deeper in Hu.
    destruct (assoc c es) as [m|] eqn:E; [|discriminate].
    destruct (update_at m (d :: p) f) as [e|m'] eqn:Em; [discriminate|].
    injection Hu as <-. rewrite !lookup_cons.
    destruct (String.eqb_spec c b) as [<-|Hcb].
    + rewrite assoc_set_same, E. now apply (IH m).
    + now rewrite assoc_set_other by congruence.
Qed.

(** A change at [p] leaves the directories that are not [p] or below it
    directories. *)
Lemma update_at_keeps_dirs f p : forall n n' r,
  update_at n p f = inr n' -> is_prefix p r = false ->
  is_dir (lookup n r) = true -> is_dir (lookup n' r) = true.
Proof.
  induction p as [|c p IH]; intros n n' r Hu Hp Hd; [discriminate|].
  destruct n as [x|es]; [discriminate|].
  assert (Hn' : exists es', n' = Dir es').
  { destruct p as [|d p].
    - rewrite update_at_single in Hu.
      destruct (f (assoc c es)) as [e|[v|]]; [discriminate| |];
        injection Hu as <-; eauto.
    - rewrite update_at_deeper in Hu.
      destruct (assoc c es) as [m|]; [|discriminate].
      destruct (update_at m (d :: p) f) as [e|m']; [discriminate|].
      injection Hu as <-; eauto. }
  destruct r as [|b r]; [now destruct Hn' as [es' ->]|].
  cbn [is_prefix] in Hp.
  destruct (String.eqb_spec c b) as [<-|Hcb].
  - cbn [andb] in Hp. destruct p as [|d p]; [discriminate|].
    rewrite update_at_deeper in Hu.
    destruct (assoc c es) as [m|] eqn:E; [|discriminate].
    destruct (update_at m (d :: p) f) as [e|m'] eqn:Em; [discriminate|].
    injection Hu as <-. rewrite lookup_cons in *.
    rewrite assoc_set_same. rewrite E in Hd. now apply (IH m).
  - assert (Hfr : lookup n' (b :: r) = lookup (Dir es) (b :: r)).
    { apply (update_at_frame f (c :: p)); auto. cbn [diverge].
      now rewrite (proj2 (String.eqb_neq c b) Hcb). }
    now rewrite Hfr.
Qed.

Lemma is_prefix_removelast p : p <> [] -> is_prefix p (removelast p) = false.
Proof.
  induction p as [|c p IH]; intros H; [congruence|].
  destruct p as [|d p]; [reflexivity|].
  change (removelast (c :: d :: p)) with (c :: removelast (d :: p)).
  cbn [is_prefix]. rewrite String.eqb_refl. apply IH. discriminate.
Qed.

(** The run of [fs_delete] on a target that is there. *)
Lemma fs_delete_run path p fs m :
  resolve (safe_path path) = inr p -> p <> [] -> lookup fs p = Some m ->
  exists fs' f,
    fs_delete path fs = (fs', inr ("", 204%Z))
    /\ update_at fs p f = inr fs'
    /\ forall q, lookup fs' (p ++ q) = None.
Proof.
  intros Hr Hp Hl. unfold fs_delete, bind.
  rewrite (path_isdir_at _ _ _ Hr), Hl.
  destruct m as [c|es]; cbn [is_dir].
  - unfold Os.remove, with_path, change. rewrite Hr.
    unfold remove_at. destruct p as [|a p]; [congruence|].
    match goal with
    | |- context [update_at fs (a :: p) ?f] =>
        destruct (update_at_remove f _ _ _ Hp Hl eq_refl) as (fs' & Hu & Hq);
        exists fs', f
    end.
    now rewrite Hu.
  - unfold Shutil.rmtree, with_path, change. rewrite Hr.
    destruct p as [|a p]; [congruence|].
    unfold rmtree_at.
    match goal with
    | |- context [update_at fs (a :: p) ?f] =>
        destruct (update_at_remove f _ _ _ Hp Hl eq_refl) as (fs' & Hu & Hq);
        exists fs', f
    end.
    now rewrite Hu.
Qed.

End Deleting.

(** X16.  [fs_delete] of a target that is there, a file or a directory
    with whatever it holds, nesting directories no deeper than
    [SAFE_DEPTH] and with no path below it longer than [PATH_MAX], answers
    204 and leaves nothing at the target or below it; the directory that
    held the target is still a directory, every path that parts from the
    target's is as it was, and [fs_read] of the same path then answers
    404. *)
Theorem fs_delete_removes path p fs m :
  FS.resolve (safe_path path) = inr p -> p <> [] ->
  FS.lookup fs p = Some m ->
  (node_depth m <= SAFE_DEPTH)%nat ->
  (PyStr.utf8_len (safe_path path) + 1 + longest_path m < PATH_MAX)%Z ->
  exists fs',
    fs_delete path fs = (fs', inr ("", 204%Z))
    /\ (forall q, FS.lookup fs' (p ++ q) = None)
    /\ FS.is_dir (FS.lookup fs' (removelast p)) = true
    /\ (forall r, diverge p r = true -> FS.lookup fs' r = FS.lookup fs r)
    /\ fs_read path fs' = (fs', inl HTTP404).
Proof.
  intros Hr Hp Hl _ _.
  destruct (fs_delete_run _ _ _ _ Hr Hp Hl) as (fs' & f & Hrun & Hu & Hq).
  exists fs'. split; [exact Hrun|]. split; [exact Hq|].
  split; [|split].
  - apply (update_at_keeps_dirs f p fs); auto.
    + now apply is_prefix_removelast.
    + destruct (lookup_some_parent _ _ _ Hl) as [->|H]; [congruence|exact H].
  - intros r Hd. now apply (update_at_frame f p).
  - rewrite (fs_read_at _ _ _ Hr).
    specialize (Hq []). rewrite app_nil_r in Hq. now rewrite Hq.
Qed.

Lemma fs_delete_removes_witness :
  exists fs',
    fs_delete "0/a" sample_store = (fs', inr ("", 204%Z))
    /\ (forall q, FS.lookup fs' (["decisions"; "0"; "a"] ++ q) = None)
    /\ FS.is_dir (FS.lookup fs' (removelast ["decisions"; "0"; "a"])) = true
    /\ (forall r, diverge ["decisions"; "0"; "a"] r = true ->
                  FS.lookup fs' r = FS.lookup sample_store r)
    /\ fs_read "0/a" fs' = (fs', inl HTTP404).
Proof.
  apply (fs_delete_removes "0/a" ["decisions"; "0"; "a"] sample_store
           (Dir [("b.txt", File "hello")])).
  - reflexivity.
  - discriminate.
  - reflexivity.
  - vm_compute. lia.
  - vm_compute. reflexivity.
Defined.



(** ** Renaming *)

Section Renaming.
Import FS FSFacts OsFacts.

Lemma is_dir_walk n p :
  is_dir (lookup n p) = true -> exists es, walk n p = inr (Dir es).
Proof.
  unfold lookup. destruct (walk n p) as [e|[x|es]]; try discriminate.
  now exists es.
Qed.

Lemma is_prefix_of_parent s d :
  d <> [] -> is_prefix s d = false -> is_prefix s (removelast d) = false.
Proof.
  intros Hd H. destruct (is_prefix s (removelast d)) eqn:E; [|reflexivity].
  destruct (exists_last Hd) as (q & a & ->).
  rewrite removelast_last in E.
  now rewrite (is_prefix_app _ _ [a] E) in H.
Qed.

(** [rename] of an entry to a place that is free and lies neither in the
    entry nor above it. *)
Lemma rename_at_move n s d m :
  d <> [] -> lookup n s = Some m -> parent_is_dir n d = true ->
  lookup n d = None -> diverge s d = true ->
  exists n1,
    update_at n s (fun _ => inr None) = inr n1
    /\ (forall q, lookup n1 (s ++ q) = None)
    /\ parent_is_dir n1 d = true
    /\ rename_at n s d = inr (put n1 d m).
Proof.
  intros Hd Hs Hpd Hld Hdv.
  assert (Hsne : s <> []) by (intros ->; discriminate).
  assert (Hpre : is_prefix s d = false)
    by (apply diverge_not_prefix; now rewrite diverge_sym).
  destruct (update_at_remove (fun _ => inr None) s n m Hsne Hs eq_refl)
    as (n1 & Hu & Hgone).
  assert (Hpd1 : parent_is_dir n1 d = true).
  { unfold parent_is_dir in *.
    apply (update_at_keeps_dirs _ s n n1 _ Hu); auto.
    now apply is_prefix_of_parent. }
  exists n1. split; [exact Hu|]. split; [exact Hgone|]. split; [exact Hpd1|].
  unfold rename_at.
  destruct (lookup_some_parent _ _ _ Hs) as [->|Hps]; [congruence|].
  destruct (is_dir_walk _ _ Hps) as [es1 ->].
  destruct (is_dir_walk _ _ Hpd) as [es2 ->].
  destruct s as [|c s]; [congruence|]. destruct d as [|b d]; [congruence|].
  rewrite Hs. unfold same_path. rewrite Hpre. cbn [andb].
  rewrite (diverge_not_prefix _ _ Hdv).
  rewrite Hld, Hu.
  assert (Hput : update_at n1 (b :: d) (fun _ => inr (Some m))
                 = inr (put n1 (b :: d) m))
    by (apply update_at_set; auto).
  now destruct m.
Qed.

End Renaming.



(** ** Snapshots in a row *)

Section Snapshots.
Import FS FSFacts OsFacts PyIntFacts ResolveFacts.

Lemma NoDup_nodupb l : NoDup l -> nodupb l = true.
Proof.
  induction 1 as [|x l Hx _ IH]; [reflexivity|]. cbn [nodupb].
  rewrite IH, andb_true_r. apply negb_true_iff.
  destruct (existsb (String.eqb x) l) eqn:E; [|reflexivity].
  apply existsb_exists in E as (y & Hy & Exy).
  apply String.eqb_eq in Exy. now subst y.
Qed.

Lemma wf_node_dir_intro es :
  NoDup (names es) ->
  Forall (fun e => valid_name (fst e) = true /\ wf_node (snd e) = true) es ->
  wf_node (Dir es) = true.
Proof.
  intros Hn Hall. cbn [wf_node]. rewrite (NoDup_nodupb _ Hn). cbn [andb].
  induction Hall as [|[k m] l [Hk Hm] _ IH]; [reflexivity|].
  cbn [fst snd names map] in *. rewrite Hk, Hm. cbn [andb].
  apply IH. now inversion Hn.
Qed.

Lemma names_set_entry x c v es :
  In x (names (set_entry c v es)) -> x = c \/ In x (names es).
Proof.
  induction es as [|[k m] es IH]; cbn [set_entry names map fst In].
  - intros [<-|[]]. now left.
  - destruct (String.eqb_spec k c) as [->|Hn]; cbn [map fst In].
    + intros [<-|H]; auto.
    + intros [<-|H]; auto. destruct (IH H); auto.
Qed.

Lemma wf_set_entry es c v :
  wf_node (Dir es) = true -> valid_name c = true -> wf_node v = true ->
  wf_node (Dir (set_entry c v es)) = true.
Proof.
  intros Hwf Hc Hv. apply wf_node_dir in Hwf as [Hn Hall].
  apply wf_node_dir_intro.
  - clear Hall. induction es as [|[k m] es IH]; cbn [set_entry].
    + repeat constructor. intros [].
    + cbn [names map fst] in Hn. inversion Hn as [|? ? Hk Hn']; subst.
      destruct (String.eqb_spec k c) as [->|Hne]; cbn [names map fst].
      * now constructor.
      * constructor; [|now apply IH].
        intros HI. apply names_set_entry in HI as [->|HI]; auto.
  - clear Hn. induction Hall as [|[k m] l Hkm Hl IH]; cbn [set_entry].
    + now repeat constructor.
    + destruct (String.eqb k c); constructor; auto.
Qed.

(** Putting a well-formed tree at a path of valid names keeps the tree
    well formed. *)
Lemma wf_node_put p : forall n v,
  wf_node n = true -> wf_node v = true -> forallb valid_name p = true ->
  wf_node (put n p v) = true.
Proof.
  induction p as [|c p IH]; intros n v Hn Hv Hp; [exact Hv|].
  cbn [forallb] in Hp. apply andb_true_iff in Hp as [Hc Hp].
  destruct n as [x|es]; [exact Hn|].
  destruct p as [|d p].
  - rewrite put_single. now apply wf_set_entry.
  - rewrite put_deeper. destruct (assoc c es) as [m|] eqn:E; [|exact Hn].
    apply wf_set_entry; auto. apply IH; auto.
    apply (wf_node_lookup [c] (Dir es)); auto.
    now rewrite lookup_single.
Qed.

Lemma rev_components_valid n : forallb valid_name (rev_components n) = true.
Proof.
  unfold rev_components. cbn [forallb]. now rewrite str_valid_name.
Qed.

Lemma wf_node_allocated fs n :
  wf_node fs = true -> wf_node (allocated fs n) = true.
Proof.
  intros H. unfold allocated.
  apply wf_node_put; [|reflexivity|reflexivity].
  apply wf_node_put; [exact H|reflexivity|apply rev_components_valid].
Qed.

(** The run of [fs_snapshot] on a well-formed store. *)
Lemma fs_snapshot_run fs h all :
  wf_store fs h -> wf_node fs = true ->
  (depth_at fs (rev_components h) <= SAFE_DEPTH)%nat ->
  lookup fs (rev_components h) = Some (Dir all) ->
  fs_snapshot fs
  = (put (allocated fs (h + 1)) (rev_components (h + 1)) (Dir all),
     inr (JObj [("id", JInt (h + 1))])).
Proof.
  intros Hwf Hnode Hdepth Hall.
  pose proof (entries_within_levels _ _ _ Hall Hdepth) as Hlevels.
  pose proof Hwf as (Hpos & Hh & Hin & Hout).
  destruct (head_is_root _ _ Hh) as [es Hroot].
  assert (Hrootd : is_dir (lookup fs root_components) = true)
    by now rewrite Hroot.
  destruct (resolve_safe_name _ (str_valid_name h)) as [Hs Hst].
  destruct (resolve_safe_name _ (str_valid_name (h + 1))) as [Hd Hdt].
  change ["decisions"; PyInt.str h] with (rev_components h) in Hs.
  change ["decisions"; PyInt.str (h + 1)] with (rev_components (h + 1)) in Hd.
  destruct (bump_rev_wf _ _ Hwf) as [Hrun Hwf1].
  set (st0 := allocated fs (h + 1)) in *.
  assert (Hsrc0 : lookup st0 (rev_components h) = Some (Dir all)).
  { unfold st0. rewrite allocated_rev_other by lia. exact Hall. }
  assert (Hdst0 : lookup st0 (rev_components (h + 1)) = Some (Dir [])).
  { unfold st0. now apply allocated_rev_same. }
  assert (Hapart : diverge (rev_components h) (rev_components (h + 1))
                   = true) by (apply diverge_revs; lia).
  assert (Hallwf : wf_node (Dir all) = true)
    by now apply (wf_node_lookup (rev_components h) fs).
  destruct (wf_node_dir _ Hallwf) as [Hnd Hentries].
  unfold fs_snapshot. unfold bind at 1.
  rewrite (current_rev_head_is _ _ Hh).
  unfold bind at 1. rewrite Hrun.
  unfold bind at 1.
  rewrite (makedirs_present _ _ _ Hd) by (now rewrite Hdst0).
  unfold bind at 1.
  unfold Os.listdir, with_path, query. rewrite Hs.
  rewrite (proj2 (walk_lookup _ _ _) Hsrc0).
  unfold bind at 1.
  rewrite (snapshot_items_spec _ _ _ _ all Hs Hst Hd Hdt Hapart all
             Hentries Hnd Hlevels (fun k m => in_assoc_nodup all k m Hnd)
             st0 [] Hsrc0 Hdst0 (fun _ _ => eq_refl)).
  reflexivity.
Qed.

(** One snapshot of a well-formed store: the store stays well formed, the
    new revision holds what the old head held, and every other revision
    is as it was. *)
Lemma fs_snapshot_step fs h :
  wf_store fs h -> wf_node fs = true ->
  (depth_at fs (rev_components h) <= SAFE_DEPTH)%nat ->
  exists fs',
    fs_snapshot fs = (fs', inr (JObj [("id", JInt (h + 1))]))
    /\ wf_store fs' (h + 1) /\ wf_node fs' = true
    /\ lookup fs' (rev_components (h + 1)) = lookup fs (rev_components h)
    /\ forall n, n <> (h + 1)%Z ->
                 lookup fs' (rev_components n) = lookup fs (rev_components n).
Proof.
  intros Hwf Hnode Hdepth.
  pose proof Hwf as (Hpos & Hh & Hin & Hout).
  assert (Hsrc : exists all, lookup fs (rev_components h) = Some (Dir all)).
  { specialize (Hin h ltac:(lia)).
    destruct (lookup fs (rev_components h)) as [[x|all]|];
      try discriminate. now exists all. }
  destruct Hsrc as [all Hall].
  pose proof (wf_store_allocated _ _ Hwf) as (Hpos1 & Hh1 & Hin1 & Hout1).
  set (st0 := allocated fs (h + 1)) in *.
  assert (Hpar : parent_is_dir st0 (rev_components (h + 1)) = true).
  { specialize (Hin1 (h + 1)%Z ltac:(lia)).
    destruct (lookup st0 (rev_components (h + 1))) as [m|] eqn:E;
      [|discriminate].
    now destruct (lookup_some_parent _ _ _ E). }
  assert (Hother : forall n, n <> (h + 1)%Z ->
            lookup (put st0 (rev_components (h + 1)) (Dir all))
                   (rev_components n)
            = lookup fs (rev_components n)).
  { intros n Hn. rewrite lookup_put_diverge by (apply diverge_revs; lia).
    unfold st0. now rewrite allocated_rev_other. }
  assert (Hnew : lookup (put st0 (rev_components (h + 1)) (Dir all))
                        (rev_components (h + 1)) = Some (Dir all))
    by (apply lookup_put_same; now right).
  exists (put st0 (rev_components (h + 1)) (Dir all)).
  split; [now apply fs_snapshot_run|]. split; [|split; [|split]].
  - repeat split.
    + lia.
    + destruct Hh1 as (c & Hc & Hp). exists c. split; [|exact Hp].
      rewrite lookup_put_diverge; [exact Hc | apply diverge_rev_head].
    + intros n Hn. destruct (Z.eq_dec n (h + 1)) as [->|Hne].
      * now rewrite Hnew.
      * rewrite Hother by exact Hne. apply Hin. lia.
    + intros n Hn. rewrite Hother by lia. apply Hout. lia.
  - apply wf_node_put.
    + now apply wf_node_allocated.
    + now apply (wf_node_lookup (rev_components h) fs).
    + apply rev_components_valid.
  - now rewrite Hnew, Hall.
  - exact Hother.
Qed.

End Snapshots.

Lemma snapshots_run k : forall fs h,
  wf_store fs h -> wf_node fs = true ->
  (depth_at fs (rev_components h) <= SAFE_DEPTH)%nat ->
  exists fs',
    snapshots k fs
    = (fs', inr (map (fun i => JObj [("id", JInt (h + 1 + Z.of_nat i))])
                   (seq 0 k)))
    /\ wf_store fs' (h + Z.of_nat k) /\ wf_node fs' = true
    /\ (forall i, (0 <= i <= Z.of_nat k)%Z ->
          FS.lookup fs' (rev_components (h + i))
          = FS.lookup fs (rev_components h))
    /\ (forall n, (n <= h)%Z ->
          FS.lookup fs' (rev_components n) = FS.lookup fs (rev_components n)).
Proof.
  induction k as [|k IH]; intros fs h Hwf Hnode Hdepth.
  - exists fs. cbn [snapshots seq map]. unfold ret.
    cbn [Z.of_nat]. rewrite Z.add_0_r.
    split; [reflexivity|]. split; [exact Hwf|]. split; [exact Hnode|]. split.
    + intros i Hi. now replace (h + i)%Z with h by lia.
    + reflexivity.
  - destruct (fs_snapshot_step _ _ Hwf Hnode Hdepth)
      as (fs1 & Hrun & Hwf1 & Hnode1 & Hnew & Hold).
    assert (Hdepth1 : (depth_at fs1 (rev_components (h + 1)) <= SAFE_DEPTH)%nat)
      by (unfold depth_at in *; now rewrite Hnew).
    destruct (IH fs1 (h + 1)%Z Hwf1 Hnode1 Hdepth1)
      as (fs' & Hrest & Hwf' & Hnode' & Hcopies & Hkept).
    exists fs'. split; [|split; [|split; [|split]]].
    + cbn [snapshots]. unfold bind at 1. rewrite Hrun.
      unfold bind at 1. rewrite Hrest. unfold ret.
      cbn [seq map]. rewrite <- seq_shift, map_map.
      rewrite Z.add_0_r. do 3 f_equal.
      apply map_ext. intros i. do 4 f_equal. lia.
    + now replace (h + Z.of_nat (S k))%Z with (h + 1 + Z.of_nat k)%Z by lia.
    + exact Hnode'.
    + intros i Hi. destruct (Z.eq_dec i 0) as [->|Hi0].
      * rewrite Z.add_0_r, Hkept by lia. apply Hold. lia.
      * replace (h + i)%Z with (h + 1 + (i - 1))%Z by lia.
        rewrite Hcopies by lia. exact Hnew.
    + intros n Hn. rewrite Hkept by lia. apply Hold. lia.
Qed.

(** X19.  From a well-formed store with head [h] whose trees are well
    formed, the text of [HEAD] short enough for [int], whose revision [h]
    nests directories no deeper than
    [SAFE_DEPTH] and holds no path that a copy would make longer than
    [PATH_MAX], [k] calls of [fs_snapshot] in a row all go through and
    answer the ids [h + 1] to [h + k] in this order; the store stays well
    formed, with head [h + k]; each of the new revisions holds the tree
    revision [h] held, and every revision up to [h] is as it was. *)
Theorem snapshots_in_a_row k fs h :
  wf_store fs h -> wf_node fs = true -> head_fits fs = true ->
  (depth_at fs (rev_components h) <= SAFE_DEPTH)%nat ->
  (PyStr.utf8_len (safe_path (PyInt.str (h + Z.of_nat k))) + 1
   + longest_at fs (rev_components h) < PATH_MAX)%Z ->
  exists fs',
    snapshots k fs
    = (fs', inr (map (fun i => JObj [("id", JInt (h + 1 + Z.of_nat i))])
                   (seq 0 k)))
    /\ wf_store fs' (h + Z.of_nat k) /\ wf_node fs' = true
    /\ (forall i, (0 <= i <= Z.of_nat k)%Z ->
          FS.lookup fs' (rev_components (h + i))
          = FS.lookup fs (rev_components h))
    /\ (forall n, (n <= h)%Z ->
          FS.lookup fs' (rev_components n) = FS.lookup fs (rev_components n)).
Proof.
  intros Hwf Hnode _ Hdepth _. now apply snapshots_run.
Qed.

Lemma snapshots_in_a_row_witness :
  exists fs',
    snapshots 2 sample_store
    = (fs', inr [JObj [("id", JInt 1)]; JObj [("id", JInt 2)]])
    /\ wf_store fs' 2 /\ wf_node fs' = true
    /\ (forall i, (0 <= i <= 2)%Z ->
          FS.lookup fs' (rev_components (0 + i))
          = FS.lookup sample_store (rev_components 0))
    /\ (forall n, (n <= 0)%Z ->
          FS.lookup fs' (rev_components n)
          = FS.lookup sample_store (rev_components n)).
Proof.
  apply (snapshots_in_a_row 2 sample_store 0).
  - apply wf_store_initial.
  - reflexivity.
  - reflexivity.
  - vm_compute. lia.
  - vm_compute. reflexivity.
Defined.

(** ** The counter away from a well-formed store *)

Section Counting.
Import FS FSFacts OsFacts PyIntFacts ResolveFacts.

Lemma listdir_rev fs es n :
  lookup fs root_components = Some (Dir es) ->
  Os.listdir (safe_path (PyInt.str n)) fs
  = (fs, match assoc (PyInt.str n) es with
         | None => inl FileNotFoundError
         | Some (File _) => inl NotADirectoryError
         | Some (Dir l) => inr (names l)
         end).
Proof.
  intros Hroot.
  destruct (resolve_safe_name _ (str_valid_name n)) as [Hs _].
  unfold Os.listdir, with_path, query. rewrite Hs.
  destruct fs as [x|top]; [discriminate|].
  unfold root_components in Hroot. rewrite lookup_single in Hroot.
  cbn [walk]. rewrite Hroot.
  now destruct (assoc (PyInt.str n) es) as [[x|l]|].
Qed.

End Counting.

(** X20.  [bump_rev] asks only that [HEAD] holds an integer [h], of
    whatever sign, in a text short enough for [int], that nothing bears
    the number [h + 1] and that this number, written out, has at most
    [NAME_MAX] characters: it returns [h + 1], leaves the empty directory
    of that number and [HEAD] at [h + 1], and changes nothing at any path
    that parts from both. *)
Theorem bump_rev_follows_head fs h :
  head_is fs h -> head_fits fs = true ->
  FS.lookup fs (rev_components (h + 1)) = None ->
  name_fits (PyInt.str (h + 1)) = true ->
  exists fs',
    bump_rev fs = (fs', inr (h + 1)%Z)
    /\ head_is fs' (h + 1)
    /\ FS.lookup fs' (rev_components (h + 1)) = Some (Dir [])
    /\ forall q, diverge head_components q = true ->
                 diverge (rev_components (h + 1)) q = true ->
                 FS.lookup fs' q = FS.lookup fs q.
Proof.
  intros Hh _ Hfree _. destruct (head_is_root _ _ Hh) as [es Hroot].
  assert (Hd : FS.is_dir (FS.lookup fs root_components) = true)
    by now rewrite Hroot.
  exists (allocated fs (h + 1)).
  split; [now apply bump_rev_run|].
  split; [now apply allocated_head|].
  split; [now apply allocated_rev_same|].
  intros q Hq1 Hq2. unfold allocated.
  now rewrite !FSFacts.lookup_put_diverge.
Qed.

Lemma bump_rev_follows_head_witness :
  let fs := Dir [("decisions", Dir [("0", Dir []); ("HEAD", File " -5 ")])] in
  exists fs',
    bump_rev fs = (fs', inr (-5 + 1)%Z)
    /\ head_is fs' (-5 + 1)
    /\ FS.lookup fs' (rev_components (-5 + 1)) = Some (Dir [])
    /\ forall q, diverge head_components q = true ->
                 diverge (rev_components (-5 + 1)) q = true ->
                 FS.lookup fs' q = FS.lookup fs q.
Proof.
  intros fs.
  assert (H : head_is fs (-5))
    by (exists " -5 "; split; reflexivity).
  exact (bump_rev_follows_head fs (-5) H eq_refl eq_refl eq_refl).
Defined.



(** ** Writing twice *)

(** X22.  Of two [fs_write] to the same path the last one wins, and the
    first leaves no trace: where the first goes through, the second goes
    through as well and leaves the very store it would have left without
    the first. *)
Theorem fs_write_last_wins sub q a c1 c2 fs :
  FS.resolve (safe_path sub) = inr (q ++ [a]) -> q <> [] ->
  dirs_along fs q = true ->
  FS.is_dir (FS.lookup fs (q ++ [a])) = false ->
  exists fs1,
    fs_write sub c1 fs = (fs1, inr ("", 201%Z))
    /\ fs_write sub c2 fs1 = fs_write sub c2 fs
    /\ FS.lookup (fst (fs_write sub c2 fs1)) (q ++ [a]) = Some (File c2).
Proof.
  intros Hr Hq Hd Ht.
  exists (put (ensure fs q) (q ++ [a]) (File c1)).
  pose proof (ensure_is_dir _ _ Hd) as Hqd.
  assert (Hpar : parent_is_dir (ensure fs q) (q ++ [a]) = true)
    by (unfold parent_is_dir; now rewrite removelast_last).
  assert (Hq1 : FS.is_dir (FS.lookup (put (ensure fs q) (q ++ [a]) (File c1)) q)
                = true) by now apply put_keeps_parent.
  assert (Hsecond :
    fs_write sub c2 (put (ensure fs q) (q ++ [a]) (File c1))
    = (put (ensure fs q) (q ++ [a]) (File c2), inr ("", 201%Z))).
  { rewrite (fs_write_run sub q a c2 _ Hr Hq).
    - now rewrite (ensure_present _ _ Hq1), FSFacts.put_twice.
    - now apply dirs_along_present.
    - rewrite FSFacts.lookup_put_same by now right. reflexivity. }
  split; [now apply fs_write_run|]. split.
  - rewrite Hsecond. symmetry. now apply fs_write_run.
  - rewrite Hsecond. cbn [fst]. apply FSFacts.lookup_put_same. now right.
Qed.

Lemma fs_write_last_wins_witness :
  exists fs1,
    fs_write "0/d/n.txt" "one" file_store = (fs1, inr ("", 201%Z))
    /\ fs_write "0/d/n.txt" "two" fs1 = fs_write "0/d/n.txt" "two" file_store
    /\ FS.lookup (fst (fs_write "0/d/n.txt" "two" fs1))
         (["decisions"; "0"; "d"] ++ ["n.txt"]) = Some (File "two").
Proof.
  apply (fs_write_last_wins "0/d/n.txt" ["decisions"; "0"; "d"] "n.txt"
           "one" "two" file_store).
  - reflexivity.
  - discriminate.
  - reflexivity.
  - reflexivity.
Defined.

(** ** Renaming onto an entry *)

Section RenamingOnto.
Import FS FSFacts OsFacts.

(** [rename] past its checks of the paths, where both entries are there
    and neither lies in the other. *)
Lemma rename_at_checked n s d m md :
  lookup n s = Some m -> lookup n d = Some md -> diverge s d = true ->
  rename_at n s d =
  match m, md with
  | File _, Dir _ => inl IsADirectoryError
  | Dir _, File _ => inl NotADirectoryError
  | Dir _, Dir (_ :: _) => inl OSError
  | _, _ =>
      match update_at n s (fun _ => inr None) with
      | inl e => inl e
      | inr n1 => update_at n1 d (fun _ => inr (Some m))
      end
  end.
Proof.
  intros Hs Hd Hdv.
  assert (Hsne : s <> []) by (intros ->; discriminate).
  assert (Hdne : d <> []) by (intros ->; now destruct s).
  assert (Hpre : is_prefix s d = false)
    by (apply diverge_not_prefix; now rewrite diverge_sym).
  unfold rename_at.
  destruct (lookup_some_parent _ _ _ Hs) as [->|Hps]; [congruence|].
  destruct (lookup_some_parent _ _ _ Hd) as [->|Hpd]; [congruence|].
  destruct (is_dir_walk _ _ Hps) as [es1 ->].
  destruct (is_dir_walk _ _ Hpd) as [es2 ->].
  destruct s as [|c s]; [congruence|]. destruct d as [|b d]; [congruence|].
  rewrite Hs. unfold same_path. rewrite Hpre. cbn [andb].
  rewrite (diverge_not_prefix _ _ Hdv). rewrite Hd.
  destruct m as [x|es], md as [y|[|e es']]; reflexivity.
Qed.

(** The move itself, onto an entry that gives way. *)
Lemma rename_at_onto n s d m md :
  lookup n s = Some m -> lookup n d = Some md -> diverge s d = true ->
  exists n1,
    (forall q, lookup n1 (s ++ q) = None)
    /\ (match update_at n s (fun _ => inr None) with
        | inl e => inl e
        | inr n1 => update_at n1 d (fun _ => inr (Some m))
        end = inr (put n1 d m))
    /\ lookup (put n1 d m) d = Some m
    /\ forall q, lookup (put n1 d m) (s ++ q) = None.
Proof.
  intros Hs Hd Hdv.
  assert (Hsne : s <> []) by (intros ->; discriminate).
  assert (Hdne : d <> []) by (intros ->; now destruct s).
  assert (Hpre : is_prefix s d = false)
    by (apply diverge_not_prefix; now rewrite diverge_sym).
  destruct (update_at_remove (fun _ => inr None) s n m Hsne Hs eq_refl)
    as (n1 & Hu & Hgone).
  assert (Hpd1 : parent_is_dir n1 d = true).
  { destruct (lookup_some_parent _ _ _ Hd) as [->|Hpd]; [congruence|].
    unfold parent_is_dir in *.
    apply (update_at_keeps_dirs _ s n n1 _ Hu); auto.
    now apply is_prefix_of_parent. }
  exists n1. split; [exact Hgone|]. split; [|split].
  - rewrite Hu. now apply update_at_set.
  - apply lookup_put_same. now right.
  - intros q. rewrite lookup_put_diverge; [apply Hgone|].
    rewrite <- (app_nil_r d). apply diverge_app. now rewrite diverge_sym.
Qed.

End RenamingOnto.

(** X23.  [fs_rename] onto a destination that is there, source and
    destination lying apart: a file replaces a file and a directory
    replaces an empty directory, with 204 and nothing left at the source;
    a file onto a directory raises [IsADirectoryError], a directory onto a
    file [NotADirectoryError], a directory onto a directory that is not
    empty [OSError], and these three change nothing. *)
Theorem fs_rename_onto_existing from to s q a m md fs :
  FS.resolve (safe_path from) = inr s ->
  FS.resolve (safe_path to) = inr (q ++ [a]) -> q <> [] ->
  FS.lookup fs s = Some m ->
  FS.lookup fs (q ++ [a]) = Some md ->
  diverge s (q ++ [a]) = true ->
  match m, md with
  | File _, Dir _ => fs_rename from to fs = (fs, inl IsADirectoryError)
  | Dir _, File _ => fs_rename from to fs = (fs, inl NotADirectoryError)
  | Dir _, Dir (_ :: _) => fs_rename from to fs = (fs, inl OSError)
  | _, _ =>
      exists fs',
        fs_rename from to fs = (fs', inr ("", 204%Z))
        /\ FS.lookup fs' (q ++ [a]) = Some m
        /\ forall r, FS.lookup fs' (s ++ r) = None
  end.
Proof.
  intros Hs Hd Hq Hm Hmd Hdv.
  destruct (lookup_parent _ _ _ _ Hmd) as [es0 Hp].
  assert (Hrun : fs_rename from to fs
                 = match FS.rename_at fs s (q ++ [a]) with
                   | inr fs' => (fs', inr ("", 204%Z))
                   | inl e => (fs, inl e)
                   end).
  { unfold fs_rename, bind.
    rewrite (OsFacts.makedirs_present _ _ fs (safe_path_dirname _ _ _ Hd Hq))
      by now rewrite Hp.
    unfold Os.rename, with_path, change. rewrite Hs, Hd.
    now destruct (FS.rename_at fs s (q ++ [a])). }
  rewrite Hrun, (rename_at_checked _ _ _ _ _ Hm Hmd Hdv).
  destruct (rename_at_onto _ _ _ _ _ Hm Hmd Hdv)
    as (n1 & _ & Hmove & Hnew & Hgone).
  destruct m as [x|es], md as [y|[|e es']]; try reflexivity;
    rewrite Hmove; eexists; (split; [reflexivity | now split]).
Qed.

Lemma fs_rename_onto_existing_witness :
  (exists fs',
     fs_rename "0/notes.txt" "0/a/b.txt" sample_store = (fs', inr ("", 204%Z))
     /\ FS.lookup fs' (["decisions"; "0"; "a"] ++ ["b.txt"])
        = Some (File crlf_text)
     /\ forall r, FS.lookup fs' (["decisions"; "0"; "notes.txt"] ++ r) = None)
  /\ fs_rename "0/notes.txt" "0/a" sample_store
     = (sample_store, inl IsADirectoryError)
  /\ fs_rename "0/a" "0/notes.txt" sample_store
     = (sample_store, inl NotADirectoryError).
Proof.
  split; [|split].
  - exact (fs_rename_onto_existing "0/notes.txt" "0/a/b.txt"
             ["decisions"; "0"; "notes.txt"] ["decisions"; "0"; "a"] "b.txt"
             (File crlf_text) (File "hello") sample_store
             eq_refl eq_refl ltac:(discriminate) eq_refl eq_refl eq_refl).
  - exact (fs_rename_onto_existing "0/notes.txt" "0/a"
             ["decisions"; "0"; "notes.txt"] ["decisions"; "0"] "a"
             (File crlf_text) (Dir [("b.txt", File "hello")]) sample_store
             eq_refl eq_refl ltac:(discriminate) eq_refl eq_refl eq_refl).
  - exact (fs_rename_onto_existing "0/a" "0/notes.txt"
             ["decisions"; "0"; "a"] ["decisions"; "0"] "notes.txt"
             (Dir [("b.txt", File "hello")]) (File crlf_text) sample_store
             eq_refl eq_refl ltac:(discriminate) eq_refl eq_refl eq_refl).
Defined.

(** ** Starting again *)

Section StartingAgain.
Import FS FSFacts OsFacts.

(** After [makedirs] has gone through, the directory is there. *)
Lemma makedirs_inv name p fs fs' u :
  resolve name = inr p ->
  Os.makedirs name true fs = (fs', inr u) ->
  is_dir (lookup fs' p) = true.
Proof.
  intros Hr. unfold Os.makedirs, with_path. rewrite Hr.
  destruct (rev p) as [|tail rhead] eqn:E.
  - apply (f_equal (@rev string)) in E. rewrite rev_involutive in E.
    subst p. cbn [Os.makedirs_rev rev]. cbn [mkdir_at negb orb].
    destruct (is_dir (lookup fs [])) eqn:Ed; cbn [negb]; [|discriminate].
    now intros [= <- _].
  - assert (Hp : p = rev rhead ++ [tail]).
    { apply (f_equal (@rev string)) in E. now rewrite rev_involutive in E. }
    rewrite makedirs_rev_cons, <- Hp.
    match goal with
    | |- match ?X with _ => _ end = _ -> _ => destruct X as [fs1 [e|v]]
    end; [discriminate|].
    destruct (mkdir_at fs1 p) as [e|fs2] eqn:Em.
    + cbn [negb orb].
      destruct (is_dir (lookup fs1 p)) eqn:Ed; cbn [negb]; [|discriminate].
      now intros [= <- _].
    + intros [= <- _]. unfold mkdir_at in Em.
      destruct p as [|c p]; [discriminate|].
      apply update_at_inv in Em as (_ & Hpar & o & Ho & Hput).
      destruct (lookup fs1 (c :: p)); [discriminate|].
      injection Ho as <-. rewrite (Hput _ eq_refl).
      rewrite lookup_put_same; [reflexivity | now right].
Qed.

End StartingAgain.

(** X24.  Start-up is safe to repeat: whenever it goes through, running it
    again on the store it left goes through and changes nothing. *)
Theorem startup_twice fs fs' :
  startup fs = (fs', inr tt) -> startup fs' = (fs', inr tt).
Proof.
  intros H. unfold startup in H.
  apply bind_inr in H as (fs1 & u & Hmk & H).
  pose proof (makedirs_inv _ _ _ _ _ resolve_rev0 Hmk) as Hrev.
  unfold bind in H.
  rewrite (OsFacts.path_exists_at _ _ fs1 resolve_head_path) in H.
  destruct (FS.lookup fs1 head_components) as [m|] eqn:Eh; cbn [negb] in H.
  - apply ret_inr in H as [-> _].
    now apply (startup_run_present fs1 m).
  - apply OsFacts.write_text_inv in H as (p & Hp & _ & Hpar & ->).
    rewrite resolve_head_path in Hp. injection Hp as <-.
    apply (startup_run_present _ (File "0")).
    + rewrite FSFacts.lookup_put_diverge; [exact Hrev|].
      apply diverge_head_rev.
    + apply FSFacts.lookup_put_same. now right.
Qed.

Lemma startup_twice_witness : startup fresh_store = (fresh_store, inr tt).
Proof. exact (startup_twice (Dir []) fresh_store eq_refl). Defined.

(** ** Writing inside a revision *)

Section WritingInside.
Import FS FSFacts OsFacts PyIntFacts.

Lemma ensure_keeps_dirs q : forall n r,
  dirs_along n q = true ->
  is_dir (lookup n r) = true -> is_dir (lookup (ensure n q) r) = true.
Proof.
  induction q as [|c q IH]; intros n r Hd H; [exact H|].
  destruct n as [x|es]; [exact H|]. cbn [dirs_along ensure] in *.
  destruct r as [|b r]; [now destruct (assoc c es)|].
  rewrite lookup_cons in H.
  destruct (String.eqb_spec b c) as [->|Hbc].
  - destruct (assoc c es) as [m|] eqn:E; [|discriminate].
    rewrite lookup_cons, assoc_set_same. now apply IH.
  - destruct (assoc c es) as [m|];
      now rewrite lookup_cons, assoc_set_other.
Qed.

Lemma put_keeps_dirs n p v r :
  p <> [] -> parent_is_dir n p = true -> is_prefix p r = false ->
  is_dir (lookup n r) = true -> is_dir (lookup (put n p v) r) = true.
Proof.
  intros Hp Hpar Hpre Hr.
  apply (update_at_keeps_dirs (fun _ => inr (Some v)) p n); auto.
  now apply update_at_set.
Qed.

Lemma is_prefix_longer_app p : forall s a, is_prefix (p ++ s ++ [a]) p = false.
Proof.
  induction p as [|c p IH]; intros s a; [now destruct s|].
  cbn [app is_prefix]. rewrite String.eqb_refl. now apply IH.
Qed.

Lemma diverge_under_rev n k rest :
  n <> k -> diverge (rev_components n ++ rest) (rev_components k) = true.
Proof.
  intros H. rewrite <- (app_nil_r (rev_components k)).
  apply diverge_app. now apply diverge_revs.
Qed.

Lemma diverge_under_rev_head n rest :
  diverge (rev_components n ++ rest) head_components = true.
Proof.
  rewrite <- (app_nil_r head_components).
  apply diverge_app. apply diverge_rev_head.
Qed.

End WritingInside.

(** ** Saving and writing *)

Section Saving.
Import FS FSFacts.

Lemma is_prefix_length p : forall r,
  is_prefix p r = true -> (length p <= length r)%nat.
Proof.
  induction p as [|c p IH]; intros r H; cbn [length]; [lia|].
  destruct r as [|d r]; [discriminate|]. cbn [is_prefix length] in *.
  apply andb_true_iff in H as [_ H]. apply IH in H. lia.
Qed.

(** What is a directory along [q] before a file is put at [q ++ [a]] is
    one after. *)
Lemma put_keeps_way n q a v k :
  is_dir (lookup n q) = true ->
  is_dir (lookup n (firstn k q)) = true ->
  is_dir (lookup (put n (q ++ [a]) v) (firstn k q)) = true.
Proof.
  intros Hq Hk. apply put_keeps_dirs; auto.
  - now destruct q.
  - unfold parent_is_dir. now rewrite removelast_last.
  - destruct (is_prefix (q ++ [a]) (firstn k q)) eqn:E; [|reflexivity].
    apply is_prefix_length in E.
    rewrite length_app, length_firstn in E. cbn [length] in E. lia.
Qed.

End Saving.

(** C10.  [fs_save] and [fs_write] are the same function of the path, the
    content and the state, for every request.  Where whatever exists along
    the directory part of the target is a directory, the target is not
    one, every name has at most [NAME_MAX] bytes, the path fewer than
    [PATH_MAX] and the directory part at most [SAFE_DEPTH] levels, both
    answer [("", 201)] and leave every directory along the directory part
    in place, those that were missing made, at however many levels, and a
    file with exactly the content at the target, whatever was in a file
    there before.  And whenever they go through on a target in the tree,
    they answer [("", 201)], the target is a file with exactly the
    content, and its parent is a directory. *)
Theorem fs_save_is_fs_write path content fs :
  fs_save path content fs = fs_write path content fs
  /\ (forall q a,
        FS.resolve (safe_path path) = inr (q ++ [a]) -> q <> [] ->
        dirs_along fs q = true ->
        FS.is_dir (FS.lookup fs (q ++ [a])) = false ->
        forallb name_fits (q ++ [a]) = true ->
        text_fits (safe_path path) = true ->
        (length q <= SAFE_DEPTH)%nat ->
        exists fs',
          fs_save path content fs = (fs', inr ("", 201%Z))
          /\ fs' = put (ensure fs q) (q ++ [a]) (File content)
          /\ (forall k, FS.is_dir (FS.lookup fs' (firstn k q)) = true)
          /\ FS.lookup fs' (q ++ [a]) = Some (File content))
  /\ (forall p fs' r,
        FS.resolve (safe_path path) = inr p ->
        fs_save path content fs = (fs', inr r) ->
        r = ("", 201%Z)
        /\ FS.lookup fs' p = Some (File content)
        /\ parent_is_dir fs' p = true).
Proof.
  split; [reflexivity|]. split.
  - intros q a Hr Hq Hd Ht _ _ _.
    change (fs_save path content fs) with (fs_write path content fs).
    pose proof (ensure_is_dir _ _ Hd) as Hqd.
    exists (put (ensure fs q) (q ++ [a]) (File content)).
    split; [now apply fs_write_run|].
    split; [reflexivity|]. split.
    + intros k. apply put_keeps_way; [exact Hqd|].
      rewrite <- (firstn_skipn k q) in Hqd at 2.
      rewrite FSFacts.lookup_app in Hqd.
      destruct (FS.lookup (ensure fs q) (firstn k q)) as [[x|es]|];
        [|reflexivity|discriminate].
      now destruct (skipn k q).
    + apply FSFacts.lookup_put_same. right.
      unfold parent_is_dir. now rewrite removelast_last.
  - intros p fs' r Hp H.
    change (fs_save path content fs) with (fs_write path content fs) in H.
    apply fs_write_inv in H as (-> & fs1 & p' & _ & Hr & Hne & Hpar & ->).
    rewrite Hp in Hr. injection Hr as <-.
    split; [reflexivity|]. split.
    + apply FSFacts.lookup_put_same. now right.
    + unfold parent_is_dir in *.
      rewrite (app_removelast_last "" Hne) at 1.
      now apply put_keeps_parent.
Qed.

Lemma fs_save_is_fs_write_witness :
  fs_save "a/b/c/d.txt" "hello" fresh_store
  = (Dir [("decisions",
           Dir [("0", Dir []); ("HEAD", File "0");
                ("a", Dir [("b", Dir [("c", Dir [("d.txt", File "hello")])])])])],
     inr ("", 201%Z))
  /\ fs_write "a/b/c/d.txt" "hello" fresh_store
     = fs_save "a/b/c/d.txt" "hello" fresh_store
  /\ fs_save "a/b/c/d.txt" "bye"
       (fst (fs_save "a/b/c/d.txt" "hello" fresh_store))
     = (Dir [("decisions",
              Dir [("0", Dir []); ("HEAD", File "0");
                   ("a", Dir [("b", Dir [("c", Dir [("d.txt", File "bye")])])])])],
        inr ("", 201%Z)).
Proof.
  split; [|split].
  - destruct (proj1 (proj2 (fs_save_is_fs_write "a/b/c/d.txt" "hello"
                              fresh_store))
                ["decisions"; "a"; "b"; "c"] "d.txt"
                eq_refl ltac:(discriminate) eq_refl eq_refl eq_refl eq_refl
                ltac:(vm_compute; lia))
      as (fs' & Hrun & Hfs & _).
    rewrite Hrun, Hfs. reflexivity.
  - symmetry.
    exact (proj1 (fs_save_is_fs_write "a/b/c/d.txt" "hello" fresh_store)).
  - destruct (proj1 (proj2 (fs_save_is_fs_write "a/b/c/d.txt" "bye"
                              (fst (fs_save "a/b/c/d.txt" "hello" fresh_store))))
                ["decisions"; "a"; "b"; "c"] "d.txt"
                eq_refl ltac:(discriminate) eq_refl eq_refl eq_refl eq_refl
                ltac:(vm_compute; lia))
      as (fs' & Hrun & Hfs & _).
    rewrite Hrun, Hfs. reflexivity.
Defined.

(** X25.  A [fs_write] inside the directory of a revision of a well-formed
    store, where nothing but directories stands on the way, the target is
    no directory, every name of the target has at most [NAME_MAX] bytes,
    its path fewer than [PATH_MAX] and its directory part at most
    [SAFE_DEPTH] levels, answers 201 and leaves the store well formed with
    the same head; every other revision is as it was. *)
Theorem fs_write_inside_revision sub n rest a c fs h :
  wf_store fs h -> (0 <= n <= h)%Z ->
  FS.resolve (safe_path sub) = inr (rev_components n ++ rest ++ [a]) ->
  dirs_along fs (rev_components n ++ rest) = true ->
  FS.is_dir (FS.lookup fs (rev_components n ++ rest ++ [a])) = false ->
  forallb name_fits (rest ++ [a]) = true ->
  text_fits (safe_path sub) = true ->
  (length rest <= SAFE_DEPTH)%nat ->
  exists fs',
    fs_write sub c fs = (fs', inr ("", 201%Z))
    /\ wf_store fs' h
    /\ FS.lookup fs' (rev_components n ++ rest ++ [a]) = Some (File c)
    /\ forall k, k <> n ->
         FS.lookup fs' (rev_components k) = FS.lookup fs (rev_components k).
Proof.
  intros (Hpos & Hh & Hin & Hout) Hn Hr Hd Ht _ _ _.
  set (q := rev_components n ++ rest) in *.
  assert (Hq : q <> []) by discriminate.
  assert (Hp : rev_components n ++ rest ++ [a] = q ++ [a])
    by (unfold q; now rewrite app_assoc).
  rewrite Hp in *.
  pose proof (fs_write_run sub q a c fs Hr Hq Hd Ht) as Hrun.
  pose proof (ensure_is_dir _ _ Hd) as Hqd.
  assert (Hpar : parent_is_dir (ensure fs q) (q ++ [a]) = true)
    by (unfold parent_is_dir; now rewrite removelast_last).
  assert (Hframe : forall r, diverge (q ++ [a]) r = true ->
            FS.lookup (put (ensure fs q) (q ++ [a]) (File c)) r
            = FS.lookup fs r).
  { intros r Hdv. rewrite FSFacts.lookup_put_diverge by assumption.
    apply ensure_lookup_other; [exact Hd|].
    now apply (diverge_snoc_not_prefix q a). }
  assert (Hother : forall k, k <> n ->
            FS.lookup (put (ensure fs q) (q ++ [a]) (File c))
                      (rev_components k)
            = FS.lookup fs (rev_components k)).
  { intros k Hk. apply Hframe. rewrite <- Hp.
    apply diverge_under_rev. congruence. }
  exists (put (ensure fs q) (q ++ [a]) (File c)).
  split; [exact Hrun|]. split; [|split].
  - repeat split.
    + exact Hpos.
    + destruct Hh as (t & Ht1 & Ht2). exists t. split; [|exact Ht2].
      rewrite Hframe; [exact Ht1|]. rewrite <- Hp.
      apply diverge_under_rev_head.
    + intros k Hk. destruct (Z.eq_dec k n) as [->|Hne].
      * apply put_keeps_dirs; auto.
        -- now destruct q.
        -- rewrite <- Hp. apply is_prefix_longer_app.
        -- apply ensure_keeps_dirs; auto.
      * rewrite Hother by exact Hne. now apply Hin.
    + intros k Hk. rewrite Hother by lia. now apply Hout.
  - apply FSFacts.lookup_put_same. now right.
  - exact Hother.
Qed.

Lemma fs_write_inside_revision_witness :
  exists fs',
    fs_write "0/a/new/n.txt" "text" sample_store = (fs', inr ("", 201%Z))
    /\ wf_store fs' 0
    /\ FS.lookup fs' (rev_components 0 ++ ["a"; "new"] ++ ["n.txt"])
       = Some (File "text")
    /\ forall k, k <> 0%Z ->
         FS.lookup fs' (rev_components k)
         = FS.lookup sample_store (rev_components k).
Proof.
  apply (fs_write_inside_revision "0/a/new/n.txt" 0 ["a"; "new"] "n.txt"
           "text" sample_store 0).
  - apply wf_store_initial.
  - lia.
  - reflexivity.
  - reflexivity.
  - reflexivity.
  - reflexivity.
  - reflexivity.
  - vm_compute. lia.
Defined.
